(** * imdb-trakt-sync: the IMDb client ([pkg/client/imdb.go])

    A shallow embedding of the session-authenticated scraping client and the
    properties of its extraction pipeline.

    Conventions of the embedding:
    - a Go [string] is the sequence of the runes a [for range] loop sees
      (an invalid UTF-8 byte is the rune U+FFFD, as Go decodes it);
    - a Go [int] is a [Z];
    - a call that returns [(T, error)] returns a [result T]; a method of
      [*ImdbClient] is a state transformer that ends in a value, an error or a
      run-time panic (index out of range);
    - calls into libraries (net/http, encoding/csv, mime, goquery, time, ...)
      are fields of a [Platform], so every theorem holds for every behaviour
      of those libraries. *)

From Stdlib Require Import Ascii String DecimalString.
From stdpp Require Import base numbers list option gmap.

Local Open Scope N_scope.

(** ** Go strings *)

Abbreviation rune := N (only parsing).
Abbreviation gostring := (list N) (only parsing).

(** The Go string denoted by an ASCII literal. *)
Definition go (s : string) : gostring :=
  map N_of_ascii (list_ascii_of_string s).

(** [unicode.IsSpace]: the Latin-1 switch, then the White_Space table. *)
Definition unicode_IsSpace (r : rune) : bool :=
  if r <=? 255 then
    (9 <=? r) && (r <=? 13) || (r =? 32) || (r =? 133) || (r =? 160)
  else
    (r =? 5760) || (8192 <=? r) && (r <=? 8202) || (r =? 8232) || (r =? 8233)
    || (r =? 8239) || (r =? 8287) || (r =? 12288).

(** [strings.FieldsFunc]: one pass over the runes; [start] is the field being
    read, if any, and [spans] the fields already closed. *)
Fixpoint FieldsFunc_loop (f : rune -> bool) (s : gostring)
    (start : option gostring) (spans : list gostring) : list gostring :=
  match s with
  | [] => match start with Some w => spans ++ [w] | None => spans end
  | r :: s' =>
      if f r then
        match start with
        | Some w => FieldsFunc_loop f s' None (spans ++ [w])
        | None => FieldsFunc_loop f s' None spans
        end
      else
        match start with
        | Some w => FieldsFunc_loop f s' (Some (w ++ [r])) spans
        | None => FieldsFunc_loop f s' (Some [r]) spans
        end
  end.

(** [strings.Fields]. *)
Definition strings_Fields (s : gostring) : list gostring :=
  FieldsFunc_loop unicode_IsSpace s None [].

(** [strings.Join]. *)
Fixpoint strings_Join (elems : list gostring) (sep : gostring) : gostring :=
  match elems with
  | [] => []
  | [e] => e
  | e :: (_ :: _) as rest => e ++ sep ++ strings_Join rest sep
  end.

(** [strings.Split(s, sep)[0]] for a one-rune separator: the runes before the
    first occurrence of the separator (all of [s] when there is none). *)
Fixpoint strings_Split_head (s : gostring) (sep : rune) : gostring :=
  match s with
  | [] => []
  | r :: s' => if r =? sep then [] else r :: strings_Split_head s' sep
  end.

(** The class [[-a-z0-9]] of the regular expression in [buildTraktListName]. *)
Definition slug_rune (r : rune) : bool :=
  (r =? 45) || (97 <=? r) && (r <=? 122) || (48 <=? r) && (r <=? 57).

(** [regexp.MustCompile(`[^-a-z0-9]+`).ReplaceAllString(s, "")]: every maximal
    run of runes outside the class is replaced by the empty string. *)
Fixpoint regexp_strip (s : gostring) : gostring :=
  match s with
  | [] => []
  | r :: s' => if slug_rune r then r :: regexp_strip s' else regexp_strip s'
  end.

Section Slug.
(** [unicode.To(unicode.LowerCase, r)], the case table consulted for runes
    above [unicode.MaxASCII]. *)
Variable unicode_To_LowerCase : rune -> rune.

(** [unicode.ToLower]. *)
Definition unicode_ToLower (r : rune) : rune :=
  if r <=? 127 then
    if (65 <=? r) && (r <=? 90) then r + 32 else r
  else unicode_To_LowerCase r.

(** [strings.ToLower]. *)
Definition strings_ToLower (s : gostring) : gostring :=
  map unicode_ToLower s.

Definition buildTraktListName (imdbListName : gostring) : gostring :=
  let formatted :=
    strings_ToLower (strings_Join (strings_Fields imdbListName) (go "-")) in
  regexp_strip formatted.

(** *** The slug as section 4.8 of the specification words it *)

(** Every maximal run of white space becomes one hyphen; [in_run] tells that
    the previous rune was white space. *)
Fixpoint collapse_whitespace (in_run : bool) (s : gostring) : gostring :=
  match s with
  | [] => []
  | r :: s' =>
      if unicode_IsSpace r then
        if in_run then collapse_whitespace true s'
        else 45 :: collapse_whitespace true s'
      else r :: collapse_whitespace false s'
  end.

Definition spec_normalizeSlug (name : gostring) : gostring :=
  regexp_strip (collapse_whitespace false (strings_ToLower name)).
End Slug.

(** [strings.TrimSpace], written as two passes. *)
Fixpoint trim_left (s : gostring) : gostring :=
  match s with
  | [] => []
  | r :: s' => if unicode_IsSpace r then trim_left s' else s
  end.

Fixpoint trim_right (s : gostring) : gostring :=
  match s with
  | [] => []
  | r :: s' =>
      match trim_right s' with
      | [] => if unicode_IsSpace r then [] else [r]
      | t => r :: t
      end
  end.

Definition strings_TrimSpace (s : gostring) : gostring :=
  trim_right (trim_left s).

Local Close Scope N_scope.

(** [fmt.Sprintf("%d", n)]. *)
Definition fmt_d (n : Z) : gostring :=
  go (NilZero.string_of_int (Z.to_int n)).

(** ** Errors and results *)

(** [ApiError] is declared elsewhere in package [client]; its fields are the
    ones the composite literals of this file set. *)
Record ApiError := mkApiError {
  clientName : gostring;
  httpMethod : gostring;
  url : gostring;
  StatusCode : Z;
  details : gostring
}.

(** A Go [error] value: an [*ApiError]; the value of [fmt.Errorf] with a
    message only (or with a nil error for its [%w]); the value of
    [fmt.Errorf("msg: %w", err)]; or an error made by a library. *)
Inductive error :=
| Api (e : ApiError)
| Errorf (msg : gostring)
| Errorw (msg : gostring) (wrapped : error)
| Foreign (msg : gostring).

Inductive result (A : Type) :=
| Ok (a : A)
| Err (e : error).
Arguments Ok {A} a.
Arguments Err {A} e.

(** How a call ends: it returns a value with a nil error, it returns an
    error, or the goroutine panics. *)
Inductive outcome (A : Type) :=
| Ret (a : A)
| Fail (e : error)
| Panic.
Arguments Ret {A} a.
Arguments Fail {A} e.
Arguments Panic {A}.

(** The parts of package [net/http] the file reads. *)
Module http.
Definition StatusOK : Z := 200.
Definition StatusForbidden : Z := 403.
Definition StatusNotFound : Z := 404.
Definition MethodGet : gostring := go "GET".

(** [*http.Request]: [Method] and [URL.String()]. *)
Record Request := mkRequest {
  Method : gostring;
  URL : gostring
}.

(** [*http.Response]; [Header] is [Header.Get]. *)
Record Response (Body : Type) := mkResponse {
  StatusCode : Z;
  Header : gostring -> gostring;
  Body_ : Body;
  Request_ : Request
}.
Arguments mkResponse {Body} _ _ _ _.
Arguments StatusCode {Body} _.
Arguments Header {Body} _ _.
Arguments Body_ {Body} _.
Arguments Request_ {Body} _.

Record Cookie := mkCookie {
  Name : gostring;
  Value : gostring
}.
End http.

Definition imdbCookieNameAtMain : gostring := go "at-main".
Definition imdbCookieNameUbidMain : gostring := go "ubid-main".
Definition imdbHeaderKeyContentDisposition : gostring := go "Content-Disposition".
Definition imdbPathBase : gostring := go "https://www.imdb.com".
Definition imdbPathProfile : gostring := go "/profile".
Definition imdbPathWatchlist : gostring := go "/watchlist".
(** The three path templates, applied to their [%s] argument. *)
Definition imdbPathListExport (listId : gostring) : gostring :=
  go "/list/" ++ listId ++ go "/export".
Definition imdbPathLists (userId : gostring) : gostring :=
  go "/user/" ++ userId ++ go "/lists".
Definition imdbPathRatingsExport (userId : gostring) : gostring :=
  go "/user/" ++ userId ++ go "/ratings/export".

Record ImdbConfig := mkImdbConfig {
  CookieAtMain : gostring;
  CookieUbidMain : gostring;
  UserId : gostring;
  WatchlistId : gostring
}.

(** [entities.RequestFields]; its [Body] is [http.NoBody] in every call. *)
Record RequestFields := mkRequestFields {
  Method : gostring;
  Endpoint : gostring;
  Path : gostring;
  Url : gostring
}.

(** The entries the client hands to its [*zap.Logger]. *)
Inductive LogEntry :=
| LogInfo (msg : gostring)
| LogError (msg : gostring) (err : error).

(** ** What the file takes from outside

    The libraries it calls, and the declarations of package [client] that
    live in other files ([clientNameImdb], [scrapeSelectionAttribute]). *)
Record Platform := mkPlatform {
  (** an [io.ReadCloser] response body, a parsed HTML document and one
      element of a selection, a [time.Time], a cookie jar, a [*url.URL], and
      the state of everything behind the network *)
  Body : Type;
  Document : Type;
  Selection : Type;
  Time : Type;
  Jar : Type;
  URL : Type;
  World : Type;
  unicode_To_LowerCase : N -> N;
  strconv_Atoi : gostring -> result Z;
  (** [time.Parse(layout, value)] *)
  time_Parse : gostring -> gostring -> result Time;
  (** [ReadAll] of a [csv.Reader] with [LazyQuotes = true] and
      [FieldsPerRecord = -1] *)
  csv_ReadAll : Body -> result (list (list gostring));
  mime_ParseMediaType : gostring -> result (gostring * gmap (list N) (list N));
  goquery_NewDocumentFromReader : Body -> result Document;
  (** [doc.Find(selector)]: the matched elements in document order *)
  goquery_Find : Document -> gostring -> list Selection;
  (** [selection.Attr(name)] *)
  goquery_Attr : Selection -> gostring -> option gostring;
  url_Parse : gostring -> result URL;
  cookiejar_New : result Jar;
  Jar_SetCookies : Jar -> URL -> list http.Cookie -> Jar;
  (** [http.NewRequest(method, url, http.NoBody)] *)
  http_NewRequest : gostring -> gostring -> result http.Request;
  (** [(&http.Client{Jar: jar}).Do(request)] *)
  http_Client_Do :
    Jar -> http.Request -> World -> result (http.Response Body) * World;
  clientNameImdb : gostring;
  (** [scrapeSelectionAttribute(body, clientName, selector, attribute)] *)
  scrapeSelectionAttribute :
    Body -> gostring -> gostring -> gostring -> result gostring
}.

(** ** The client *)

Section Client.
Context (P : Platform).

(** [entities.ImdbItem]; a nil [*int] or [*time.Time] is [None]. *)
Record ImdbItem := mkImdbItem {
  Id : gostring;
  TitleType : gostring;
  Rating : option Z;
  RatingDate : option (Time P)
}.

(** [entities.ImdbList]. *)
Record ImdbList := mkImdbList {
  ListName : gostring;
  ListId : gostring;
  ListItems : list ImdbItem;
  TraktListSlug : gostring;
  IsWatchlist : bool
}.

(** The [*ImdbClient] a method is called on, with what it can reach: the
    entries written to its logger and the world behind [client.Do].
    [calls] is a history of the descriptors handed to [doRequest]; the Go
    struct has no such field, the theorems use it to tell which pages an
    operation asked for. *)
Record ImdbClient := mkImdbClient {
  client : Jar P;
  config : ImdbConfig;
  logger : list LogEntry;
  net : World P;
  calls : list RequestFields
}.

Definition M (A : Type) : Type := ImdbClient -> outcome A * ImdbClient.

#[local] Instance M_ret : MRet M := fun A a c => (Ret a, c).
#[local] Instance M_bind : MBind M := fun A B f m c =>
  match m c with
  | (Ret a, c') => f a c'
  | (Fail e, c') => (Fail e, c')
  | (Panic, c') => (Panic, c')
  end.

(** [return nil, err] *)
Definition fail {A} (e : error) : M A := fun c => (Fail e, c).

(** The outcome of a call that does not touch the client. *)
Definition lift {A} (o : outcome A) : M A := fun c => (o, c).

Definition logger_Info (msg : gostring) : M unit := fun c =>
  (Ret tt, mkImdbClient (client c) (config c) (logger c ++ [LogInfo msg])
             (net c) (calls c)).

Definition logger_Error (msg : gostring) (err : error) : M unit := fun c =>
  (Ret tt, mkImdbClient (client c) (config c)
             (logger c ++ [LogError msg err]) (net c) (calls c)).

Definition set_UserId (v : gostring) : M unit := fun c =>
  (Ret tt, mkImdbClient (client c)
             (mkImdbConfig (CookieAtMain (config c))
                (CookieUbidMain (config c)) v (WatchlistId (config c)))
             (logger c) (net c) (calls c)).

Definition set_WatchlistId (v : gostring) : M unit := fun c =>
  (Ret tt, mkImdbClient (client c)
             (mkImdbConfig (CookieAtMain (config c))
                (CookieUbidMain (config c)) (UserId (config c)) v)
             (logger c) (net c) (calls c)).

Definition get_config : M ImdbConfig := fun c => (Ret (config c), c).

Definition setupCookieJar (config : ImdbConfig) : result (Jar P) :=
  match url_Parse P imdbPathBase with
  | Err err =>
      Err (Errorw (go "failure parsing " ++ imdbPathBase ++ go " as url") err)
  | Ok imdbUrl =>
      match cookiejar_New P with
      | Err err => Err (Errorw (go "failure creating cookie jar") err)
      | Ok jar =>
          Ok (Jar_SetCookies P jar imdbUrl
                [ http.mkCookie imdbCookieNameAtMain (CookieAtMain config);
                  http.mkCookie imdbCookieNameUbidMain (CookieUbidMain config) ])
      end
  end.

Definition doRequest (reqFields : RequestFields)
    : M (http.Response (Body P)) := fun c =>
  let c := mkImdbClient (client c) (config c) (logger c) (net c)
             (calls c ++ [reqFields]) in
  match http_NewRequest P (Method reqFields) (Url reqFields) with
  | Err err =>
      (Fail (Errorw (go "failure creating http request "
                      ++ Method reqFields ++ go " " ++ Url reqFields) err), c)
  | Ok request =>
      let '(sent, w) := http_Client_Do P (client c) request (net c) in
      let c := mkImdbClient (client c) (config c) (logger c) w (calls c) in
      match sent with
      | Err err =>
          (Fail (Errorw (go "failure sending http request "
                          ++ Method reqFields ++ go " " ++ Url reqFields) err),
           c)
      | Ok response =>
          if http.StatusCode response =? http.StatusOK then
            (Ret response, c)
          else if http.StatusCode response =? http.StatusForbidden then
            (Fail (Api (mkApiError (clientNameImdb P) (http.Method request)
                          (http.URL request) (http.StatusCode response)
                          (go "imdb authorization failure - update the imdb cookie values"))),
             c)
          else if http.StatusCode response =? http.StatusNotFound then
            (Ret response, c) (* handled individually in various functions *)
          else
            (Fail (Api (mkApiError (clientNameImdb P) (http.Method request)
                          (http.URL request) (http.StatusCode response)
                          (go "unexpected status code "
                             ++ fmt_d (http.StatusCode response)))),
             c)
      end
  end%Z.

(** The body of the loop of [readImdbListResponse] for one data record.
    An index expression out of range panics. *)
Definition listItems_record (record : list gostring) : outcome ImdbItem :=
  match record !! 1%nat, record !! 7%nat with
  | Some id, Some titleType => Ret (mkImdbItem id titleType None None)
  | _, _ => Panic
  end.

(** [for i, record := range csvData]; [i] is the index of the first record
    of [csvData], [listItems] the slice appended to so far. *)
Fixpoint listItems_range (i : nat) (csvData : list (list gostring))
    (listItems : list ImdbItem) : outcome (list ImdbItem) :=
  match csvData with
  | [] => Ret listItems
  | record :: rest =>
      if (0 <? i)%nat then (* omit header line *)
        match listItems_record record with
        | Ret item => listItems_range (S i) rest (listItems ++ [item])
        | Fail err => Fail err
        | Panic => Panic
        end
      else listItems_range (S i) rest listItems
  end.

Definition readImdbListResponse (res : http.Response (Body P))
    (listId : gostring) : outcome ImdbList :=
  match csv_ReadAll P (http.Body_ res) with
  | Err err => Fail (Errorw (go "failure reading from imdb response") err)
  | Ok csvData =>
      match listItems_range 0 csvData [] with
      | Panic => Panic
      | Fail err => Fail err
      | Ret listItems =>
          let contentDispositionHeader :=
            http.Header res imdbHeaderKeyContentDisposition in
          if bool_decide (contentDispositionHeader = []) then
            Fail (Errorf (go "failure reading header "
                            ++ imdbHeaderKeyContentDisposition
                            ++ go " from imdb response"))
          else
            match mime_ParseMediaType P contentDispositionHeader with
            | Err err =>
                Fail (Errorw (go "failure parsing media type from imdb header "
                                ++ imdbHeaderKeyContentDisposition) err)
            | Ok (_, params) =>
                if bool_decide (size params = 0%nat) then
                  (* [%w] of a nil error *)
                  Fail (Errorf (go "failure parsing media type from imdb header "
                                  ++ imdbHeaderKeyContentDisposition))
                else
                  (* a missing key of a Go map reads as the empty string *)
                  let listName :=
                    strings_Split_head
                      (default [] (params !! go "filename")) 46%N in
                  Ret (mkImdbList listName listId listItems
                         (buildTraktListName (unicode_To_LowerCase P) listName)
                         false)
            end
      end
  end.

(** The body of the loop of [readImdbRatingsResponse] for one data
    record, in the order the statements run. *)
Definition ratings_record (record : list gostring) : outcome ImdbItem :=
  match record !! 1%nat with
  | None => Panic
  | Some field1 =>
      match strconv_Atoi P field1 with
      | Err err =>
          Fail (Errorw (go "failure parsing imdb rating value to integer") err)
      | Ok rating =>
          match record !! 2%nat with
          | None => Panic
          | Some field2 =>
              match time_Parse P (go "2006-01-02") field2 with
              | Err err =>
                  Fail (Errorw (go "failure parsing imdb rating date") err)
              | Ok ratingDate =>
                  match record !! 0%nat, record !! 5%nat with
                  | Some id, Some titleType =>
                      Ret (mkImdbItem id titleType
                             (Some rating) (Some ratingDate))
                  | _, _ => Panic
                  end
              end
          end
      end
  end.

Fixpoint ratings_range (i : nat) (csvData : list (list gostring))
    (ratings : list ImdbItem) : outcome (list ImdbItem) :=
  match csvData with
  | [] => Ret ratings
  | record :: rest =>
      if (0 <? i)%nat then
        match ratings_record record with
        | Ret item => ratings_range (S i) rest (ratings ++ [item])
        | Fail err => Fail err
        | Panic => Panic
        end
      else ratings_range (S i) rest ratings
  end.

Definition readImdbRatingsResponse (res : http.Response (Body P))
    : outcome (list ImdbItem) :=
  match csv_ReadAll P (http.Body_ res) with
  | Err err => Fail (Errorw (go "failure reading from imdb response") err)
  | Ok csvData => ratings_range 0 csvData []
  end.

Definition ListGet (listId : gostring) : M ImdbList :=
  let path := imdbPathListExport listId in
  let requestFields :=
    mkRequestFields http.MethodGet imdbPathBase path (imdbPathBase ++ path) in
  response ← doRequest requestFields;
  if (http.StatusCode response =? http.StatusNotFound)%Z then
    fail (Api (mkApiError (clientNameImdb P)
                 (http.Method (http.Request_ response))
                 (http.URL (http.Request_ response))
                 (http.StatusCode response)
                 (go "list with id " ++ listId ++ go " could not be found")))
  else lift (readImdbListResponse response listId).

Definition WatchlistGet : M ImdbList :=
  config ← get_config;
  list ← ListGet (WatchlistId config);
  mret (mkImdbList (ListName list) (ListId list) (ListItems list)
          (TraktListSlug list) true).

(** The callback [ListsGetAll] passes to [Each], run over the [id]
    attributes of the selected elements in order; [lists] is the captured
    slice. *)
Fixpoint ListsGetAll_each (attrs : list (option gostring))
    (lists : list ImdbList) : M (list ImdbList) :=
  match attrs with
  | [] => mret lists
  | None :: rest =>
      logger_Info (go "found no imdb lists");;
      ListsGetAll_each rest lists
  | Some listId :: rest =>
      fun c =>
        match ListGet listId c with
        | (Panic, c') => (Panic, c')
        | (Fail err, c') =>
            (logger_Error (go "unexpected error while scraping imdb lists") err;;
             ListsGetAll_each rest lists) c'
        | (Ret list, c') =>
            ListsGetAll_each rest
              (lists ++ [mkImdbList (ListName list) (ListId list)
                           (ListItems list)
                           (buildTraktListName (unicode_To_LowerCase P)
                              (ListName list))
                           (IsWatchlist list)]) c'
        end
  end.

Definition ListsGetAll : M (list ImdbList) :=
  config ← get_config;
  let path := imdbPathLists (UserId config) in
  let requestFields :=
    mkRequestFields http.MethodGet imdbPathBase path (imdbPathBase ++ path) in
  response ← doRequest requestFields;
  match goquery_NewDocumentFromReader P (http.Body_ response) with
  | Err err =>
      fail (Errorw
              (go "failure creating goquery document from imdb response") err)
  | Ok doc =>
      ListsGetAll_each
        (map (fun selection => goquery_Attr P selection (go "id"))
           (goquery_Find P doc (go ".user-list")))
        []
  end.

Definition UserIdScrape : M unit :=
  let requestFields :=
    mkRequestFields http.MethodGet imdbPathBase imdbPathProfile
      (imdbPathBase ++ imdbPathProfile) in
  response ← doRequest requestFields;
  match scrapeSelectionAttribute P (http.Body_ response) (clientNameImdb P)
          (go ".user-profile.userId") (go "data-userid") with
  | Err err => fail (Errorw (go "imdb user id not found") err)
  | Ok userId => set_UserId userId
  end.

Definition WatchlistIdScrape : M unit :=
  let requestFields :=
    mkRequestFields http.MethodGet imdbPathBase imdbPathWatchlist
      (imdbPathBase ++ imdbPathWatchlist) in
  response ← doRequest requestFields;
  match scrapeSelectionAttribute P (http.Body_ response) (clientNameImdb P)
          (go "meta[property='pageId']") (go "content") with
  | Err err => fail (Errorw (go "imdb watchlist id not found") err)
  | Ok watchlistId => set_WatchlistId watchlistId
  end.

Definition RatingsGet : M (list ImdbItem) :=
  config ← get_config;
  let path := imdbPathRatingsExport (UserId config) in
  let requestFields :=
    mkRequestFields http.MethodGet imdbPathBase path (imdbPathBase ++ path) in
  response ← doRequest requestFields;
  lift (readImdbRatingsResponse response).

(** [if err := m; err != nil { return fmt.Errorf("msg: %w", err) }] *)
Definition wrap_error {A} (msg : gostring) (m : M A) : M A := fun c =>
  match m c with
  | (Fail err, c') => (Fail (Errorw msg err), c')
  | other => other
  end.

Definition hydrate : M unit :=
  config ← get_config;
  (if bool_decide (UserId config = go "")
      || bool_decide (UserId config = go "scrape")
   then wrap_error (go "failure scraping imdb user id") UserIdScrape
   else mret tt);;
  wrap_error (go "failure scraping imdb watchlist id") WatchlistIdScrape.

(** [NewImdbClient(config, logger)], with the logger's entries and the
    world at the time of the call. *)
Definition NewImdbClient (config : ImdbConfig) (logger : list LogEntry)
    (net : World P) : outcome ImdbClient :=
  match setupCookieJar config with
  | Err err => Fail err
  | Ok jar =>
      match hydrate (mkImdbClient jar config logger net []) with
      | (Ret _, client) => Ret client
      | (Fail err, _) => Fail (Errorw (go "failure hydrating imdb client") err)
      | (Panic, _) => Panic
      end
  end.
End Client.

Arguments mkImdbItem {P} _ _ _ _.
Arguments Id {P} _.
Arguments TitleType {P} _.
Arguments Rating {P} _.
Arguments RatingDate {P} _.
Arguments mkImdbList {P} _ _ _ _ _.
Arguments ListName {P} _.
Arguments ListId {P} _.
Arguments ListItems {P} _.
Arguments TraktListSlug {P} _.
Arguments IsWatchlist {P} _.
Arguments mkImdbClient {P} _ _ _ _ _.
Arguments client {P} _.
Arguments config {P} _.
Arguments logger {P} _.
Arguments net {P} _.
Arguments calls {P} _.

(** ** The vocabulary of the specification *)

(** The descriptors the operations build. *)
Definition listExportFields (listId : gostring) : RequestFields :=
  mkRequestFields http.MethodGet imdbPathBase (imdbPathListExport listId)
    (imdbPathBase ++ imdbPathListExport listId).
Definition listsFields (userId : gostring) : RequestFields :=
  mkRequestFields http.MethodGet imdbPathBase (imdbPathLists userId)
    (imdbPathBase ++ imdbPathLists userId).
Definition ratingsExportFields (userId : gostring) : RequestFields :=
  mkRequestFields http.MethodGet imdbPathBase (imdbPathRatingsExport userId)
    (imdbPathBase ++ imdbPathRatingsExport userId).
Definition profileFields : RequestFields :=
  mkRequestFields http.MethodGet imdbPathBase imdbPathProfile
    (imdbPathBase ++ imdbPathProfile).
Definition watchlistFields : RequestFields :=
  mkRequestFields http.MethodGet imdbPathBase imdbPathWatchlist
    (imdbPathBase ++ imdbPathWatchlist).

Section Vocabulary.
Context (P : Platform).

(** With the client in state [c], the request for [reqFields] is built and
    sent, the site answers [response], and the world is then [w]. *)
Definition responds (c : ImdbClient P) (reqFields : RequestFields)
    (response : http.Response (Body P)) (w : World P) : Prop :=
  ∃ request,
    http_NewRequest P (Method reqFields) (Url reqFields) = Ok request
    ∧ http_Client_Do P (client c) request (net c) = (Ok response, w).

(** The client once that exchange is over. *)
Definition after_request (c : ImdbClient P) (reqFields : RequestFields)
    (w : World P) : ImdbClient P :=
  mkImdbClient (client c) (config c) (logger c) w (calls c ++ [reqFields]).

(** The client after the catalog scan has logged [err]. *)
Definition after_scan_error (c : ImdbClient P) (err : error) : ImdbClient P :=
  mkImdbClient (client c) (config c)
    (logger c ++ [LogError (go "unexpected error while scraping imdb lists") err])
    (net c) (calls c).

(** Section 7 of the specification names kinds of errors; in the code they
    are these values. *)
Definition AuthorizationError (e : error) : Prop :=
  ∃ method url,
    e = Api (mkApiError (clientNameImdb P) method url http.StatusForbidden
               (go "imdb authorization failure - update the imdb cookie values")).

Definition ListNotFoundError (listId : gostring) (e : error) : Prop :=
  ∃ method url,
    e = Api (mkApiError (clientNameImdb P) method url http.StatusNotFound
               (go "list with id " ++ listId ++ go " could not be found")).

Inductive DecodeError : error → Prop :=
| decode_read err :
    DecodeError (Errorw (go "failure reading from imdb response") err)
| decode_rating err :
    DecodeError
      (Errorw (go "failure parsing imdb rating value to integer") err)
| decode_date err :
    DecodeError (Errorw (go "failure parsing imdb rating date") err)
| decode_no_header :
    DecodeError
      (Errorf (go "failure reading header " ++ imdbHeaderKeyContentDisposition
                 ++ go " from imdb response"))
| decode_media_type err :
    DecodeError
      (Errorw (go "failure parsing media type from imdb header "
                 ++ imdbHeaderKeyContentDisposition) err)
| decode_no_params :
    DecodeError
      (Errorf (go "failure parsing media type from imdb header "
                 ++ imdbHeaderKeyContentDisposition)).

(** A ratings record decodes to [item]: the Item has the fields at
    indices 0 and 5, the integer parsed from index 1 and the date parsed
    from index 2. *)
Definition rating_of_record (record : list gostring) (item : ImdbItem P)
    : Prop :=
  record !! 0%nat = Some (Id item)
  ∧ record !! 5%nat = Some (TitleType item)
  ∧ (∃ field rating,
        record !! 1%nat = Some field ∧ strconv_Atoi P field = Ok rating
        ∧ Rating item = Some rating)
  ∧ (∃ field ratingDate,
        record !! 2%nat = Some field
        ∧ time_Parse P (go "2006-01-02") field = Ok ratingDate
        ∧ RatingDate item = Some ratingDate).

(** The rating or the rating date of a record is there and does not
    parse. *)
Definition unparsable_rating (record : list gostring) : Prop :=
  (∃ field err,
      record !! 1%nat = Some field ∧ strconv_Atoi P field = Err err)
  ∨ (∃ field err,
        record !! 2%nat = Some field
        ∧ time_Parse P (go "2006-01-02") field = Err err).

(** A list record decodes to [item]: the fields at indices 1 and 7, no
    rating and no rating date. *)
Definition item_of_record (record : list gostring) (item : ImdbItem P)
    : Prop :=
  record !! 1%nat = Some (Id item)
  ∧ record !! 7%nat = Some (TitleType item)
  ∧ Rating item = None
  ∧ RatingDate item = None.

Definition unrated (item : ImdbItem P) : Prop :=
  Rating item = None ∧ RatingDate item = None.

(** The configured account id asks for discovery. *)
Definition account_id_to_discover (config : ImdbConfig) : Prop :=
  UserId config = go "" ∨ UserId config = go "scrape".

(** The [Content-Disposition] header of [response] is there and parses as a
    media type with the parameters [params], at least one. *)
Definition disposition_parameters (response : http.Response (Body P))
    (params : gmap (list N) (list N)) : Prop :=
  http.Header response imdbHeaderKeyContentDisposition ≠ []
  ∧ (∃ mediatype,
        mime_ParseMediaType P
          (http.Header response imdbHeaderKeyContentDisposition)
        = Ok (mediatype, params))
  ∧ size params ≠ 0%nat.
End Vocabulary.

(** The separator [strings.Join] writes before a field that is not the
    first. *)
Definition hyphen_after (spans : list (list N)) : list N :=
  match spans with [] => [] | _ => go "-" end.

(** Records decoded one after the other by [body], up to the first one that
    does not yield an item: what both [range] loops compute past the header. *)
Fixpoint decode_records {A} (body : list gostring → outcome A)
    (records : list (list gostring)) : outcome (list A) :=
  match records with
  | [] => Ret []
  | record :: rest =>
      match body record with
      | Ret item =>
          match decode_records body rest with
          | Ret items => Ret (item :: items)
          | Fail err => Fail err
          | Panic => Panic
          end
      | Fail err => Fail err
      | Panic => Panic
      end
  end.

(** [stops_at body records o]: the records before some record all yield an
    item, and that record ends as [o]. *)
Definition stops_at {A} (body : list gostring → outcome A)
    (records : list (list gostring)) (o : outcome A) : Prop :=
  ∃ before record rest,
    records = before ++ record :: rest
    ∧ Forall (λ r, ∃ item, body r = Ret item) before
    ∧ body record = o.

(** ** A scripted site

    An instance of [Platform] to run the client on: pages are given already
    parsed, the site answers by URL, and the world counts the requests
    served. Its parsers cover the inputs the examples below use. *)
Module Scripted.
Inductive page :=
| Html (userLists : list (option gostring)) (userid pageId : option gostring)
| Csv (records : list (list gostring))
| Unreadable.

(** year, month, day *)
Definition date : Type := Z * Z * Z.

Definition digit (r : N) : option Z :=
  if (48 <=? r)%N && (r <=? 57)%N then Some (Z.of_N r - 48)%Z else None.

Fixpoint digits (s : gostring) (acc : Z) : option Z :=
  match s with
  | [] => Some acc
  | r :: s' =>
      match digit r with
      | Some d => digits s' (10 * acc + d)%Z
      | None => None
      end
  end.

(** An optional sign, then one decimal digit or more, within 64 bits. *)
Definition Atoi (s : gostring) : result Z :=
  let '(negative, ds) :=
    match s with
    | 45%N :: t => (true, t)
    | 43%N :: t => (false, t)
    | _ => (false, s)
    end in
  match ds with
  | [] => Err (Foreign (go "strconv.Atoi: invalid syntax"))
  | _ =>
      match digits ds 0 with
      | None => Err (Foreign (go "strconv.Atoi: invalid syntax"))
      | Some n =>
          let v := if negative then (- n)%Z else n in
          if ((- 2 ^ 63 <=? v) && (v <? 2 ^ 63))%Z then Ok v
          else Err (Foreign (go "strconv.Atoi: value out of range"))
      end
  end.

Definition daysIn (month year : Z) : Z :=
  if (month =? 2)%Z then
    if ((year mod 4 =? 0) && (negb (year mod 100 =? 0) || (year mod 400 =? 0)))%Z
    then 29%Z else 28%Z
  else if ((month =? 4) || (month =? 6) || (month =? 9) || (month =? 11))%Z
  then 30%Z else 31%Z.

(** The layout [2006-01-02] only. *)
Definition Parse (layout value : gostring) : result date :=
  if bool_decide (layout = go "2006-01-02") then
    match value with
    | [y1; y2; y3; y4; 45%N; m1; m2; 45%N; d1; d2] =>
        match digits [y1; y2; y3; y4] 0, digits [m1; m2] 0, digits [d1; d2] 0 with
        | Some y, Some m, Some d =>
            if ((1 <=? m) && (m <=? 12) && (1 <=? d) && (d <=? daysIn m y))%Z
            then Ok (y, m, d)
            else Err (Foreign (go "parsing time: out of range"))
        | _, _, _ => Err (Foreign (go "parsing time: cannot parse"))
        end
    | _ => Err (Foreign (go "parsing time: cannot parse"))
    end
  else Err (Foreign (go "parsing time: unknown layout")).

(** [s] cut at each [sep]. *)
Fixpoint split_on (sep : N) (s : gostring) : list gostring :=
  match s with
  | [] => [[]]
  | r :: s' =>
      if (r =? sep)%N then [] :: split_on sep s'
      else match split_on sep s' with
           | part :: parts => (r :: part) :: parts
           | [] => [[r]]
           end
  end.

Definition unquote (s : gostring) : gostring :=
  match s with
  | 34%N :: t =>
      match reverse t with
      | 34%N :: u => reverse u
      | _ => s
      end
  | _ => s
  end.

Fixpoint parameters (parts : list gostring)
    : option (gmap (list N) (list N)) :=
  match parts with
  | [] => Some ∅
  | part :: rest =>
      match split_on 61 (strings_TrimSpace part), parameters rest with
      | [key; value], Some params => Some (<[key := unquote value]> params)
      | _, _ => None
      end
  end.

(** A media type, then [; key=value] parameters, quoted or not. *)
Definition ParseMediaType (v : gostring)
    : result (gostring * gmap (list N) (list N)) :=
  match split_on 59 v with
  | mediatype :: parts =>
      match strings_TrimSpace mediatype, parameters parts with
      | [], _ => Err (Foreign (go "mime: no media type"))
      | t, Some params => Ok (t, params)
      | _, None => Err (Foreign (go "mime: invalid media parameter"))
      end
  | [] => Err (Foreign (go "mime: no media type"))
  end.

Definition ReadAll (body : page) : result (list (list gostring)) :=
  match body with
  | Csv records => Ok records
  | Html _ _ _ => Ok []
  | Unreadable => Err (Foreign (go "unexpected EOF"))
  end.

Definition NewDocumentFromReader (body : page)
    : result (list (option gostring)) :=
  match body with
  | Html userLists _ _ => Ok userLists
  | Csv _ => Ok []
  | Unreadable => Err (Foreign (go "unexpected EOF"))
  end.

Definition Find (doc : list (option gostring)) (selector : gostring)
    : list (option gostring) :=
  if bool_decide (selector = go ".user-list") then doc else [].

Definition Attr (selection : option gostring) (name : gostring)
    : option gostring :=
  if bool_decide (name = go "id") then selection else None.

Definition scrape (body : page) (clientName selector attribute : gostring)
    : result gostring :=
  let found :=
    match body with
    | Html _ userid pageId =>
        if bool_decide (selector = go ".user-profile.userId"
                        ∧ attribute = go "data-userid") then userid
        else if bool_decide (selector = go "meta[property='pageId']"
                             ∧ attribute = go "content") then pageId
        else None
    | _ => None
    end in
  match found with
  | Some v => Ok v
  | None => Err (Foreign (go "selection or attribute not found"))
  end.

(** The platform whose site answers a URL with [serve]. *)
Definition platform (serve : gostring → result (http.Response page))
    : Platform :=
  {| Body := page;
     Document := list (option gostring);
     Selection := option gostring;
     Time := date;
     Jar := list http.Cookie;
     URL := gostring;
     World := nat;
     unicode_To_LowerCase := λ r, r;
     strconv_Atoi := Atoi;
     time_Parse := Parse;
     csv_ReadAll := ReadAll;
     mime_ParseMediaType := ParseMediaType;
     goquery_NewDocumentFromReader := NewDocumentFromReader;
     goquery_Find := Find;
     goquery_Attr := Attr;
     url_Parse := λ s, Ok s;
     cookiejar_New := Ok [];
     Jar_SetCookies := λ jar _ cookies, jar ++ cookies;
     http_NewRequest := λ method url, Ok (http.mkRequest method url);
     http_Client_Do := λ _ request w, (serve (http.URL request), S w);
     clientNameImdb := go "imdb";
     scrapeSelectionAttribute := scrape |}.

(** The response to a GET of [url]. *)
Definition answer (url : gostring) (status : Z) (contentDisposition : gostring)
    (body : page) : http.Response page :=
  http.mkResponse status
    (λ key, if bool_decide (key = imdbHeaderKeyContentDisposition)
            then contentDisposition else [])
    body (http.mkRequest http.MethodGet url).

(** A client already constructed, with the ids given. *)
Definition a_client (serve : gostring → result (http.Response page))
    (userId watchlistId : gostring) : ImdbClient (platform serve) :=
  mkImdbClient (P := platform serve) []
    (mkImdbConfig (go "at") (go "ubid") userId watchlistId) [] 0%nat [].

(** *** The pages of one site *)

Definition quoted (s : gostring) : gostring := [34%N] ++ s ++ [34%N].

Definition list_header : list gostring :=
  [go "Position"; go "Const"; go "Created"; go "Modified"; go "Description";
   go "Title"; go "URL"; go "Title Type"].

Definition list_row (const titleType : gostring) : list gostring :=
  [go "1"; const; go "2022-01-01"; go "2022-01-01"; go ""; go "A title";
   go "https://www.imdb.com/title/"; titleType].

Definition ratings_header : list gostring :=
  [go "Const"; go "Your Rating"; go "Date Rated"; go "Title"; go "URL";
   go "Title Type"].

(** The lists of account [ur1]: [ls1] is forbidden, [ls2] is there and
    [ls3] is not. *)
Definition lists_page : http.Response page :=
  answer (Url (listsFields (go "ur1"))) 200 []
    (Html [Some (go "ls1"); Some (go "ls2"); Some (go "ls3")] None None).

(** Account [ur0] has no list. *)
Definition empty_lists_page : http.Response page :=
  answer (Url (listsFields (go "ur0"))) 200 [] (Html [] None None).

Definition forbidden_export : http.Response page :=
  answer (Url (listExportFields (go "ls1"))) 403 [] Unreadable.

Definition watchlist_records : list (list gostring) :=
  [list_header; list_row (go "tt0111161") (go "movie");
   list_row (go "tt0903747") (go "tvSeries")].

Definition watchlist_export : http.Response page :=
  answer (Url (listExportFields (go "ls2"))) 200
    (go "attachment; filename=" ++ quoted (go "My Watchlist.csv"))
    (Csv watchlist_records).

Definition missing_export : http.Response page :=
  answer (Url (listExportFields (go "ls3"))) 404 [] (Html [] None None).

(** An export whose header has a parameter, but no [filename]. *)
Definition unnamed_export : http.Response page :=
  answer (Url (listExportFields (go "ls4"))) 200 (go "attachment; name=x")
    (Csv [list_header; list_row (go "tt0111161") (go "movie")]).

Definition ratings_records : list (list gostring) :=
  [ratings_header;
   [go "tt0111161"; go "9"; go "2022-05-01"; go "The Shawshank Redemption";
    go "https://www.imdb.com/title/tt0111161/"; go "movie"]].

Definition ratings_export : http.Response page :=
  answer (Url (ratingsExportFields (go "ur1"))) 200 [] (Csv ratings_records).

(** A ratings export with a record of two fields, whose rating is not a
    number. *)
Definition short_ratings_records : list (list gostring) :=
  [ratings_header; [go "tt0111161"; go "nine"]].

Definition short_ratings_export : http.Response page :=
  answer (Url (ratingsExportFields (go "ur2"))) 200 []
    (Csv short_ratings_records).

Definition profile_page : http.Response page :=
  answer (Url profileFields) 200 [] (Html [] (Some (go "ur1")) None).

Definition watchlist_page : http.Response page :=
  answer (Url watchlistFields) 200 [] (Html [] None (Some (go "ls2"))).

Definition pages : list (http.Response page) :=
  [lists_page; empty_lists_page; forbidden_export; watchlist_export;
   missing_export; unnamed_export; ratings_export; short_ratings_export;
   profile_page; watchlist_page].

(** The site: the page of that URL, or 404. *)
Definition site (url : gostring) : result (http.Response page) :=
  match List.find
          (λ r, bool_decide (http.URL (http.Request_ r) = url)) pages with
  | Some r => Ok r
  | None => Ok (answer url 404 [] Unreadable)
  end.

(** A client of the site for account [userId]. *)
Definition client_of (userId : gostring) : ImdbClient (platform site) :=
  a_client site userId (go "ls2").

(** What the client is to make of [watchlist_export] and of
    [ratings_export]. *)
Definition my_watchlist : ImdbList (platform site) :=
  mkImdbList (go "My Watchlist") (go "ls2")
    [mkImdbItem (go "tt0111161") (go "movie") None None;
     mkImdbItem (go "tt0903747") (go "tvSeries") None None]
    (go "my-watchlist") false.

Definition my_rating : ImdbItem (platform site) :=
  mkImdbItem (P := platform site) (go "tt0111161") (go "movie") (Some 9%Z)
    (Some (2022, 5, 1)%Z).

(** The configuration of a client that is to discover its ids, and the jar
    built for it. *)
Definition fresh_config : ImdbConfig :=
  mkImdbConfig (go "at") (go "ubid") (go "scrape") (go "ls0").

Definition fresh_jar : list http.Cookie :=
  [http.mkCookie imdbCookieNameAtMain (go "at");
   http.mkCookie imdbCookieNameUbidMain (go "ubid")].
End Scripted.

(** ** Failures of the transport *)

(** The error [doRequest] returns for a status other than 200, 403 and
    404. *)
Definition UnexpectedStatusError (P : Platform) (status : Z) (e : error)
    : Prop :=
  ∃ method url,
    e = Api (mkApiError (clientNameImdb P) method url status
               (go "unexpected status code " ++ fmt_d status)).

(** The error [doRequest] returns when [client.Do] fails with [cause]. *)
Definition SendError (reqFields : RequestFields) (cause : error) : error :=
  Errorw (go "failure sending http request " ++ Method reqFields ++ go " "
            ++ Url reqFields) cause.

(** The error [doRequest] returns when [http.NewRequest] fails with
    [cause]. *)
Definition CreateError (reqFields : RequestFields) (cause : error) : error :=
  Errorw (go "failure creating http request " ++ Method reqFields ++ go " "
            ++ Url reqFields) cause.

(** The client after the catalog scan has met an element without [id]. *)
Definition after_scan_info (P : Platform) (c : ImdbClient P) : ImdbClient P :=
  mkImdbClient (client c) (config c)
    (logger c ++ [LogInfo (go "found no imdb lists")]) (net c) (calls c).

(** Two sites that fail: one answers every request with status 500, the
    other cannot be reached. *)
Module Outage.
Definition down (url : gostring) : result (http.Response Scripted.page) :=
  Ok (Scripted.answer url 500 [] Scripted.Unreadable).

Definition refused : error := Foreign (go "dial tcp: connection refused").

Definition offline (url : gostring) : result (http.Response Scripted.page) :=
  Err refused.

(** A platform on which no request can be built: [Scripted.platform] with
    an [http.NewRequest] that fails. *)
Definition malformed : error := Foreign (go "net/url: invalid control character in URL").

Definition unbuildable (serve : gostring → result (http.Response Scripted.page))
    : Platform :=
  {| Body := Scripted.page;
     Document := list (option gostring);
     Selection := option gostring;
     Time := Scripted.date;
     Jar := list http.Cookie;
     URL := gostring;
     World := nat;
     unicode_To_LowerCase := λ r, r;
     strconv_Atoi := Scripted.Atoi;
     time_Parse := Scripted.Parse;
     csv_ReadAll := Scripted.ReadAll;
     mime_ParseMediaType := Scripted.ParseMediaType;
     goquery_NewDocumentFromReader := Scripted.NewDocumentFromReader;
     goquery_Find := Scripted.Find;
     goquery_Attr := Scripted.Attr;
     url_Parse := λ s, Ok s;
     cookiejar_New := Ok [];
     Jar_SetCookies := λ jar _ cookies, jar ++ cookies;
     http_NewRequest := λ method url, Err malformed;
     http_Client_Do := λ _ request w, (serve (http.URL request), S w);
     clientNameImdb := go "imdb";
     scrapeSelectionAttribute := Scripted.scrape |}.

(** A client on that platform. *)
Definition stuck_client : ImdbClient (unbuildable Scripted.site) :=
  mkImdbClient (P := unbuildable Scripted.site) []
    (mkImdbConfig (go "at") (go "ubid") (go "ur1") (go "ls2")) [] 0%nat [].
End Outage.

(** ** A site with ragged exports

    The pages of account [ur3]: a ratings export and a list export whose
    records do not all have the columns read, and a lists page whose second
    list is not there. *)
Module Ragged.
(** A record of two fields whose rating parses, then a record of six
    fields whose rating does not. *)
Definition ratings_records : list (list gostring) :=
  [Scripted.ratings_header;
   [go "tt0111161"; go "9"];
   [go "tt0903747"; go "x"; go "2022-05-01"; go "Breaking Bad";
    go "https://www.imdb.com/title/tt0903747/"; go "tvSeries"]].

Definition ratings_export : http.Response Scripted.page :=
  Scripted.answer (Url (ratingsExportFields (go "ur3"))) 200 []
    (Scripted.Csv ratings_records).

(** A list export without [Content-Disposition] header, with a record of
    seven fields. *)
Definition headless_records : list (list gostring) :=
  [Scripted.list_header;
   [go "1"; go "tt0111161"; go "2022-01-01"; go "2022-01-01"; go "";
    go "A title"; go "https://www.imdb.com/title/"]].

Definition headless_export : http.Response Scripted.page :=
  Scripted.answer (Url (listExportFields (go "ls5"))) 200 []
    (Scripted.Csv headless_records).

Definition favorites_export : http.Response Scripted.page :=
  Scripted.answer (Url (listExportFields (go "ls6"))) 200
    (go "attachment; filename=" ++ Scripted.quoted (go "Sci-Fi Favorites 2024.csv"))
    (Scripted.Csv [Scripted.list_header;
                   Scripted.list_row (go "tt0083658") (go "movie")]).

(** The lists of [ur3]: [ls2], then [ls3], which is not there, then
    [ls6]. *)
Definition lists_page : http.Response Scripted.page :=
  Scripted.answer (Url (listsFields (go "ur3"))) 200 []
    (Scripted.Html [Some (go "ls2"); Some (go "ls3"); Some (go "ls6")]
       None None).

Definition pages : list (http.Response Scripted.page) :=
  [ratings_export; headless_export; favorites_export; lists_page;
   Scripted.watchlist_export; Scripted.missing_export].

Definition site (url : gostring) : result (http.Response Scripted.page) :=
  match List.find
          (λ r, bool_decide (http.URL (http.Request_ r) = url)) pages with
  | Some r => Ok r
  | None => Ok (Scripted.answer url 404 [] Scripted.Unreadable)
  end.

Definition a_client : ImdbClient (Scripted.platform site) :=
  Scripted.a_client site (go "ur3") (go "ls2").

(** The client when the scan of [lists_page] comes to [ls3]: the lists
    page and the export of [ls2] have been requested. *)
Definition at_missing : ImdbClient (Scripted.platform site) :=
  mkImdbClient (P := Scripted.platform site) []
    (mkImdbConfig (go "at") (go "ubid") (go "ur3") (go "ls2")) [] 2%nat
    [listsFields (go "ur3"); listExportFields (go "ls2")].

Definition watchlist : ImdbList (Scripted.platform site) :=
  mkImdbList (go "My Watchlist") (go "ls2")
    [mkImdbItem (go "tt0111161") (go "movie") None None;
     mkImdbItem (go "tt0903747") (go "tvSeries") None None]
    (go "my-watchlist") false.

Definition favorites : ImdbList (Scripted.platform site) :=
  mkImdbList (go "Sci-Fi Favorites 2024") (go "ls6")
    [mkImdbItem (go "tt0083658") (go "movie") None None]
    (go "sci-fi-favorites-2024") false.

Definition missing : error :=
  Api (mkApiError (go "imdb") (go "GET") (Url (listExportFields (go "ls3")))
         404 (go "list with id ls3 could not be found")).
End Ragged.

(** * Slug normalisation *)

Ltac rune_arith :=
  repeat match goal with
    | H : context [if ?b then _ else _] |- _ => destruct b eqn:?
    | |- context [if ?b then _ else _] => destruct b eqn:?
    end;
  repeat progress
    rewrite ?andb_true_iff, ?orb_true_iff, ?andb_false_iff, ?orb_false_iff,
      ?N.leb_le, ?N.eqb_eq, ?N.leb_gt, ?N.eqb_neq in *;
  try lia.

Lemma slug_rune_not_space r :
  slug_rune r = true → unicode_IsSpace r = false.
Proof.
  unfold slug_rune, unicode_IsSpace. intros H.
  destruct (r <=? 255)%N eqn:E; rune_arith.
Qed.

Section SlugFacts.
Variable lower : N → N.

Lemma ToLower_slug_rune r :
  slug_rune r = true → unicode_ToLower lower r = r.
Proof.
  unfold slug_rune, unicode_ToLower. intros H. rune_arith.
Qed.

Lemma regexp_strip_slug s : Forall (λ r, slug_rune r = true) (regexp_strip s).
Proof.
  induction s as [|r s IH]; simpl; [constructor|].
  destruct (slug_rune r) eqn:E; auto.
Qed.

Lemma regexp_strip_id s :
  Forall (λ r, slug_rune r = true) s → regexp_strip s = s.
Proof.
  induction 1 as [|r s Hr _ IH]; simpl; [done|]. by rewrite Hr, IH.
Qed.

Lemma ToLower_id s :
  Forall (λ r, slug_rune r = true) s → strings_ToLower lower s = s.
Proof.
  induction 1 as [|r s Hr _ IH]; simpl; [done|].
  rewrite ToLower_slug_rune by done. f_equal. apply IH.
Qed.

(** A run of runes without white space stays in the field being read. *)
Lemma FieldsFunc_loop_word s w spans :
  Forall (λ r, unicode_IsSpace r = false) s →
  FieldsFunc_loop unicode_IsSpace s (Some w) spans = spans ++ [w ++ s].
Proof.
  intros Hs. revert w. induction Hs as [|r s Hr _ IH]; intros w; simpl.
  - by rewrite app_nil_r.
  - rewrite Hr, IH. by rewrite <- app_assoc.
Qed.

Lemma Join_Fields_word s :
  Forall (λ r, unicode_IsSpace r = false) s →
  strings_Join (strings_Fields s) (go "-") = s.
Proof.
  unfold strings_Fields. destruct 1 as [|r s Hr Hs]; simpl; [done|].
  rewrite Hr. by rewrite FieldsFunc_loop_word.
Qed.
End SlugFacts.

(** C6. For every string, [buildTraktListName] yields a slug, the only one
    for that string; the slug is made of lowercase letters, digits and
    hyphens only; and the slug of a slug is that slug. This holds whatever
    the case table of package [unicode] does above ASCII. *)
Theorem buildTraktListName_total_slug_idempotent (lower : N → N) (s : list N) :
  (∃ slug, buildTraktListName lower s = slug)
  ∧ Forall (λ r, slug_rune r = true) (buildTraktListName lower s)
  ∧ buildTraktListName lower (buildTraktListName lower s)
    = buildTraktListName lower s.
Proof.
  split; [by eexists|]. split; [apply regexp_strip_slug|].
  pose proof (regexp_strip_slug
    (strings_ToLower lower (strings_Join (strings_Fields s) (go "-")))) as H.
  fold (buildTraktListName lower s) in H.
  generalize dependent (buildTraktListName lower s). intros t Ht.
  unfold buildTraktListName.
  rewrite Join_Fields_word.
  - rewrite ToLower_id by done. by apply regexp_strip_id.
  - eapply Forall_impl; [exact Ht|]. apply slug_rune_not_space.
Qed.

(** ** [strings.Fields] and [strings.Join] against white-space collapsing *)

Lemma Join_snoc spans w sep :
  strings_Join (spans ++ [w]) sep
  = match spans with
    | [] => w
    | _ => strings_Join spans sep ++ sep ++ w
    end.
Proof.
  induction spans as [|a spans IH]; [done|].
  destruct spans as [|b spans]; [done|].
  change (strings_Join ((a :: b :: spans) ++ [w]) sep)
    with (a ++ sep ++ strings_Join ((b :: spans) ++ [w]) sep).
  rewrite IH.
  change (strings_Join (a :: b :: spans) sep)
    with (a ++ sep ++ strings_Join (b :: spans) sep).
  by rewrite <- !app_assoc.
Qed.

Lemma trim_right_cons r s :
  trim_right (r :: s)
  = if unicode_IsSpace r then
      match trim_right s with [] => [] | t => r :: t end
    else r :: trim_right s.
Proof. simpl. destruct (trim_right s), (unicode_IsSpace r); done. Qed.

Lemma Join_FieldsFunc_loop s :
  (∀ w spans,
      strings_Join (FieldsFunc_loop unicode_IsSpace s (Some w) spans) (go "-")
      = strings_Join (spans ++ [w]) (go "-")
        ++ collapse_whitespace false (trim_right s))
  ∧ (∀ spans,
      strings_Join (FieldsFunc_loop unicode_IsSpace s None spans) (go "-")
      = strings_Join spans (go "-")
        ++ match trim_right s with
           | [] => []
           | t => hyphen_after spans ++ collapse_whitespace true t
           end).
Proof.
  induction s as [|r s [IHw IHn]].
  - split; intros; simpl; by rewrite app_nil_r.
  - split; intros.
    + rewrite trim_right_cons. simpl FieldsFunc_loop.
      destruct (unicode_IsSpace r) eqn:Hr.
      * rewrite IHn. f_equal.
        destruct (trim_right s) as [|x t]; [done|].
        simpl. rewrite Hr. by destruct spans.
      * rewrite IHw. simpl. rewrite Hr.
        rewrite !Join_snoc. destruct spans; by rewrite <- ?app_assoc.
    + rewrite trim_right_cons. simpl FieldsFunc_loop.
      destruct (unicode_IsSpace r) eqn:Hr.
      * rewrite IHn. f_equal.
        destruct (trim_right s) as [|x t]; [done|].
        simpl. by rewrite Hr.
      * rewrite IHw. simpl. rewrite Hr.
        rewrite (Join_snoc spans). destruct spans; by rewrite <- ?app_assoc.
Qed.

Lemma collapse_whitespace_trim_left s :
  collapse_whitespace true s = collapse_whitespace false (trim_left s).
Proof.
  induction s as [|r s IH]; [done|]. simpl.
  destruct (unicode_IsSpace r) eqn:Hr; [done|]. simpl. by rewrite Hr.
Qed.

Lemma trim_left_right s :
  trim_left (trim_right s) = trim_right (trim_left s).
Proof.
  induction s as [|r s IH]; [done|].
  rewrite trim_right_cons. simpl trim_left.
  destruct (unicode_IsSpace r) eqn:Hr.
  - rewrite <- IH. destruct (trim_right s); [done|]. simpl. by rewrite Hr.
  - rewrite trim_right_cons, Hr. simpl. by rewrite Hr.
Qed.

Lemma Join_Fields s :
  strings_Join (strings_Fields s) (go "-")
  = collapse_whitespace false (strings_TrimSpace s).
Proof.
  unfold strings_Fields, strings_TrimSpace.
  rewrite (proj2 (Join_FieldsFunc_loop s)). simpl.
  rewrite <- trim_left_right, <- collapse_whitespace_trim_left.
  by destruct (trim_right s).
Qed.

Lemma printable_not_space r :
  (33 ≤ r ≤ 126)%N → unicode_IsSpace r = false.
Proof.
  intros H. unfold unicode_IsSpace. destruct (r <=? 255)%N eqn:E; rune_arith.
Qed.

Section Lowering.
Variable lower : N → N.
Hypothesis lower_space :
  ∀ r, (127 < r)%N → unicode_IsSpace (lower r) = unicode_IsSpace r.

Lemma ToLower_IsSpace r :
  unicode_IsSpace (unicode_ToLower lower r) = unicode_IsSpace r.
Proof.
  unfold unicode_ToLower.
  destruct (r <=? 127)%N eqn:E; [|apply lower_space; rune_arith].
  destruct ((65 <=? r)%N && (r <=? 90)%N) eqn:E'; [|done].
  rewrite !printable_not_space; [done| |]; rune_arith.
Qed.

Lemma ToLower_collapse_whitespace b s :
  strings_ToLower lower (collapse_whitespace b s)
  = collapse_whitespace b (strings_ToLower lower s).
Proof.
  revert b. induction s as [|r s IH]; intros b; [done|].
  simpl. rewrite ToLower_IsSpace.
  destruct (unicode_IsSpace r), b; simpl; by rewrite IH.
Qed.

Lemma ToLower_trim_left s :
  strings_ToLower lower (trim_left s) = trim_left (strings_ToLower lower s).
Proof.
  induction s as [|r s IH]; [done|].
  simpl. rewrite ToLower_IsSpace. by destruct (unicode_IsSpace r).
Qed.

Lemma ToLower_trim_right s :
  strings_ToLower lower (trim_right s) = trim_right (strings_ToLower lower s).
Proof.
  induction s as [|r s IH]; [done|].
  simpl. rewrite <- IH, ToLower_IsSpace.
  destruct (trim_right s), (unicode_IsSpace r); done.
Qed.

Lemma ToLower_TrimSpace s :
  strings_ToLower lower (strings_TrimSpace s)
  = strings_TrimSpace (strings_ToLower lower s).
Proof.
  unfold strings_TrimSpace. by rewrite ToLower_trim_right, ToLower_trim_left.
Qed.

Lemma buildTraktListName_spec_trim s :
  buildTraktListName lower s
  = spec_normalizeSlug lower (strings_TrimSpace s).
Proof.
  unfold buildTraktListName, spec_normalizeSlug.
  by rewrite Join_Fields, ToLower_collapse_whitespace.
Qed.
End Lowering.

(** The slug of the name [" a"] is ["a"]: the leading white space gives no
    hyphen, where lowercasing, collapsing and stripping would give ["-a"]. *)
Lemma slug_of_name_with_leading_space :
  ¬ (∀ (lower : N → N) (s : list N),
        buildTraktListName lower s = spec_normalizeSlug lower s).
Proof.
  intros H. specialize (H (λ r, r) (go " a")). vm_compute in H. discriminate H.
Qed.

(** C5, as the code has it. For every string, [buildTraktListName] is: drop
    the leading and the trailing white space, lowercase, turn every run of
    white space that is left into one hyphen, then strip every rune outside
    [[a-z0-9-]]; and the slug of ["Sci-Fi Favorites 2024"] is
    ["sci-fi-favorites-2024"]. The case table is assumed to map no rune above
    ASCII onto or off white space, as that of package [unicode] does. *)
Theorem buildTraktListName_normalizes (lower : N → N) (s : list N) :
  (∀ r, (127 < r)%N → unicode_IsSpace (lower r) = unicode_IsSpace r) →
  buildTraktListName lower s = spec_normalizeSlug lower (strings_TrimSpace s)
  ∧ buildTraktListName lower (go "Sci-Fi Favorites 2024")
    = go "sci-fi-favorites-2024".
Proof.
  intros H. split; [by apply buildTraktListName_spec_trim|]. reflexivity.
Qed.

Lemma buildTraktListName_normalizes_witness :
  buildTraktListName (λ r, r) (go "  My  LIST ")
  = spec_normalizeSlug (λ r, r) (strings_TrimSpace (go "  My  LIST "))
  ∧ buildTraktListName (λ r, r) (go "Sci-Fi Favorites 2024")
    = go "sci-fi-favorites-2024".
Proof.
  apply (buildTraktListName_normalizes (λ r, r) (go "  My  LIST ")).
  intros r _. reflexivity.
Defined.

(** * The transport *)

Section Transport.
Context (P : Platform).

Lemma doRequest_passes c reqFields response w :
  responds P c reqFields response w →
  http.StatusCode response = http.StatusOK
  ∨ http.StatusCode response = http.StatusNotFound →
  doRequest P reqFields c = (Ret response, after_request P c reqFields w).
Proof.
  intros (request & Hnew & Hdo) Hstatus. unfold doRequest. simpl.
  rewrite Hnew, Hdo. unfold after_request.
  destruct Hstatus as [-> | ->]; reflexivity.
Qed.

Lemma doRequest_forbidden c reqFields response w :
  responds P c reqFields response w →
  http.StatusCode response = http.StatusForbidden →
  ∃ err,
    doRequest P reqFields c = (Fail err, after_request P c reqFields w)
    ∧ AuthorizationError P err.
Proof.
  intros (request & Hnew & Hdo) Hstatus. unfold doRequest. simpl.
  rewrite Hnew, Hdo, Hstatus. simpl.
  eexists. split; [reflexivity|]. by do 2 eexists.
Qed.

(** Whatever the answer, [doRequest] notes the descriptor and leaves the
    configuration and the logger alone. *)
Lemma doRequest_frame c reqFields :
  calls (doRequest P reqFields c).2 = calls c ++ [reqFields]
  ∧ config (doRequest P reqFields c).2 = config c
  ∧ logger (doRequest P reqFields c).2 = logger c
  ∧ client (doRequest P reqFields c).2 = client c.
Proof.
  unfold doRequest. simpl.
  destruct (http_NewRequest P _ _) as [request|err]; [|done].
  destruct (http_Client_Do P _ _ _) as [[response|err] w]; [|done].
  repeat case_match; done.
Qed.
End Transport.

(** * Decoding the exports *)

Section DecodeRecords.
Context {A : Type} (body : list (list N) → outcome A).

Lemma decode_records_Ret records items :
  decode_records body records = Ret items
  ↔ Forall2 (λ record item, body record = Ret item) records items.
Proof.
  revert items. induction records as [|record rest IH]; intros items; simpl.
  - split; [intros [= <-]; constructor | by inversion 1].
  - split.
    + destruct (body record) as [item| |] eqn:E; [|done..].
      destruct (decode_records body rest) as [items'| |]; [|done..].
      intros [= <-]. constructor; [done|]. by apply IH.
    + inversion 1 as [|? item ? items' H1 H2]; subst.
      apply IH in H2. by rewrite H1, H2.
Qed.

Lemma stops_at_Fail records err :
  stops_at body records (Fail err) → decode_records body records = Fail err.
Proof.
  intros (before & record & rest & -> & Hb & Hr).
  induction Hb as [|b before [item Hitem] _ IH]; simpl.
  - by rewrite Hr.
  - by rewrite Hitem, IH.
Qed.

Lemma stops_at_Panic records :
  stops_at body records Panic → decode_records body records = Panic.
Proof.
  intros (before & record & rest & -> & Hb & Hr).
  induction Hb as [|b before [item Hitem] _ IH]; simpl.
  - by rewrite Hr.
  - by rewrite Hitem, IH.
Qed.

Lemma stops_at_cons record records item o :
  body record = Ret item →
  stops_at body records o → stops_at body (record :: records) o.
Proof.
  intros Hitem (before & r & rest & -> & Hb & Hr).
  exists (record :: before), r, rest. split; [done|].
  split; [|done]. constructor; eauto.
Qed.

Lemma decode_records_Fail records err :
  decode_records body records = Fail err ↔ stops_at body records (Fail err).
Proof.
  split; [|apply stops_at_Fail].
  induction records as [|record rest IH]; simpl; [done|].
  destruct (body record) as [item|err'|] eqn:E; [| |done].
  - destruct (decode_records body rest) as [|err'|]; [done| |done].
    intros [= ->]. eapply stops_at_cons; eauto.
  - intros [= ->]. by exists [], record, rest.
Qed.

Lemma decode_records_Panic records :
  decode_records body records = Panic ↔ stops_at body records Panic.
Proof.
  split; [|apply stops_at_Panic].
  induction records as [|record rest IH]; simpl; [done|].
  destruct (body record) as [item|err'|] eqn:E; [|done|].
  - destruct (decode_records body rest) as [|err'|]; [done..|].
    intros _. eapply stops_at_cons; eauto.
  - intros _. by exists [], record, rest.
Qed.
End DecodeRecords.

Section Decoding.
Context (P : Platform).

Lemma listItems_range_data n csvData listItems :
  listItems_range P (S n) csvData listItems
  = match decode_records (listItems_record P) csvData with
    | Ret items => Ret (listItems ++ items)
    | Fail err => Fail err
    | Panic => Panic
    end.
Proof.
  revert n listItems. induction csvData as [|record rest IH]; intros; simpl.
  - by rewrite app_nil_r.
  - destruct (listItems_record P record) as [item|err|]; [|done..].
    rewrite IH. destruct (decode_records _ rest); [|done..].
    by rewrite <- app_assoc.
Qed.

Lemma listItems_range_tail csvData :
  listItems_range P 0 csvData []
  = decode_records (listItems_record P) (tail csvData).
Proof.
  destruct csvData as [|header rest]; [done|]. simpl.
  rewrite listItems_range_data. by destruct (decode_records _ rest).
Qed.

Lemma ratings_range_data n csvData ratings :
  ratings_range P (S n) csvData ratings
  = match decode_records (ratings_record P) csvData with
    | Ret items => Ret (ratings ++ items)
    | Fail err => Fail err
    | Panic => Panic
    end.
Proof.
  revert n ratings. induction csvData as [|record rest IH]; intros; simpl.
  - by rewrite app_nil_r.
  - destruct (ratings_record P record) as [item|err|]; [|done..].
    rewrite IH. destruct (decode_records _ rest); [|done..].
    by rewrite <- app_assoc.
Qed.

Lemma ratings_range_tail csvData :
  ratings_range P 0 csvData []
  = decode_records (ratings_record P) (tail csvData).
Proof.
  destruct csvData as [|header rest]; [done|]. simpl.
  rewrite ratings_range_data. by destruct (decode_records _ rest).
Qed.

Lemma listItems_record_Ret record item :
  listItems_record P record = Ret item ↔ item_of_record P record item.
Proof.
  unfold listItems_record, item_of_record. split.
  - destruct (record !! 1%nat), (record !! 7%nat); intros [= <-]; done.
  - destruct item as [id ty r d]; simpl. by intros (-> & -> & -> & ->).
Qed.

Lemma listItems_record_Panic record :
  listItems_record P record = Panic ↔ length record < 8.
Proof.
  unfold listItems_record. split.
  - destruct (record !! 7%nat) eqn:E7.
    + destruct (record !! 1%nat) eqn:E1; [done|].
      apply lookup_lt_Some in E7. apply lookup_ge_None in E1. lia.
    + intros _. apply lookup_ge_None in E7. lia.
  - intros H. rewrite (proj2 (lookup_ge_None record 7)) by lia.
    by destruct (record !! 1%nat).
Qed.

Lemma listItems_record_not_Fail record err :
  listItems_record P record ≠ Fail err.
Proof. unfold listItems_record. by repeat case_match. Qed.

Lemma listItems_record_long record :
  8 ≤ length record → ∃ item, listItems_record P record = Ret item.
Proof.
  intros H. destruct (listItems_record P record) as [item|err|] eqn:E; eauto.
  - by apply listItems_record_not_Fail in E.
  - apply listItems_record_Panic in E. lia.
Qed.

Lemma ratings_record_Ret record item :
  ratings_record P record = Ret item ↔ rating_of_record P record item.
Proof.
  unfold ratings_record, rating_of_record. split.
  - destruct (record !! 1%nat) as [f1|]; [|done].
    destruct (strconv_Atoi P f1) as [rating|] eqn:E1; [|done].
    destruct (record !! 2%nat) as [f2|]; [|done].
    destruct (time_Parse P _ f2) as [ratingDate|] eqn:E2; [|done].
    destruct (record !! 0%nat), (record !! 5%nat); intros [= <-]; simpl.
    all: naive_solver.
  - destruct item as [id ty r d]; simpl.
    intros (-> & -> & (f1 & rating & -> & -> & ->) & (f2 & ratingDate & -> & -> & ->)).
    done.
Qed.

Lemma ratings_record_unparsable record :
  unparsable_rating P record → ∀ item, ratings_record P record ≠ Ret item.
Proof.
  intros Hbad item Hitem. apply ratings_record_Ret in Hitem.
  destruct Hitem as (_ & _ & (f1 & r & H1 & Hr & _) & (f2 & d & H2 & Hd & _)).
  destruct Hbad as [(f & e & Hf & He) | (f & e & Hf & He)]; congruence.
Qed.

Lemma ratings_record_Fail record err :
  ratings_record P record = Fail err →
  DecodeError err ∧ unparsable_rating P record.
Proof.
  unfold ratings_record, unparsable_rating.
  destruct (record !! 1%nat) as [f1|]; [|done].
  destruct (strconv_Atoi P f1) as [rating|e1] eqn:E1.
  - destruct (record !! 2%nat) as [f2|]; [|done].
    destruct (time_Parse P _ f2) as [ratingDate|e2] eqn:E2.
    + by destruct (record !! 0%nat), (record !! 5%nat).
    + intros [= <-]. split; [constructor|]. right. eauto.
  - intros [= <-]. split; [constructor|]. left. eauto.
Qed.

(** A record with the six fields read either decodes, or its rating or
    rating date does not parse. *)
Lemma ratings_record_long record :
  6 ≤ length record →
  (∃ item, ratings_record P record = Ret item)
  ∨ (∃ err, ratings_record P record = Fail err).
Proof.
  intros H. unfold ratings_record.
  destruct (lookup_lt_is_Some_2 record 0) as [f0 ->]; [lia|].
  destruct (lookup_lt_is_Some_2 record 1) as [f1 ->]; [lia|].
  destruct (lookup_lt_is_Some_2 record 2) as [f2 ->]; [lia|].
  destruct (lookup_lt_is_Some_2 record 5) as [f5 ->]; [lia|].
  destruct (strconv_Atoi P f1); [|eauto].
  destruct (time_Parse P _ f2); eauto.
Qed.

Lemma ratings_record_short record item :
  ratings_record P record = Ret item → 6 ≤ length record.
Proof.
  intros H. apply ratings_record_Ret in H. destruct H as (_ & H5 & _).
  apply lookup_lt_Some in H5. lia.
Qed.

(** When [ratings_record] panics: an index is out of range before any
    parse has failed. *)
Lemma ratings_record_Panic record :
  ratings_record P record = Panic
  ↔ length record < 2
    ∨ (∃ field1 rating,
          record !! 1%nat = Some field1 ∧ strconv_Atoi P field1 = Ok rating
          ∧ (length record < 3
             ∨ ∃ field2 ratingDate,
                 record !! 2%nat = Some field2
                 ∧ time_Parse P (go "2006-01-02") field2 = Ok ratingDate
                 ∧ length record < 6)).
Proof.
  unfold ratings_record. split.
  - destruct (record !! 1%nat) as [f1|] eqn:E1;
      [|intros _; left; apply lookup_ge_None in E1; lia].
    destruct (strconv_Atoi P f1) as [rating|] eqn:Ea; [|done].
    destruct (record !! 2%nat) as [f2|] eqn:E2;
      [|intros _; right; exists f1, rating; split_and!; [done..|];
        left; apply lookup_ge_None in E2; lia].
    destruct (time_Parse P _ f2) as [ratingDate|] eqn:Ep; [|done].
    destruct (record !! 5%nat) eqn:E5.
    + destruct (record !! 0%nat) eqn:E0; [done|].
      apply lookup_ge_None in E0. apply lookup_lt_Some in E5. lia.
    + intros _. right. exists f1, rating. split_and!; [done..|].
      right. exists f2, ratingDate. split_and!; [done..|].
      apply lookup_ge_None in E5. lia.
  - intros [H | (f1 & rating & -> & -> & [H | (f2 & d & -> & -> & H)])].
    + by rewrite (proj2 (lookup_ge_None record 1)) by lia.
    + by rewrite (proj2 (lookup_ge_None record 2)) by lia.
    + rewrite (proj2 (lookup_ge_None record 5)) by lia.
      by destruct (record !! 0%nat).
Qed.
End Decoding.

(** * The operations *)

Ltac run_M :=
  unfold mbind, M_bind, mret, M_ret, fail, lift, get_config, wrap_error,
    set_UserId, set_WatchlistId, logger_Info, logger_Error.

Section Operations.
Context (P : Platform).

Lemma readImdbListResponse_Ret res listId list :
readImdbListResponse P res listId = Ret list
↔ ∃ csvData params,
    csv_ReadAll P (http.Body_ res) = Ok csvData
    ∧ decode_records (listItems_record P) (tail csvData) = Ret (ListItems list)
    ∧ disposition_parameters P res params
    ∧ ListName list
      = strings_Split_head (default [] (params !! go "filename")) 46
    ∧ ListId list = listId
    ∧ TraktListSlug list
      = buildTraktListName (unicode_To_LowerCase P) (ListName list)
    ∧ IsWatchlist list = false.
Proof.
unfold readImdbListResponse, disposition_parameters. split.
- destruct (csv_ReadAll P _) as [csvData|]; [|done].
  rewrite listItems_range_tail.
  destruct (decode_records _ _) as [items| |] eqn:Ed; [|done..].
  case_bool_decide as Hheader; [done|].
  destruct (mime_ParseMediaType P _) as [[mediatype params]|]; [|done].
  case_bool_decide as Hsize; [done|].
  intros [= <-]. exists csvData, params. simpl. split_and!; eauto.
- intros (csvData & params & -> & Hitems & (Hheader & [mt ->] & Hsize)
          & Hname & Hid & Hslug & Hwl).
  rewrite listItems_range_tail, Hitems.
  rewrite !bool_decide_eq_false_2 by done.
  destruct list; simpl in *. by subst.
Qed.

(** A response whose header does not give parameters yields no list: the
    call panics on a short record or fails to decode. *)
Lemma readImdbListResponse_no_parameters res listId :
(¬ ∃ params, disposition_parameters P res params) →
match readImdbListResponse P res listId with
| Ret _ => False
| Fail err => DecodeError err
| Panic =>
    ∃ csvData,
      csv_ReadAll P (http.Body_ res) = Ok csvData
      ∧ decode_records (listItems_record P) (tail csvData) = Panic
end.
Proof.
intros Hno. destruct (readImdbListResponse P res listId) as [list|err|] eqn:E.
- apply readImdbListResponse_Ret in E.
  destruct E as (? & params & _ & _ & ? & _). eauto.
- revert E. unfold readImdbListResponse.
  destruct (csv_ReadAll P _) as [csvData|]; [|intros [= <-]; constructor].
  rewrite listItems_range_tail.
  destruct (decode_records _ _) as [items|err'|] eqn:Ed; [| |done].
  + case_bool_decide; [intros [= <-]; constructor|].
    destruct (mime_ParseMediaType P _) as [[mediatype params]|];
      [|intros [= <-]; constructor].
    case_bool_decide; [intros [= <-]; constructor|done].
  + apply decode_records_Fail in Ed.
    destruct Ed as (_ & record & _ & _ & _ & Hr).
    by apply listItems_record_not_Fail in Hr.
- revert E. unfold readImdbListResponse.
  destruct (csv_ReadAll P _) as [csvData|]; [|done].
  rewrite listItems_range_tail.
  destruct (decode_records _ _) as [items|err'|] eqn:Ed; [|done|eauto].
  case_bool_decide; [done|].
  destruct (mime_ParseMediaType P _) as [[mediatype params]|]; [|done].
  by case_bool_decide.
Qed.

Lemma ListGet_eq listId c :
ListGet P listId c
= match doRequest P (listExportFields listId) c with
  | (Ret response, c') =>
      if (http.StatusCode response =? http.StatusNotFound)%Z then
        (Fail (Api (mkApiError (clientNameImdb P)
                      (http.Method (http.Request_ response))
                      (http.URL (http.Request_ response))
                      (http.StatusCode response)
                      (go "list with id " ++ listId
                         ++ go " could not be found"))), c')
      else (readImdbListResponse P response listId, c')
  | (Fail err, c') => (Fail err, c')
  | (Panic, c') => (Panic, c')
  end.
Proof.
unfold ListGet. run_M. fold (listExportFields listId).
destruct (doRequest P _ c) as [[response| |] c']; [|done..].
by case_match.
Qed.

Lemma ListGet_frame listId c :
calls (ListGet P listId c).2 = calls c ++ [listExportFields listId]
∧ config (ListGet P listId c).2 = config c
∧ logger (ListGet P listId c).2 = logger c
∧ client (ListGet P listId c).2 = client c.
Proof.
rewrite ListGet_eq.
pose proof (doRequest_frame P c (listExportFields listId)) as H.
destruct (doRequest P _ c) as [[response| |] c']; [|done..].
by case_match.
Qed.

Lemma ListGet_Ret listId c list c' :
ListGet P listId c = (Ret list, c') →
∃ response,
  doRequest P (listExportFields listId) c = (Ret response, c')
  ∧ http.StatusCode response ≠ http.StatusNotFound
  ∧ readImdbListResponse P response listId = Ret list.
Proof.
rewrite ListGet_eq.
destruct (doRequest P _ c) as [[response| |] c'']; [|done..].
destruct (Z.eqb_spec (http.StatusCode response) http.StatusNotFound);
  [done|].
intros [= H <-]. eauto.
Qed.

Lemma ListGet_answered listId c response w :
responds P c (listExportFields listId) response w →
http.StatusCode response = http.StatusOK →
ListGet P listId c
= (readImdbListResponse P response listId,
   after_request P c (listExportFields listId) w).
Proof.
intros Hr Hs. rewrite ListGet_eq.
rewrite (doRequest_passes P c _ response w) by auto.
by rewrite Hs.
Qed.

Lemma ListGet_not_found listId c response w :
responds P c (listExportFields listId) response w →
http.StatusCode response = http.StatusNotFound →
∃ err,
  ListGet P listId c
  = (Fail err, after_request P c (listExportFields listId) w)
  ∧ ListNotFoundError P listId err.
Proof.
intros Hr Hs. rewrite ListGet_eq.
rewrite (doRequest_passes P c _ response w) by auto.
rewrite Hs. simpl. eexists. split; [done|]. by do 2 eexists.
Qed.

Lemma ListGet_forbidden listId c response w :
responds P c (listExportFields listId) response w →
http.StatusCode response = http.StatusForbidden →
∃ err,
  ListGet P listId c
  = (Fail err, after_request P c (listExportFields listId) w)
  ∧ AuthorizationError P err.
Proof.
intros Hr Hs. rewrite ListGet_eq.
destruct (doRequest_forbidden P c _ response w Hr Hs) as (err & -> & Herr).
eauto.
Qed.

Lemma ListGet_unrated listId c list c' :
ListGet P listId c = (Ret list, c') →
ListId list = listId ∧ Forall (unrated P) (ListItems list).
Proof.
intros H. apply ListGet_Ret in H. destruct H as (response & _ & _ & H).
apply readImdbListResponse_Ret in H.
destruct H as (csvData & params & _ & Hitems & _ & _ & Hid & _).
split; [done|]. apply decode_records_Ret in Hitems.
induction Hitems as [|record item ? ? Hitem _ IH]; constructor; [|done].
apply listItems_record_Ret in Hitem. by destruct Hitem as (_ & _ & ? & ?).
Qed.
End Operations.

Section Scan.
Context (P : Platform).

Lemma ListsGetAll_each_skip listId rest lists c err c' :
ListGet P listId c = (Fail err, c') →
ListsGetAll_each P (Some listId :: rest) lists c
= ListsGetAll_each P rest lists (after_scan_error P c' err).
Proof. intros H. simpl. rewrite H. reflexivity. Qed.

Lemma ListsGetAll_each_keep listId rest lists c list c' :
ListGet P listId c = (Ret list, c') →
ListsGetAll_each P (Some listId :: rest) lists c
= ListsGetAll_each P rest
    (lists ++ [mkImdbList (ListName list) (ListId list) (ListItems list)
                 (buildTraktListName (unicode_To_LowerCase P) (ListName list))
                 (IsWatchlist list)]) c'.
Proof. intros H. simpl. by rewrite H. Qed.

(** The scan only appends; the ids of the lists it appends are among the
    ids it was given, in the same order; and their items are unrated. *)
Lemma ListsGetAll_each_Ret attrs lists c out c' :
ListsGetAll_each P attrs lists c = (Ret out, c') →
∃ new,
  out = lists ++ new
  ∧ map ListId new `sublist_of` omap id attrs
  ∧ Forall (λ list, Forall (unrated P) (ListItems list)) new.
Proof.
revert lists c. induction attrs as [|[listId|] rest IH]; intros lists c.
- intros [= <- <-]. exists []. rewrite app_nil_r. split_and!; by constructor.
- simpl. destruct (ListGet P listId c) as [[list|err|] c1] eqn:E; [| |done].
  + intros H. apply IH in H. destruct H as (new & -> & Hsub & Hun).
    apply ListGet_unrated in E. destruct E as [Hid Hitems].
    eexists (_ :: new). rewrite <- app_assoc. split; [done|].
    split; [|by constructor]. simpl. rewrite Hid. by constructor.
  + intros H. apply IH in H. destruct H as (new & -> & Hsub & Hun).
    exists new. split_and!; [done| |done]. by constructor.
- simpl. intros H. apply IH in H. destruct H as (new & -> & Hsub & Hun).
  by exists new.
Qed.

Lemma ListsGetAll_eq c :
ListsGetAll P c
= match doRequest P (listsFields (UserId (config c))) c with
  | (Ret response, c') =>
      match goquery_NewDocumentFromReader P (http.Body_ response) with
      | Err err =>
          (Fail (Errorw
                   (go "failure creating goquery document from imdb response")
                   err), c')
      | Ok doc =>
          ListsGetAll_each P
            (map (λ selection, goquery_Attr P selection (go "id"))
               (goquery_Find P doc (go ".user-list"))) [] c'
      end
  | (Fail err, c') => (Fail err, c')
  | (Panic, c') => (Panic, c')
  end.
Proof.
unfold ListsGetAll. run_M. fold (listsFields (UserId (config c))).
destruct (doRequest P _ c) as [[response| |] c']; [|done..].
by case_match.
Qed.

Lemma WatchlistGet_eq c :
WatchlistGet P c
= match ListGet P (WatchlistId (config c)) c with
  | (Ret list, c') =>
      (Ret (mkImdbList (ListName list) (ListId list) (ListItems list)
              (TraktListSlug list) true), c')
  | (Fail err, c') => (Fail err, c')
  | (Panic, c') => (Panic, c')
  end.
Proof.
unfold WatchlistGet. run_M.
by destruct (ListGet P _ c) as [[list| |] c'].
Qed.

Lemma RatingsGet_eq c :
RatingsGet P c
= match doRequest P (ratingsExportFields (UserId (config c))) c with
  | (Ret response, c') => (readImdbRatingsResponse P response, c')
  | (Fail err, c') => (Fail err, c')
  | (Panic, c') => (Panic, c')
  end.
Proof.
unfold RatingsGet. run_M. fold (ratingsExportFields (UserId (config c))).
by destruct (doRequest P _ c) as [[response| |] c'].
Qed.

Lemma UserIdScrape_eq c :
UserIdScrape P c
= match doRequest P profileFields c with
  | (Ret response, c') =>
      match scrapeSelectionAttribute P (http.Body_ response) (clientNameImdb P)
              (go ".user-profile.userId") (go "data-userid") with
      | Err err => (Fail (Errorw (go "imdb user id not found") err), c')
      | Ok userId => set_UserId P userId c'
      end
  | (Fail err, c') => (Fail err, c')
  | (Panic, c') => (Panic, c')
  end.
Proof.
unfold UserIdScrape. run_M. fold profileFields.
destruct (doRequest P _ c) as [[response| |] c']; [|done..].
by case_match.
Qed.

Lemma WatchlistIdScrape_eq c :
WatchlistIdScrape P c
= match doRequest P watchlistFields c with
  | (Ret response, c') =>
      match scrapeSelectionAttribute P (http.Body_ response) (clientNameImdb P)
              (go "meta[property='pageId']") (go "content") with
      | Err err => (Fail (Errorw (go "imdb watchlist id not found") err), c')
      | Ok watchlistId => set_WatchlistId P watchlistId c'
      end
  | (Fail err, c') => (Fail err, c')
  | (Panic, c') => (Panic, c')
  end.
Proof.
unfold WatchlistIdScrape. run_M. fold watchlistFields.
destruct (doRequest P _ c) as [[response| |] c']; [|done..].
by case_match.
Qed.

Lemma UserIdScrape_frame c :
calls (UserIdScrape P c).2 = calls c ++ [profileFields]
∧ WatchlistId (config (UserIdScrape P c).2) = WatchlistId (config c)
∧ client (UserIdScrape P c).2 = client c.
Proof.
rewrite UserIdScrape_eq.
pose proof (doRequest_frame P c profileFields) as (H1 & H2 & _ & H4).
destruct (doRequest P _ c) as [[response| |] c']; simpl in *;
  [|by rewrite H2..].
case_match; simpl; by rewrite H2.
Qed.

Lemma WatchlistIdScrape_frame c :
calls (WatchlistIdScrape P c).2 = calls c ++ [watchlistFields]
∧ UserId (config (WatchlistIdScrape P c).2) = UserId (config c)
∧ client (WatchlistIdScrape P c).2 = client c.
Proof.
rewrite WatchlistIdScrape_eq.
pose proof (doRequest_frame P c watchlistFields) as (H1 & H2 & _ & H4).
destruct (doRequest P _ c) as [[response| |] c']; simpl in *;
  [|by rewrite H2..].
case_match; simpl; by rewrite H2.
Qed.
End Scan.

Section Bootstrap.
Context (P : Platform).

Lemma account_id_to_discover_decide config :
bool_decide (UserId config = go "") || bool_decide (UserId config = go "scrape")
= true ↔ account_id_to_discover config.
Proof.
unfold account_id_to_discover.
rewrite orb_true_iff, !bool_decide_eq_true. done.
Qed.

Lemma hydrate_known c :
¬ account_id_to_discover (config c) →
hydrate P c
= match WatchlistIdScrape P c with
  | (Fail err, c') =>
      (Fail (Errorw (go "failure scraping imdb watchlist id") err), c')
  | other => other
  end.
Proof.
intros H. unfold hydrate. run_M.
destruct (bool_decide _ || bool_decide _) eqn:E; [|done].
by apply account_id_to_discover_decide in E.
Qed.

Lemma hydrate_discover c :
account_id_to_discover (config c) →
hydrate P c
= match UserIdScrape P c with
  | (Ret _, c1) =>
      match WatchlistIdScrape P c1 with
      | (Fail err, c') =>
          (Fail (Errorw (go "failure scraping imdb watchlist id") err), c')
      | other => other
      end
  | (Fail err, c1) =>
      (Fail (Errorw (go "failure scraping imdb user id") err), c1)
  | (Panic, c1) => (Panic, c1)
  end.
Proof.
intros H. unfold hydrate. run_M.
apply account_id_to_discover_decide in H. rewrite H.
by destruct (UserIdScrape P c) as [[[]| |] c1].
Qed.

Lemma WatchlistIdScrape_Ret c c' :
WatchlistIdScrape P c = (Ret tt, c') →
∃ response c1,
  doRequest P watchlistFields c = (Ret response, c1)
  ∧ scrapeSelectionAttribute P (http.Body_ response) (clientNameImdb P)
      (go "meta[property='pageId']") (go "content")
    = Ok (WatchlistId (config c')).
Proof.
rewrite WatchlistIdScrape_eq.
destruct (doRequest P _ c) as [[response| |] c1]; [|done..].
destruct (scrapeSelectionAttribute P _ _ _ _) as [watchlistId|] eqn:E;
  [|done].
intros [= <-]. eauto.
Qed.

Lemma doRequest_no_panic reqFields c : (doRequest P reqFields c).1 ≠ Panic.
Proof.
unfold doRequest. simpl.
destruct (http_NewRequest P _ _) as [request|err]; [|done].
destruct (http_Client_Do P _ _ _) as [[response|err] w]; [|done].
repeat case_match; done.
Qed.

Lemma UserIdScrape_no_panic c : (UserIdScrape P c).1 ≠ Panic.
Proof.
rewrite UserIdScrape_eq. pose proof (doRequest_no_panic profileFields c) as H.
destruct (doRequest P _ c) as [[response| |] c']; [|done..].
by case_match.
Qed.

Lemma profile_is_not_watchlist : profileFields ≠ watchlistFields.
Proof. by intros [=]. Qed.
End Bootstrap.

(** C9. On initialization the profile page is requested, that is the account
    id is scraped, exactly when the configured account id is empty or
    "scrape"; otherwise the configured account id is still there after
    hydration. The watchlist page is requested whatever watchlist id was
    configured (unless the account scrape has already failed), and after a
    successful hydration the watchlist id is the scraped one. A failure of
    either scrape fails [hydrate], and a failure of [hydrate] fails
    [NewImdbClient]. *)
Theorem NewImdbClient_bootstrap_policy (P : Platform) (config0 : ImdbConfig)
    (logger0 : list LogEntry) (net0 : World P) (jar : Jar P) :
setupCookieJar P config0 = Ok jar →
let c := mkImdbClient jar config0 logger0 net0 [] in
(profileFields ∈ calls (hydrate P c).2 ↔ account_id_to_discover config0)
∧ (watchlistFields ∈ calls (hydrate P c).2
   ∨ account_id_to_discover config0
     ∧ ∃ err, (UserIdScrape P c).1 = Fail err)
∧ (¬ account_id_to_discover config0 →
   UserId (config (hydrate P c).2) = UserId config0)
∧ (∀ c', hydrate P c = (Ret tt, c') →
     ∃ c1 response c2,
       WatchlistId (config c1) = WatchlistId config0
       ∧ doRequest P watchlistFields c1 = (Ret response, c2)
       ∧ scrapeSelectionAttribute P (http.Body_ response) (clientNameImdb P)
           (go "meta[property='pageId']") (go "content")
         = Ok (WatchlistId (config c'))
       ∧ NewImdbClient P config0 logger0 net0 = Ret c')
∧ (account_id_to_discover config0 →
   ∀ err, (UserIdScrape P c).1 = Fail err →
     NewImdbClient P config0 logger0 net0
     = Fail (Errorw (go "failure hydrating imdb client")
               (Errorw (go "failure scraping imdb user id") err)))
∧ (∀ c1 err,
     (¬ account_id_to_discover config0 ∧ c1 = c)
     ∨ (account_id_to_discover config0 ∧ UserIdScrape P c = (Ret tt, c1)) →
     (WatchlistIdScrape P c1).1 = Fail err →
     NewImdbClient P config0 logger0 net0
     = Fail (Errorw (go "failure hydrating imdb client")
               (Errorw (go "failure scraping imdb watchlist id") err))).
Proof.
intros Hjar c. unfold NewImdbClient. rewrite Hjar. fold c.
destruct (decide (account_id_to_discover config0)) as [Hd|Hk].
- (* the account id is to be discovered *)
  rewrite (hydrate_discover P c Hd).
  pose proof (UserIdScrape_frame P c) as (Hc & Hw & _).
  destruct (UserIdScrape P c) as [[[]|err|] c1] eqn:Eu; simpl in *.
  + pose proof (WatchlistIdScrape_frame P c1) as (Hc1 & _).
    rewrite Hc in Hc1.
    destruct (WatchlistIdScrape P c1) as [[[]|err|] c2] eqn:Ew; simpl in *.
    all: rewrite ?Hc1; split_and!.
    all: try (left; set_solver).
    all: try (split; [done|set_solver]).
    all: try done.
    * intros c' [= <-]. apply WatchlistIdScrape_Ret in Ew.
      destruct Ew as (response & c3 & ? & ?). exists c1, response, c3. eauto.
    * intros c3 err [[? _]|[_ [= <-]]] Hfail; [done|]. rewrite Ew in Hfail. done.
    * intros c3 err' [[? _]|[_ [= <-]]] Hfail; [done|]. rewrite Ew in Hfail.
      simpl in Hfail. by injection Hfail as ->.
    * intros c3 err' [[? _]|[_ [= <-]]] Hfail; [done|]. rewrite Ew in Hfail. done.
  + rewrite Hc. split_and!; try done.
    * split; [done|set_solver].
    * right. eauto.
    * by intros _ err' [= ->].
    * by intros c3 err' [[? _]|[_ [=]]].
  + pose proof (UserIdScrape_no_panic P c) as Hn. by rewrite Eu in Hn.
- (* the account id is configured *)
  rewrite (hydrate_known P c Hk).
  pose proof (WatchlistIdScrape_frame P c) as (Hc & Hu & _).
  destruct (WatchlistIdScrape P c) as [[[]|err|] c2] eqn:Ew; simpl in *.
  all: rewrite Hc; split_and!; try done.
  all: try (left; set_solver).
  all: try (split; [|done]; intros [H|H]%elem_of_cons;
            [by apply profile_is_not_watchlist in H | by apply elem_of_nil in H]).
  + intros c' [= <-]. apply WatchlistIdScrape_Ret in Ew.
    destruct Ew as (response & c3 & ? & ?). exists c, response, c3. eauto.
  + intros c1 err [[_ ->]|[? _]] Hfail; [|done]. rewrite Ew in Hfail. done.
  + intros c1 err' [[_ ->]|[? _]] Hfail; [|done]. rewrite Ew in Hfail.
    simpl in Hfail. by injection Hfail as ->.
  + intros c1 err' [[_ ->]|[? _]] Hfail; [|done]. rewrite Ew in Hfail. done.
Qed.

(** C1, as the code has it. When the request an operation makes is answered
    403, each of [ListGet], [WatchlistGet], [ListsGetAll] (for its request of
    the lists page), [RatingsGet], [UserIdScrape] and [WatchlistIdScrape]
    fails with the authorization error and returns no list and no item. In
    the catalog scan, a 403 on the export of one discovered list does not
    fail the scan: the error is logged, the list is left out, and the scan
    goes on with the ids that remain. *)
Theorem forbidden_fails_operation (P : Platform) (c : ImdbClient P)
    (reqFields : RequestFields) (response : http.Response (Body P))
    (w : World P) :
responds P c reqFields response w →
http.StatusCode response = http.StatusForbidden →
(∀ listId, reqFields = listExportFields listId →
   ∃ err, ListGet P listId c = (Fail err, after_request P c reqFields w)
          ∧ AuthorizationError P err)
∧ (reqFields = listExportFields (WatchlistId (config c)) →
   ∃ err, WatchlistGet P c = (Fail err, after_request P c reqFields w)
          ∧ AuthorizationError P err)
∧ (reqFields = listsFields (UserId (config c)) →
   ∃ err, ListsGetAll P c = (Fail err, after_request P c reqFields w)
          ∧ AuthorizationError P err)
∧ (reqFields = ratingsExportFields (UserId (config c)) →
   ∃ err, RatingsGet P c = (Fail err, after_request P c reqFields w)
          ∧ AuthorizationError P err)
∧ (reqFields = profileFields →
   ∃ err, UserIdScrape P c = (Fail err, after_request P c reqFields w)
          ∧ AuthorizationError P err)
∧ (reqFields = watchlistFields →
   ∃ err, WatchlistIdScrape P c = (Fail err, after_request P c reqFields w)
          ∧ AuthorizationError P err)
∧ (∀ listId rest lists, reqFields = listExportFields listId →
   ∃ err,
     AuthorizationError P err
     ∧ ListsGetAll_each P (Some listId :: rest) lists c
       = ListsGetAll_each P rest lists
           (after_scan_error P (after_request P c reqFields w) err)).
Proof.
intros Hr Hs.
destruct (doRequest_forbidden P c reqFields response w Hr Hs)
  as (err & Hdo & Herr).
split_and!.
- intros listId ->. by apply (ListGet_forbidden P listId c response w).
- intros ->. rewrite WatchlistGet_eq.
  destruct (ListGet_forbidden P _ c response w Hr Hs) as (e & -> & He). eauto.
- intros ->. rewrite ListsGetAll_eq, Hdo. eauto.
- intros ->. rewrite RatingsGet_eq, Hdo. eauto.
- intros ->. rewrite UserIdScrape_eq, Hdo. eauto.
- intros ->. rewrite WatchlistIdScrape_eq, Hdo. eauto.
- intros listId rest lists ->.
  destruct (ListGet_forbidden P _ c response w Hr Hs) as (e & Hget & He).
  exists e. split; [done|]. by apply ListsGetAll_each_skip.
Qed.

Lemma omap_id_map {A B} (f : A → option B) (l : list A) :
omap id (map f l) = omap f l.
Proof.
induction l as [|x l IH]; [done|].
change (match f x with
        | Some y => y :: omap id (map f l)
        | None => omap id (map f l)
        end
        = match f x with Some y => y :: omap f l | None => omap f l end).
by rewrite IH.
Qed.

(** C8. When the lists page is fetched and parsed and no element has class
    [user-list], [ListsGetAll] returns the empty sequence and no error. In
    general the ids of the lists it returns are, in order, among the [id]
    attributes of the selected elements in document order. *)
Theorem scan_of_lists_page (P : Platform) (c : ImdbClient P)
    (response : http.Response (Body P)) (w : World P) (doc : Document P) :
responds P c (listsFields (UserId (config c))) response w →
http.StatusCode response = http.StatusOK →
goquery_NewDocumentFromReader P (http.Body_ response) = Ok doc →
(goquery_Find P doc (go ".user-list") = [] →
 ListsGetAll P c
 = (Ret [], after_request P c (listsFields (UserId (config c))) w))
∧ (∀ lists c', ListsGetAll P c = (Ret lists, c') →
     map ListId lists
     `sublist_of` omap (λ selection, goquery_Attr P selection (go "id"))
                    (goquery_Find P doc (go ".user-list"))).
Proof.
intros Hr Hs Hdoc. rewrite ListsGetAll_eq.
rewrite (doRequest_passes P c _ response w) by auto. rewrite Hdoc. split.
- by intros ->.
- intros lists c' H. apply ListsGetAll_each_Ret in H.
  destruct H as (new & -> & Hsub & _). simpl.
  by rewrite omap_id_map in Hsub.
Qed.

Section Exports.
Context (P : Platform).

Lemma stops_at_elem_of {A} (body : list (list N) → outcome A) records o :
stops_at body records o → ∃ record, record ∈ records ∧ body record = o.
Proof.
intros (before & record & rest & -> & _ & Hr). exists record.
split; [|done]. set_solver.
Qed.

Lemma Forall2_elem_of_l {A B} (R : A → B → Prop) l k x :
Forall2 R l k → x ∈ l → ∃ y, R x y.
Proof.
intros H [i Hi]%list_elem_of_lookup.
destruct (Forall2_lookup_l _ _ _ _ _ H Hi) as (y & _ & ?). eauto.
Qed.

Lemma decode_list_records_long records :
Forall (λ record, 8 ≤ length record) records →
∃ items, decode_records (listItems_record P) records = Ret items.
Proof.
induction 1 as [|record rest Hlen _ [items IH]]; simpl; [eauto|].
destruct (listItems_record_long P record Hlen) as [item ->].
rewrite IH. eauto.
Qed.

Lemma decode_list_records_Panic records :
decode_records (listItems_record P) records = Panic
↔ Exists (λ record, length record < 8) records.
Proof.
rewrite decode_records_Panic. split.
- intros (record & Hin & Hr)%stops_at_elem_of.
  apply Exists_exists. exists record. split; [done|].
  by apply (proj1 (listItems_record_Panic P record)).
- intros (record & Hin & Hshort)%Exists_exists.
  apply decode_records_Panic.
  destruct (decode_records (listItems_record P) records) as [items|err|] eqn:E;
    [| |done].
  + apply decode_records_Ret in E.
    destruct (Forall2_elem_of_l _ _ _ _ E Hin) as [item Hitem].
    apply (proj2 (listItems_record_Panic P record)) in Hshort. congruence.
  + apply decode_records_Fail, stops_at_elem_of in E.
    destruct E as (r & _ & Hr). by apply listItems_record_not_Fail in Hr.
Qed.

Lemma decode_ratings_unparsable records :
Exists (unparsable_rating P) records →
Forall (λ record, 6 ≤ length record) records →
∃ err, decode_records (ratings_record P) records = Fail err
       ∧ DecodeError err.
Proof.
intros (record & Hin & Hbad)%Exists_exists Hlong.
destruct (decode_records (ratings_record P) records) as [items|err|] eqn:E.
- apply decode_records_Ret in E.
  destruct (Forall2_elem_of_l _ _ _ _ E Hin) as [item Hitem].
  by apply (ratings_record_unparsable P record Hbad) in Hitem.
- exists err. split; [done|].
  apply decode_records_Fail, stops_at_elem_of in E.
  destruct E as (r & _ & Hr). by apply ratings_record_Fail in Hr as [? _].
- apply decode_records_Panic, stops_at_elem_of in E.
  destruct E as (r & Hr & Hpanic).
  rewrite Forall_forall in Hlong.
  destruct (ratings_record_long P r (Hlong r Hr)) as [[? ?]|[? ?]]; congruence.
Qed.

Lemma readImdbRatingsResponse_eq res csvData :
csv_ReadAll P (http.Body_ res) = Ok csvData →
readImdbRatingsResponse P res
= decode_records (ratings_record P) (tail csvData).
Proof.
intros H. unfold readImdbRatingsResponse. rewrite H.
apply ratings_range_tail.
Qed.

Lemma RatingsGet_answered c response w :
responds P c (ratingsExportFields (UserId (config c))) response w →
http.StatusCode response = http.StatusOK →
RatingsGet P c
= (readImdbRatingsResponse P response,
   after_request P c (ratingsExportFields (UserId (config c))) w).
Proof.
intros Hr Hs. rewrite RatingsGet_eq.
by rewrite (doRequest_passes P c _ response w) by auto.
Qed.

Lemma Split_head_prefix s sep :
∃ rest,
  (s = strings_Split_head s sep ++ rest)
  ∧ (sep ∉ strings_Split_head s sep)
  ∧ (rest = [] ∨ ∃ rest', rest = sep :: rest').
Proof.
induction s as [|r s (rest & IH1 & IH2 & IH3)]; simpl.
- exists []. split_and!; [done|set_solver|by left].
- destruct (N.eqb_spec r sep) as [->|Hne].
  + exists (sep :: s). split_and!; [done|set_solver|eauto].
  + exists rest. split_and!; [simpl; by f_equal| |done].
    apply not_elem_of_cons. split; [congruence|done].
Qed.
End Exports.

(** Records that do not all have the columns read. *)
Section RaggedRecords.
Context (P : Platform).

(** A rating or a date that is there and does not parse makes the record
    fail, however short the record is. *)
Lemma ratings_record_unparsable_Fail record :
unparsable_rating P record →
∃ err, ratings_record P record = Fail err ∧ DecodeError err.
Proof.
unfold ratings_record.
intros [(f & e & Hf & He)|(f & e & Hf & He)].
- rewrite Hf, He. eexists. split; [done|constructor].
- destruct (record !! 1%nat) as [f1|] eqn:E1.
  + destruct (strconv_Atoi P f1) as [rating|e1].
    * rewrite Hf, He. eexists. split; [done|constructor].
    * eexists. split; [done|constructor].
  + apply lookup_ge_None in E1. apply lookup_lt_Some in Hf. lia.
Qed.

(** The records before an unparsable one have the six fields read: the
    decoding fails, at that record or before. *)
Lemma decode_ratings_up_to_unparsable before record rest :
Forall (λ r, 6 ≤ length r) before →
unparsable_rating P record →
∃ err,
  decode_records (ratings_record P) (before ++ record :: rest) = Fail err
  ∧ DecodeError err.
Proof.
intros Hlong Hbad.
induction Hlong as [|r before Hr _ (err & IH & Herr)]; simpl.
- destruct (ratings_record_unparsable_Fail record Hbad) as (err & -> & Herr).
  eauto.
- destruct (ratings_record_long P r Hr) as [[item ->]|[err' Hf]].
  + rewrite IH. eauto.
  + rewrite Hf. exists err'. split; [done|].
    by apply ratings_record_Fail in Hf as [? _].
Qed.

(** With an unparsable record among them, the records decode to an error,
    or the decoding panics at a short record met before any unparsable
    one. *)
Lemma decode_ratings_with_unparsable records :
Exists (unparsable_rating P) records →
(∃ err, decode_records (ratings_record P) records = Fail err
        ∧ DecodeError err)
∨ (decode_records (ratings_record P) records = Panic
   ∧ ∃ before record rest,
       records = before ++ record :: rest
       ∧ Forall (λ r, ∃ item, rating_of_record P r item) before
       ∧ length record < 6
       ∧ ¬ unparsable_rating P record).
Proof.
intros (bad & Hin & Hbad)%Exists_exists.
destruct (decode_records (ratings_record P) records) as [items|err|] eqn:E.
- apply decode_records_Ret in E.
  destruct (Forall2_elem_of_l _ _ _ _ E Hin) as [item Hitem].
  by apply (ratings_record_unparsable P bad Hbad) in Hitem.
- left. exists err. split; [done|].
  apply decode_records_Fail, stops_at_elem_of in E.
  destruct E as (r & _ & Hr). by apply ratings_record_Fail in Hr as [? _].
- right. split; [done|].
  apply decode_records_Panic in E.
  destruct E as (before & record & rest & -> & Hbefore & Hpanic).
  exists before, record, rest. split_and!; [done| | |].
  + eapply Forall_impl; [exact Hbefore|]. intros r [item Hitem].
    exists item. by apply ratings_record_Ret.
  + apply ratings_record_Panic in Hpanic.
    destruct Hpanic as [?|(f1 & rating & _ & _ & [?|(f2 & d & _ & _ & ?)])];
      lia.
  + intros (err & Hf & _)%ratings_record_unparsable_Fail. congruence.
Qed.

Lemma readImdbListResponse_Panic res listId csvData :
csv_ReadAll P (http.Body_ res) = Ok csvData →
readImdbListResponse P res listId = Panic
↔ Exists (λ record, length record < 8) (tail csvData).
Proof.
intros Hcsv. rewrite <- (decode_list_records_Panic P).
unfold readImdbListResponse. rewrite Hcsv, listItems_range_tail.
destruct (decode_records _ _) as [items|err|]; [|by split..].
case_bool_decide; [by split|].
destruct (mime_ParseMediaType P _) as [[mediatype params]|]; [|by split].
case_bool_decide; by split.
Qed.

(** What [readImdbListResponse] makes of the header once the records are
    decoded. *)
Lemma readImdbListResponse_header res listId csvData :
csv_ReadAll P (http.Body_ res) = Ok csvData →
Forall (λ record, 8 ≤ length record) (tail csvData) →
(http.Header res imdbHeaderKeyContentDisposition = [] →
 readImdbListResponse P res listId
 = Fail (Errorf (go "failure reading header "
                   ++ imdbHeaderKeyContentDisposition
                   ++ go " from imdb response")))
∧ (http.Header res imdbHeaderKeyContentDisposition ≠ [] →
   ∀ cause,
     mime_ParseMediaType P (http.Header res imdbHeaderKeyContentDisposition)
     = Err cause →
     readImdbListResponse P res listId
     = Fail (Errorw (go "failure parsing media type from imdb header "
                       ++ imdbHeaderKeyContentDisposition) cause))
∧ (http.Header res imdbHeaderKeyContentDisposition ≠ [] →
   ∀ mediatype params,
     mime_ParseMediaType P (http.Header res imdbHeaderKeyContentDisposition)
     = Ok (mediatype, params) →
     size params = 0 →
     readImdbListResponse P res listId
     = Fail (Errorf (go "failure parsing media type from imdb header "
                       ++ imdbHeaderKeyContentDisposition))).
Proof.
intros Hcsv Hlong. unfold readImdbListResponse.
rewrite Hcsv, listItems_range_tail.
destruct (decode_list_records_long P _ Hlong) as [items ->].
split_and!.
- intros ->. by rewrite bool_decide_eq_true_2.
- intros Hh cause ->. by rewrite bool_decide_eq_false_2.
- intros Hh mediatype params -> Hsize.
  rewrite bool_decide_eq_false_2 by done. by rewrite bool_decide_eq_true_2.
Qed.
End RaggedRecords.

(** C2, as the code has it. For a ratings export answered 200 whose body
    reads as the records [csvData]: every sequence [RatingsGet] returns has
    one Item for each record after the first, in order, with the id of
    index 0, the integer parsed from index 1, the date parsed from index 2
    with the layout [2006-01-02] and the title type of index 5, so that every
    Item has a rating and a rating date. When the rating or the date of some
    record does not parse, no sequence is returned: the call fails with a
    decode error, or it panics at a record of fewer than six fields, none of
    whose fields read fails to parse, which comes after records that decode.
    It does fail with a decode error when the records before an unparsable
    one have the six fields read. And when every record after the first
    decodes, the call returns those Items. *)
Theorem ratings_export_decoding (P : Platform) (c : ImdbClient P)
    (response : http.Response (Body P)) (w : World P)
    (csvData : list (list (list N))) :
responds P c (ratingsExportFields (UserId (config c))) response w →
http.StatusCode response = http.StatusOK →
csv_ReadAll P (http.Body_ response) = Ok csvData →
(∀ items c', RatingsGet P c = (Ret items, c') →
   Forall2 (rating_of_record P) (tail csvData) items
   ∧ Forall (λ item, is_Some (Rating item) ∧ is_Some (RatingDate item)) items)
∧ (Exists (unparsable_rating P) (tail csvData) →
   (∀ items c', RatingsGet P c ≠ (Ret items, c'))
   ∧ (Forall (λ record, 6 ≤ length record) (tail csvData) →
      ∃ err,
        RatingsGet P c
        = (Fail err,
           after_request P c (ratingsExportFields (UserId (config c))) w)
        ∧ DecodeError err)
   ∧ ((∃ err,
         RatingsGet P c
         = (Fail err,
            after_request P c (ratingsExportFields (UserId (config c))) w)
         ∧ DecodeError err)
      ∨ (RatingsGet P c
         = (Panic,
            after_request P c (ratingsExportFields (UserId (config c))) w)
         ∧ ∃ before record rest,
             tail csvData = before ++ record :: rest
             ∧ Forall (λ r, ∃ item, rating_of_record P r item) before
             ∧ length record < 6
             ∧ ¬ unparsable_rating P record)))
∧ (∀ before record rest,
     tail csvData = before ++ record :: rest →
     Forall (λ r, 6 ≤ length r) before →
     unparsable_rating P record →
     ∃ err,
       RatingsGet P c
       = (Fail err,
          after_request P c (ratingsExportFields (UserId (config c))) w)
       ∧ DecodeError err)
∧ (∀ items, Forall2 (rating_of_record P) (tail csvData) items →
   RatingsGet P c
   = (Ret items,
      after_request P c (ratingsExportFields (UserId (config c))) w)).
Proof.
intros Hr Hs Hcsv.
rewrite (RatingsGet_answered P c response w Hr Hs).
rewrite (readImdbRatingsResponse_eq P response csvData Hcsv).
split_and!.
- intros items c' [= H _]. apply decode_records_Ret in H.
  assert (Forall2 (rating_of_record P) (tail csvData) items) as Hall.
  { eapply Forall2_impl; [exact H|]. intros record item.
    apply ratings_record_Ret. }
  split; [done|]. clear H.
  induction Hall as [|record item ? ? Hitem _ IH]; constructor; [|done].
  destruct Hitem as (_ & _ & (? & ? & _ & _ & ->) & (? & ? & _ & _ & ->)).
  eauto.
- intros Hbad. split_and!.
  + intros items c' [= H _]. apply decode_records_Ret in H.
    apply Exists_exists in Hbad. destruct Hbad as (record & Hin & Hrec).
    destruct (Forall2_elem_of_l _ _ _ _ H Hin) as [item Hitem].
    by apply (ratings_record_unparsable P record Hrec) in Hitem.
  + intros Hlong.
    destruct (decode_ratings_unparsable P _ Hbad Hlong) as (err & -> & Herr).
    eauto.
  + destruct (decode_ratings_with_unparsable P _ Hbad)
      as [(err & -> & Herr)|(-> & Hshort)]; [left|right]; eauto.
- intros before record rest -> Hlong Hbad.
  destruct (decode_ratings_up_to_unparsable P before record rest Hlong Hbad)
    as (err & -> & Herr).
  eauto.
- intros items H. f_equal. apply decode_records_Ret.
  eapply Forall2_impl; [exact H|]. intros record item.
  apply ratings_record_Ret.
Qed.

(** C7. For a list export answered 200 whose body reads as the records
    [csvData]: every list [ListGet] returns has one Item for each record
    after the first, in order, with the id of index 1 and the title type of
    index 7, without rating and rating date; the call does return a list when
    those records have eight fields and the header gives parameters; and the
    items of every list that [ListGet], [WatchlistGet] or [ListsGetAll]
    returns have no rating and no rating date. *)
Theorem list_export_decoding (P : Platform) (c : ImdbClient P)
    (listId : list N) (response : http.Response (Body P)) (w : World P)
    (csvData : list (list (list N))) :
responds P c (listExportFields listId) response w →
http.StatusCode response = http.StatusOK →
csv_ReadAll P (http.Body_ response) = Ok csvData →
(∀ list c', ListGet P listId c = (Ret list, c') →
   Forall2 (item_of_record P) (tail csvData) (ListItems list))
∧ (∀ params,
     disposition_parameters P response params →
     Forall (λ record, 8 ≤ length record) (tail csvData) →
     ∃ list,
       ListGet P listId c
       = (Ret list, after_request P c (listExportFields listId) w))
∧ (∀ c0 listId0 list c',
     ListGet P listId0 c0 = (Ret list, c') →
     Forall (unrated P) (ListItems list))
∧ (∀ c0 list c',
     WatchlistGet P c0 = (Ret list, c') → Forall (unrated P) (ListItems list))
∧ (∀ c0 lists c',
     ListsGetAll P c0 = (Ret lists, c') →
     Forall (λ list, Forall (unrated P) (ListItems list)) lists).
Proof.
intros Hr Hs Hcsv. split_and!.
- intros list c'. rewrite (ListGet_answered P listId c response w Hr Hs).
  intros [= H _]. apply readImdbListResponse_Ret in H.
  destruct H as (csvData' & params & Hcsv' & Hitems & _).
  rewrite Hcsv in Hcsv'. injection Hcsv' as <-.
  apply decode_records_Ret in Hitems.
  eapply Forall2_impl; [exact Hitems|]. intros record item.
  apply listItems_record_Ret.
- intros params Hparams Hlong.
  rewrite (ListGet_answered P listId c response w Hr Hs).
  destruct (decode_list_records_long P _ Hlong) as [items Hitems].
  eexists (mkImdbList _ listId items _ false). f_equal.
  apply readImdbListResponse_Ret. exists csvData, params. simpl.
  split_and!; done.
- intros c0 listId0 list c' H. by apply ListGet_unrated in H as [_ ?].
- intros c0 list c'. rewrite WatchlistGet_eq.
  destruct (ListGet P _ c0) as [[list'| |] c1] eqn:E; [|done..].
  intros [= <- _]. simpl. by apply ListGet_unrated in E as [_ ?].
- intros c0 lists c'. rewrite ListsGetAll_eq.
  destruct (doRequest P _ c0) as [[response0| |] c1]; [|done..].
  destruct (goquery_NewDocumentFromReader P _) as [doc|]; [|done].
  intros H. apply ListsGetAll_each_Ret in H.
  by destruct H as (new & -> & _ & Hun).
Qed.

(** C3, as the code has it. For a list export answered 200: [ListGet]
    returns a list only when the [Content-Disposition] header is there and
    parses as a media type with at least one parameter; the display name is
    then the value of the [filename] parameter up to its first dot, the whole
    value when it has no dot and the empty string when the parameters have
    no [filename]; the slug is [buildTraktListName] of the display name.
    The records are decoded before the header is read: when one of them has
    fewer than eight fields the call panics, whatever the header. When they
    all have eight fields, the call fails with a decode error if the header
    is missing, does not parse or has no parameter, each with its own
    message, and returns a list otherwise. A body that does not read as CSV
    is a decode error too. *)
Theorem list_name_from_content_disposition (P : Platform) (c : ImdbClient P)
    (listId : list N) (response : http.Response (Body P)) (w : World P) :
responds P c (listExportFields listId) response w →
http.StatusCode response = http.StatusOK →
(∀ list c', ListGet P listId c = (Ret list, c') →
   ∃ params rest,
     disposition_parameters P response params
     ∧ default [] (params !! go "filename") = ListName list ++ rest
     ∧ (46%N ∉ ListName list)
     ∧ (rest = [] ∨ ∃ rest', rest = 46%N :: rest')
     ∧ TraktListSlug list
       = buildTraktListName (unicode_To_LowerCase P) (ListName list)
     ∧ (params !! go "filename" = None →
        ListName list = [] ∧ TraktListSlug list = []))
∧ ((¬ ∃ params, disposition_parameters P response params) →
   (∀ list c', ListGet P listId c ≠ (Ret list, c'))
   ∧ (∀ csvData,
        csv_ReadAll P (http.Body_ response) = Ok csvData →
        Forall (λ record, 8 ≤ length record) (tail csvData) →
        ∃ err,
          ListGet P listId c
          = (Fail err, after_request P c (listExportFields listId) w)
          ∧ DecodeError err))
∧ (∀ csvData,
     csv_ReadAll P (http.Body_ response) = Ok csvData →
     (Exists (λ record, length record < 8) (tail csvData) →
      ListGet P listId c
      = (Panic, after_request P c (listExportFields listId) w))
     ∧ (Forall (λ record, 8 ≤ length record) (tail csvData) →
        (http.Header response imdbHeaderKeyContentDisposition = [] →
         ListGet P listId c
         = (Fail (Errorf (go "failure reading header "
                            ++ imdbHeaderKeyContentDisposition
                            ++ go " from imdb response")),
            after_request P c (listExportFields listId) w))
        ∧ (http.Header response imdbHeaderKeyContentDisposition ≠ [] →
           ∀ cause,
             mime_ParseMediaType P
               (http.Header response imdbHeaderKeyContentDisposition)
             = Err cause →
             ListGet P listId c
             = (Fail (Errorw
                        (go "failure parsing media type from imdb header "
                           ++ imdbHeaderKeyContentDisposition) cause),
                after_request P c (listExportFields listId) w))
        ∧ (http.Header response imdbHeaderKeyContentDisposition ≠ [] →
           ∀ mediatype params,
             mime_ParseMediaType P
               (http.Header response imdbHeaderKeyContentDisposition)
             = Ok (mediatype, params) →
             size params = 0 →
             ListGet P listId c
             = (Fail (Errorf
                        (go "failure parsing media type from imdb header "
                           ++ imdbHeaderKeyContentDisposition)),
                after_request P c (listExportFields listId) w))
        ∧ (∀ params,
             disposition_parameters P response params →
             ∃ list,
               ListGet P listId c
               = (Ret list, after_request P c (listExportFields listId) w)
               ∧ ListName list
                 = strings_Split_head
                     (default [] (params !! go "filename")) 46)))
∧ (∀ cause,
     csv_ReadAll P (http.Body_ response) = Err cause →
     ListGet P listId c
     = (Fail (Errorw (go "failure reading from imdb response") cause),
        after_request P c (listExportFields listId) w)).
Proof.
intros Hr Hs. rewrite (ListGet_answered P listId c response w Hr Hs).
split_and!.
- intros list c' [= H _]. apply readImdbListResponse_Ret in H.
  destruct H as (csvData & params & _ & _ & Hparams & Hname & _ & Hslug & _).
  destruct (Split_head_prefix (default [] (params !! go "filename")) 46)
    as (rest & H1 & H2 & H3).
  rewrite <- Hname in H1, H2.
  exists params, rest. split_and!; try done.
  intros Hnone. rewrite Hnone in Hname. simpl in Hname.
  by rewrite Hslug, Hname.
- intros Hno.
  pose proof (readImdbListResponse_no_parameters P response listId Hno) as H.
  split.
  + intros list c' [= Heq _]. by rewrite Heq in H.
  + intros csvData Hcsv Hlong.
    destruct (readImdbListResponse P response listId) as [|err|]; [done| |].
    * eauto.
    * destruct H as (csvData' & Hcsv' & Hpanic).
      rewrite Hcsv in Hcsv'. injection Hcsv' as <-.
      destruct (decode_list_records_long P _ Hlong) as [items Hitems].
      congruence.
- intros csvData Hcsv. split.
  + intros Hshort.
    by rewrite (proj2 (readImdbListResponse_Panic P response listId csvData
                         Hcsv) Hshort).
  + intros Hlong.
    destruct (readImdbListResponse_header P response listId csvData Hcsv Hlong)
      as (H1 & H2 & H3).
    split_and!.
    * intros Hh. by rewrite (H1 Hh).
    * intros Hh cause Hp. by rewrite (H2 Hh cause Hp).
    * intros Hh mediatype params Hp Hsize.
      by rewrite (H3 Hh mediatype params Hp Hsize).
    * intros params Hparams.
      destruct (decode_list_records_long P _ Hlong) as [items Hitems].
      eexists (mkImdbList _ listId items _ false). split; [|done].
      f_equal. apply readImdbListResponse_Ret. exists csvData, params. simpl.
      split_and!; done.
- intros cause Hcsv. unfold readImdbListResponse. by rewrite Hcsv.
Qed.

(** C10, as the code has it. Once the body has been read as the records
    [csvData]: list decoding panics exactly when some record after the first
    has fewer than eight fields. Ratings decoding returns Items only when
    every record after the first has at least six fields; it panics exactly
    when the first record that does not decode panics, and fails with a
    decode error exactly when that record fails; and a record panics when
    it has fewer than two fields, or a rating that parses and fewer than
    three fields, or a rating and a date that parse and fewer than six
    fields, so that a short record whose rating or date is there and does not
    parse makes the decode fail, not panic. *)
Theorem decoders_index_unchecked (P : Platform)
    (res : http.Response (Body P)) (listId : list N)
    (csvData : list (list (list N))) :
csv_ReadAll P (http.Body_ res) = Ok csvData →
(readImdbListResponse P res listId = Panic
 ↔ Exists (λ record, length record < 8) (tail csvData))
∧ (∀ items, readImdbRatingsResponse P res = Ret items →
     Forall (λ record, 6 ≤ length record) (tail csvData))
∧ (readImdbRatingsResponse P res = Panic
   ↔ stops_at (ratings_record P) (tail csvData) Panic)
∧ (∀ err, readImdbRatingsResponse P res = Fail err
          ↔ stops_at (ratings_record P) (tail csvData) (Fail err))
∧ (∀ record,
     ratings_record P record = Panic
     ↔ length record < 2
       ∨ (∃ field1 rating,
             record !! 1%nat = Some field1
             ∧ strconv_Atoi P field1 = Ok rating
             ∧ (length record < 3
                ∨ ∃ field2 ratingDate,
                    record !! 2%nat = Some field2
                    ∧ time_Parse P (go "2006-01-02") field2 = Ok ratingDate
                    ∧ length record < 6)))
∧ (∀ record err,
     ratings_record P record = Fail err →
     DecodeError err ∧ unparsable_rating P record).
Proof.
intros Hcsv. rewrite (readImdbRatingsResponse_eq P res csvData Hcsv).
split_and!.
- rewrite <- (decode_list_records_Panic P).
  unfold readImdbListResponse. rewrite Hcsv, listItems_range_tail.
  destruct (decode_records _ _) as [items|err|]; [|by split..].
  case_bool_decide; [by split|].
  destruct (mime_ParseMediaType P _) as [[mediatype params]|]; [|by split].
  case_bool_decide; by split.
- intros items H. apply decode_records_Ret in H.
  apply Forall_forall. intros record Hin.
  destruct (Forall2_elem_of_l _ _ _ _ H Hin) as [item Hitem].
  by apply ratings_record_short in Hitem.
- apply decode_records_Panic.
- intros err. apply decode_records_Fail.
- apply ratings_record_Panic.
- apply ratings_record_Fail.
Qed.

(** * The theorems on the scripted site *)

Lemma site_responds (userId : list N) (r : http.Response Scripted.page)
    (reqFields : RequestFields) :
Scripted.site (Url reqFields) = Ok r →
responds (Scripted.platform Scripted.site) (Scripted.client_of userId)
  reqFields r 1.
Proof.
intros H. exists (http.mkRequest (Method reqFields) (Url reqFields)).
split; [reflexivity|]. simpl. by rewrite H.
Defined.

Lemma ragged_responds (r : http.Response Scripted.page)
    (c : ImdbClient (Scripted.platform Ragged.site))
    (reqFields : RequestFields) :
Ragged.site (Url reqFields) = Ok r →
responds (Scripted.platform Ragged.site) c reqFields r (S (net c)).
Proof.
intros H. exists (http.mkRequest (Method reqFields) (Url reqFields)).
split; [reflexivity|]. simpl. by rewrite H.
Defined.

(** The scan of the lists of [ur1] meets a 403 on [ls1] (and a 404 on
    [ls3]), and yet returns without error, with the one list it could
    fetch. *)
Lemma catalog_scan_swallows_forbidden :
let result :=
  ListsGetAll (Scripted.platform Scripted.site)
    (Scripted.client_of (go "ur1")) in
Scripted.site (Url (listExportFields (go "ls1")))
= Ok Scripted.forbidden_export
∧ http.StatusCode Scripted.forbidden_export = http.StatusForbidden
∧ calls result.2
  = [listsFields (go "ur1"); listExportFields (go "ls1");
     listExportFields (go "ls2"); listExportFields (go "ls3")]
∧ result.1 = Ret [Scripted.my_watchlist]
∧ logger result.2
  = [LogError (go "unexpected error while scraping imdb lists")
       (Api (mkApiError (go "imdb") (go "GET")
               (Url (listExportFields (go "ls1"))) 403
               (go "imdb authorization failure - update the imdb cookie values")));
     LogError (go "unexpected error while scraping imdb lists")
       (Api (mkApiError (go "imdb") (go "GET")
               (Url (listExportFields (go "ls3"))) 404
               (go "list with id ls3 could not be found")))].
Proof. repeat split. Qed.

Lemma forbidden_fails_operation_witness :
responds (Scripted.platform Scripted.site) (Scripted.client_of (go "ur1"))
  (listExportFields (go "ls1")) Scripted.forbidden_export 1
∧ http.StatusCode Scripted.forbidden_export = http.StatusForbidden
∧ ∃ err,
    AuthorizationError (Scripted.platform Scripted.site) err
    ∧ ListsGetAll_each (Scripted.platform Scripted.site)
        [Some (go "ls1"); Some (go "ls2")] [] (Scripted.client_of (go "ur1"))
      = ListsGetAll_each (Scripted.platform Scripted.site) [Some (go "ls2")] []
          (after_scan_error (Scripted.platform Scripted.site)
             (after_request (Scripted.platform Scripted.site)
                (Scripted.client_of (go "ur1")) (listExportFields (go "ls1")) 1)
             err).
Proof.
assert (responds (Scripted.platform Scripted.site)
          (Scripted.client_of (go "ur1")) (listExportFields (go "ls1"))
          Scripted.forbidden_export 1) as Hr.
{ apply site_responds. reflexivity. }
split; [exact Hr|]. split; [reflexivity|].
destruct (forbidden_fails_operation (Scripted.platform Scripted.site)
            (Scripted.client_of (go "ur1")) (listExportFields (go "ls1"))
            Scripted.forbidden_export 1 Hr eq_refl)
  as (_ & _ & _ & _ & _ & _ & Hscan).
exact (Hscan (go "ls1") [Some (go "ls2")] [] eq_refl).
Defined.

Lemma ratings_export_decoding_witness :
responds (Scripted.platform Scripted.site) (Scripted.client_of (go "ur1"))
  (ratingsExportFields (go "ur1")) Scripted.ratings_export 1
∧ http.StatusCode Scripted.ratings_export = http.StatusOK
∧ csv_ReadAll (Scripted.platform Scripted.site)
    (http.Body_ Scripted.ratings_export)
  = Ok Scripted.ratings_records
∧ RatingsGet (Scripted.platform Scripted.site) (Scripted.client_of (go "ur1"))
  = (Ret [Scripted.my_rating],
     after_request (Scripted.platform Scripted.site)
       (Scripted.client_of (go "ur1")) (ratingsExportFields (go "ur1")) 1)
∧ Forall2 (rating_of_record (Scripted.platform Scripted.site))
    (tail Scripted.ratings_records) [Scripted.my_rating]
∧ Forall (λ item, is_Some (Rating item) ∧ is_Some (RatingDate item))
    [Scripted.my_rating].
Proof.
assert (responds (Scripted.platform Scripted.site)
          (Scripted.client_of (go "ur1")) (ratingsExportFields (go "ur1"))
          Scripted.ratings_export 1) as Hr.
{ apply site_responds. reflexivity. }
split; [exact Hr|]. split; [reflexivity|]. split; [reflexivity|].
split; [reflexivity|].
destruct (ratings_export_decoding (Scripted.platform Scripted.site)
            (Scripted.client_of (go "ur1")) Scripted.ratings_export 1
            Scripted.ratings_records Hr eq_refl eq_refl)
  as (Hitems & _ & _).
exact (Hitems [Scripted.my_rating] _ eq_refl).
Defined.

(** The ratings export of [ur3]: the rating of its second record does not
    parse, and yet [RatingsGet] does not fail with a decode error: it panics
    at the first record, which has no field of index 2. *)
Lemma unparsable_rating_after_short_record :
Ragged.site (Url (ratingsExportFields (go "ur3"))) = Ok Ragged.ratings_export
∧ http.StatusCode Ragged.ratings_export = http.StatusOK
∧ csv_ReadAll (Scripted.platform Ragged.site)
    (http.Body_ Ragged.ratings_export)
  = Ok Ragged.ratings_records
∧ Exists (unparsable_rating (Scripted.platform Ragged.site))
    (tail Ragged.ratings_records)
∧ RatingsGet (Scripted.platform Ragged.site) Ragged.a_client
  = (Panic,
     after_request (Scripted.platform Ragged.site) Ragged.a_client
       (ratingsExportFields (go "ur3")) 1).
Proof.
split_and!; [reflexivity..| |reflexivity].
apply Exists_cons_tl, Exists_cons_hd. left.
exists (go "x"), (Foreign (go "strconv.Atoi: invalid syntax")).
split; reflexivity.
Qed.

(** The export of [ls4] has a header with a parameter and no [filename]:
    [ListGet] returns a list all the same, with an empty name and slug. *)
Lemma list_without_filename_parameter :
Scripted.site (Url (listExportFields (go "ls4"))) = Ok Scripted.unnamed_export
∧ http.StatusCode Scripted.unnamed_export = http.StatusOK
∧ match mime_ParseMediaType (Scripted.platform Scripted.site)
          (http.Header Scripted.unnamed_export
             imdbHeaderKeyContentDisposition) with
  | Ok (_, params) => params !! go "filename" = None ∧ size params = 1
  | Err _ => False
  end
∧ (ListGet (Scripted.platform Scripted.site) (go "ls4")
     (Scripted.client_of (go "ur1"))).1
  = Ret (mkImdbList [] (go "ls4")
           [mkImdbItem (go "tt0111161") (go "movie") None None] [] false).
Proof. split_and!; [reflexivity|reflexivity|by vm_compute|reflexivity]. Qed.

Lemma list_name_from_content_disposition_witness :
responds (Scripted.platform Scripted.site) (Scripted.client_of (go "ur1"))
  (listExportFields (go "ls2")) Scripted.watchlist_export 1
∧ http.StatusCode Scripted.watchlist_export = http.StatusOK
∧ ListGet (Scripted.platform Scripted.site) (go "ls2")
    (Scripted.client_of (go "ur1"))
  = (Ret Scripted.my_watchlist,
     after_request (Scripted.platform Scripted.site)
       (Scripted.client_of (go "ur1")) (listExportFields (go "ls2")) 1)
∧ ∃ params rest,
    disposition_parameters (Scripted.platform Scripted.site)
      Scripted.watchlist_export params
    ∧ default [] (params !! go "filename") = go "My Watchlist" ++ rest
    ∧ (46%N ∉ go "My Watchlist")
    ∧ (rest = [] ∨ ∃ rest', rest = 46%N :: rest')
    ∧ go "my-watchlist" = buildTraktListName (λ r, r) (go "My Watchlist")
    ∧ (params !! go "filename" = None →
       go "My Watchlist" = [] ∧ go "my-watchlist" = []).
Proof.
assert (responds (Scripted.platform Scripted.site)
          (Scripted.client_of (go "ur1")) (listExportFields (go "ls2"))
          Scripted.watchlist_export 1) as Hr.
{ apply site_responds. reflexivity. }
split; [exact Hr|]. split; [reflexivity|]. split; [reflexivity|].
destruct (list_name_from_content_disposition (Scripted.platform Scripted.site)
            (Scripted.client_of (go "ur1")) (go "ls2")
            Scripted.watchlist_export 1 Hr eq_refl)
  as (Hname & _).
exact (Hname Scripted.my_watchlist _ eq_refl).
Defined.

(** The export of [ls5] has no [Content-Disposition] header and a record of
    seven fields: [ListGet] does not come to the header, it panics on the
    record. *)
Example headless_export_with_short_record :
Ragged.site (Url (listExportFields (go "ls5"))) = Ok Ragged.headless_export
∧ http.StatusCode Ragged.headless_export = http.StatusOK
∧ http.Header Ragged.headless_export imdbHeaderKeyContentDisposition = []
∧ csv_ReadAll (Scripted.platform Ragged.site)
    (http.Body_ Ragged.headless_export)
  = Ok Ragged.headless_records
∧ map length (tail Ragged.headless_records) = [7]
∧ ListGet (Scripted.platform Ragged.site) (go "ls5") Ragged.a_client
  = (Panic,
     after_request (Scripted.platform Ragged.site) Ragged.a_client
       (listExportFields (go "ls5")) 1).
Proof. split_and!; reflexivity. Qed.

Lemma list_export_decoding_witness :
responds (Scripted.platform Scripted.site) (Scripted.client_of (go "ur1"))
  (listExportFields (go "ls2")) Scripted.watchlist_export 1
∧ http.StatusCode Scripted.watchlist_export = http.StatusOK
∧ csv_ReadAll (Scripted.platform Scripted.site)
    (http.Body_ Scripted.watchlist_export)
  = Ok Scripted.watchlist_records
∧ Forall2 (item_of_record (Scripted.platform Scripted.site))
    (tail Scripted.watchlist_records) (ListItems Scripted.my_watchlist).
Proof.
assert (responds (Scripted.platform Scripted.site)
          (Scripted.client_of (go "ur1")) (listExportFields (go "ls2"))
          Scripted.watchlist_export 1) as Hr.
{ apply site_responds. reflexivity. }
split; [exact Hr|]. split; [reflexivity|]. split; [reflexivity|].
destruct (list_export_decoding (Scripted.platform Scripted.site)
            (Scripted.client_of (go "ur1")) (go "ls2")
            Scripted.watchlist_export 1 Scripted.watchlist_records
            Hr eq_refl eq_refl)
  as (Hitems & _).
exact (Hitems Scripted.my_watchlist _ eq_refl).
Defined.

Lemma scan_of_lists_page_witness :
responds (Scripted.platform Scripted.site) (Scripted.client_of (go "ur0"))
  (listsFields (go "ur0")) Scripted.empty_lists_page 1
∧ http.StatusCode Scripted.empty_lists_page = http.StatusOK
∧ goquery_NewDocumentFromReader (Scripted.platform Scripted.site)
    (http.Body_ Scripted.empty_lists_page)
  = Ok []
∧ ListsGetAll (Scripted.platform Scripted.site) (Scripted.client_of (go "ur0"))
  = (Ret [],
     after_request (Scripted.platform Scripted.site)
       (Scripted.client_of (go "ur0")) (listsFields (go "ur0")) 1).
Proof.
assert (responds (Scripted.platform Scripted.site)
          (Scripted.client_of (go "ur0")) (listsFields (go "ur0"))
          Scripted.empty_lists_page 1) as Hr.
{ apply site_responds. reflexivity. }
split; [exact Hr|]. split; [reflexivity|]. split; [reflexivity|].
destruct (scan_of_lists_page (Scripted.platform Scripted.site)
            (Scripted.client_of (go "ur0")) Scripted.empty_lists_page 1 []
            Hr eq_refl eq_refl)
  as (Hempty & _).
exact (Hempty eq_refl).
Defined.

Lemma NewImdbClient_bootstrap_policy_witness :
setupCookieJar (Scripted.platform Scripted.site) Scripted.fresh_config
= Ok Scripted.fresh_jar
∧ calls (hydrate (Scripted.platform Scripted.site)
           (mkImdbClient (P := Scripted.platform Scripted.site)
              Scripted.fresh_jar Scripted.fresh_config [] 0 [])).2
  = [profileFields; watchlistFields]
∧ NewImdbClient (Scripted.platform Scripted.site) Scripted.fresh_config [] 0
  = Ret (mkImdbClient (P := Scripted.platform Scripted.site)
           Scripted.fresh_jar
           (mkImdbConfig (go "at") (go "ubid") (go "ur1") (go "ls2"))
           [] 2 [profileFields; watchlistFields])
∧ (profileFields
   ∈ calls (hydrate (Scripted.platform Scripted.site)
              (mkImdbClient (P := Scripted.platform Scripted.site)
                 Scripted.fresh_jar Scripted.fresh_config [] 0 [])).2
   ↔ account_id_to_discover Scripted.fresh_config).
Proof.
split; [reflexivity|]. split; [reflexivity|]. split; [reflexivity|].
exact (proj1 (NewImdbClient_bootstrap_policy (Scripted.platform Scripted.site)
                Scripted.fresh_config [] 0 Scripted.fresh_jar eq_refl)).
Defined.

(** The ratings export of [ur2] has a record of two fields, too short for
    the indices read, and its decoding returns a decode error. *)
Lemma short_ratings_record_fails_to_decode :
csv_ReadAll (Scripted.platform Scripted.site)
  (http.Body_ Scripted.short_ratings_export)
= Ok Scripted.short_ratings_records
∧ Exists (λ record, length record < 6) (tail Scripted.short_ratings_records)
∧ readImdbRatingsResponse (Scripted.platform Scripted.site)
    Scripted.short_ratings_export
  = Fail (Errorw (go "failure parsing imdb rating value to integer")
            (Foreign (go "strconv.Atoi: invalid syntax")))
∧ (RatingsGet (Scripted.platform Scripted.site)
     (Scripted.client_of (go "ur2"))).1
  = Fail (Errorw (go "failure parsing imdb rating value to integer")
            (Foreign (go "strconv.Atoi: invalid syntax"))).
Proof.
split_and!; [reflexivity| |reflexivity|reflexivity].
apply Exists_cons_hd. simpl. lia.
Qed.

Lemma decoders_index_unchecked_witness :
csv_ReadAll (Scripted.platform Scripted.site)
  (http.Body_ Scripted.short_ratings_export)
= Ok Scripted.short_ratings_records
∧ ∀ err,
    readImdbRatingsResponse (Scripted.platform Scripted.site)
      Scripted.short_ratings_export = Fail err
    ↔ stops_at (ratings_record (Scripted.platform Scripted.site))
        (tail Scripted.short_ratings_records) (Fail err).
Proof.
split; [reflexivity|].
destruct (decoders_index_unchecked (Scripted.platform Scripted.site)
            Scripted.short_ratings_export (go "ls0")
            Scripted.short_ratings_records eq_refl)
  as (_ & _ & _ & Hfail & _).
exact Hfail.
Defined.

(** The rows of section 8 of the specification. *)
Example fetch_of_my_watchlist :
(ListGet (Scripted.platform Scripted.site) (go "ls2")
   (Scripted.client_of (go "ur1"))).1
= Ret Scripted.my_watchlist
∧ (WatchlistGet (Scripted.platform Scripted.site)
     (Scripted.client_of (go "ur1"))).1
  = Ret (mkImdbList (go "My Watchlist") (go "ls2")
           (ListItems Scripted.my_watchlist) (go "my-watchlist") true)
∧ (RatingsGet (Scripted.platform Scripted.site)
     (Scripted.client_of (go "ur1"))).1
  = Ret [Scripted.my_rating].
Proof. split_and!; reflexivity. Qed.

(** * Beyond the claims: failures of a request *)

Section RequestFailures.
Context (P : Platform).

(** An error of [doRequest] is what each operation returns, as it is. *)
Lemma request_error_propagates c reqFields err c' :
doRequest P reqFields c = (Fail err, c') →
(∀ listId, reqFields = listExportFields listId →
   ListGet P listId c = (Fail err, c'))
∧ (reqFields = listExportFields (WatchlistId (config c)) →
   WatchlistGet P c = (Fail err, c'))
∧ (reqFields = listsFields (UserId (config c)) →
   ListsGetAll P c = (Fail err, c'))
∧ (reqFields = ratingsExportFields (UserId (config c)) →
   RatingsGet P c = (Fail err, c'))
∧ (reqFields = profileFields → UserIdScrape P c = (Fail err, c'))
∧ (reqFields = watchlistFields → WatchlistIdScrape P c = (Fail err, c')).
Proof.
intros Hdo. split_and!.
- intros listId ->. by rewrite ListGet_eq, Hdo.
- intros ->. by rewrite WatchlistGet_eq, ListGet_eq, Hdo.
- intros ->. by rewrite ListsGetAll_eq, Hdo.
- intros ->. by rewrite RatingsGet_eq, Hdo.
- intros ->. by rewrite UserIdScrape_eq, Hdo.
- intros ->. by rewrite WatchlistIdScrape_eq, Hdo.
Qed.

Lemma doRequest_unexpected c reqFields response w :
responds P c reqFields response w →
http.StatusCode response ≠ http.StatusOK →
http.StatusCode response ≠ http.StatusForbidden →
http.StatusCode response ≠ http.StatusNotFound →
∃ err,
  UnexpectedStatusError P (http.StatusCode response) err
  ∧ doRequest P reqFields c = (Fail err, after_request P c reqFields w).
Proof.
intros (request & Hnew & Hdo) H200 H403 H404. unfold doRequest. simpl.
rewrite Hnew, Hdo.
destruct (Z.eqb_spec (http.StatusCode response) http.StatusOK); [done|].
destruct (Z.eqb_spec (http.StatusCode response) http.StatusForbidden);
  [done|].
destruct (Z.eqb_spec (http.StatusCode response) http.StatusNotFound);
  [done|].
eexists. split; [by eexists _, _|done].
Qed.

Lemma doRequest_send_failure c reqFields request cause w :
http_NewRequest P (Method reqFields) (Url reqFields) = Ok request →
http_Client_Do P (client c) request (net c) = (Err cause, w) →
doRequest P reqFields c
= (Fail (SendError reqFields cause), after_request P c reqFields w).
Proof. intros Hnew Hdo. unfold doRequest. simpl. by rewrite Hnew, Hdo. Qed.
End RequestFailures.

(** X1. When the request of an operation is answered with a status other
    than 200, 403 and 404, the operation fails with the [ApiError] that
    carries that status and the details "unexpected status code <status>";
    this holds for [ListGet], [WatchlistGet], [ListsGetAll] (its request of
    the lists page), [RatingsGet], [UserIdScrape] and [WatchlistIdScrape],
    and the client is left as after the request. *)
Theorem unexpected_status_fails_operation (P : Platform) (c : ImdbClient P)
    (reqFields : RequestFields) (response : http.Response (Body P))
    (w : World P) :
responds P c reqFields response w →
http.StatusCode response ≠ http.StatusOK →
http.StatusCode response ≠ http.StatusForbidden →
http.StatusCode response ≠ http.StatusNotFound →
∃ err,
  UnexpectedStatusError P (http.StatusCode response) err
  ∧ (∀ listId, reqFields = listExportFields listId →
       ListGet P listId c = (Fail err, after_request P c reqFields w))
  ∧ (reqFields = listExportFields (WatchlistId (config c)) →
     WatchlistGet P c = (Fail err, after_request P c reqFields w))
  ∧ (reqFields = listsFields (UserId (config c)) →
     ListsGetAll P c = (Fail err, after_request P c reqFields w))
  ∧ (reqFields = ratingsExportFields (UserId (config c)) →
     RatingsGet P c = (Fail err, after_request P c reqFields w))
  ∧ (reqFields = profileFields →
     UserIdScrape P c = (Fail err, after_request P c reqFields w))
  ∧ (reqFields = watchlistFields →
     WatchlistIdScrape P c = (Fail err, after_request P c reqFields w)).
Proof.
intros Hr H200 H403 H404.
destruct (doRequest_unexpected P c reqFields response w Hr H200 H403 H404)
  as (err & Herr & Hdo).
exists err. split; [done|]. by apply request_error_propagates.
Qed.

(** X2. When the request of an operation is built and [client.Do] fails,
    the operation fails with "failure sending http request <method> <url>"
    wrapping the cause, for the same six operations; the request was handed
    over once and the client keeps its configuration. *)
Theorem send_failure_fails_operation (P : Platform) (c : ImdbClient P)
    (reqFields : RequestFields) (request : http.Request) (cause : error)
    (w : World P) :
http_NewRequest P (Method reqFields) (Url reqFields) = Ok request →
http_Client_Do P (client c) request (net c) = (Err cause, w) →
(∀ listId, reqFields = listExportFields listId →
   ListGet P listId c
   = (Fail (SendError reqFields cause), after_request P c reqFields w))
∧ (reqFields = listExportFields (WatchlistId (config c)) →
   WatchlistGet P c
   = (Fail (SendError reqFields cause), after_request P c reqFields w))
∧ (reqFields = listsFields (UserId (config c)) →
   ListsGetAll P c
   = (Fail (SendError reqFields cause), after_request P c reqFields w))
∧ (reqFields = ratingsExportFields (UserId (config c)) →
   RatingsGet P c
   = (Fail (SendError reqFields cause), after_request P c reqFields w))
∧ (reqFields = profileFields →
   UserIdScrape P c
   = (Fail (SendError reqFields cause), after_request P c reqFields w))
∧ (reqFields = watchlistFields →
   WatchlistIdScrape P c
   = (Fail (SendError reqFields cause), after_request P c reqFields w)).
Proof.
intros Hnew Hdo. apply request_error_propagates.
by apply (doRequest_send_failure P c reqFields request).
Qed.

(** X3. Only [ListGet] makes an error of a 404. When the ratings export, the
    lists page, the profile page or the watchlist page is answered 404, the
    body is decoded or scraped as that of a 200: [RatingsGet] returns what
    the CSV decoding of the body gives, [ListsGetAll] scans the body, and
    the two scrapes look for their attribute in it. In particular a 404
    whose body has no record, or no [user-list] element, gives an empty
    sequence and no error. *)
Theorem not_found_is_decoded_elsewhere (P : Platform) (c : ImdbClient P)
    (reqFields : RequestFields) (response : http.Response (Body P))
    (w : World P) :
responds P c reqFields response w →
http.StatusCode response = http.StatusNotFound →
(reqFields = ratingsExportFields (UserId (config c)) →
   RatingsGet P c
   = (readImdbRatingsResponse P response, after_request P c reqFields w)
   ∧ (csv_ReadAll P (http.Body_ response) = Ok [] →
      RatingsGet P c = (Ret [], after_request P c reqFields w)))
∧ (reqFields = listsFields (UserId (config c)) →
   ∀ doc,
     goquery_NewDocumentFromReader P (http.Body_ response) = Ok doc →
     ListsGetAll P c
     = ListsGetAll_each P
         (map (λ selection, goquery_Attr P selection (go "id"))
            (goquery_Find P doc (go ".user-list"))) []
         (after_request P c reqFields w)
     ∧ (goquery_Find P doc (go ".user-list") = [] →
        ListsGetAll P c = (Ret [], after_request P c reqFields w)))
∧ (reqFields = profileFields →
   ∀ userId,
     scrapeSelectionAttribute P (http.Body_ response) (clientNameImdb P)
       (go ".user-profile.userId") (go "data-userid") = Ok userId →
     UserIdScrape P c = set_UserId P userId (after_request P c reqFields w))
∧ (reqFields = watchlistFields →
   ∀ watchlistId,
     scrapeSelectionAttribute P (http.Body_ response) (clientNameImdb P)
       (go "meta[property='pageId']") (go "content") = Ok watchlistId →
     WatchlistIdScrape P c
     = set_WatchlistId P watchlistId (after_request P c reqFields w)).
Proof.
intros Hr Hs.
assert (doRequest P reqFields c
        = (Ret response, after_request P c reqFields w)) as Hdo.
{ apply doRequest_passes; auto. }
split_and!.
- intros ->. rewrite RatingsGet_eq, Hdo. split; [done|].
  intros Hcsv. unfold readImdbRatingsResponse. by rewrite Hcsv.
- intros -> doc Hdoc. rewrite ListsGetAll_eq, Hdo, Hdoc. split; [done|].
  by intros ->.
- intros -> userId Hid. by rewrite UserIdScrape_eq, Hdo, Hid.
- intros -> watchlistId Hid. by rewrite WatchlistIdScrape_eq, Hdo, Hid.
Qed.

(** * Beyond the claims: what the operations leave alone *)

Section Frames.
Context (P : Platform).

Lemma WatchlistGet_frame c :
calls (WatchlistGet P c).2
= calls c ++ [listExportFields (WatchlistId (config c))]
∧ config (WatchlistGet P c).2 = config c
∧ logger (WatchlistGet P c).2 = logger c
∧ client (WatchlistGet P c).2 = client c.
Proof.
rewrite WatchlistGet_eq.
pose proof (ListGet_frame P (WatchlistId (config c)) c) as H.
by destruct (ListGet P _ c) as [[list| |] c'].
Qed.

Lemma RatingsGet_frame c :
calls (RatingsGet P c).2
= calls c ++ [ratingsExportFields (UserId (config c))]
∧ config (RatingsGet P c).2 = config c
∧ logger (RatingsGet P c).2 = logger c
∧ client (RatingsGet P c).2 = client c.
Proof.
rewrite RatingsGet_eq.
pose proof (doRequest_frame P c (ratingsExportFields (UserId (config c))))
  as H.
by destruct (doRequest P _ c) as [[response| |] c'].
Qed.

(** The scrapes touch one id each, and nothing when they fail. *)
Lemma UserIdScrape_config c :
CookieAtMain (config (UserIdScrape P c).2) = CookieAtMain (config c)
∧ CookieUbidMain (config (UserIdScrape P c).2) = CookieUbidMain (config c)
∧ logger (UserIdScrape P c).2 = logger c
∧ ((UserIdScrape P c).1 ≠ Ret tt → config (UserIdScrape P c).2 = config c).
Proof.
rewrite UserIdScrape_eq.
pose proof (doRequest_frame P c profileFields) as (_ & Hc & Hl & _).
destruct (doRequest P _ c) as [[response| |] c']; simpl in *;
  [|by rewrite Hc, Hl..].
case_match; simpl; rewrite ?Hc, ?Hl; done.
Qed.

Lemma WatchlistIdScrape_config c :
CookieAtMain (config (WatchlistIdScrape P c).2) = CookieAtMain (config c)
∧ CookieUbidMain (config (WatchlistIdScrape P c).2)
  = CookieUbidMain (config c)
∧ logger (WatchlistIdScrape P c).2 = logger c
∧ ((WatchlistIdScrape P c).1 ≠ Ret tt →
   config (WatchlistIdScrape P c).2 = config c).
Proof.
rewrite WatchlistIdScrape_eq.
pose proof (doRequest_frame P c watchlistFields) as (_ & Hc & Hl & _).
destruct (doRequest P _ c) as [[response| |] c']; simpl in *;
  [|by rewrite Hc, Hl..].
case_match; simpl; rewrite ?Hc, ?Hl; done.
Qed.

Lemma ListsGetAll_each_frame attrs lists c :
config (ListsGetAll_each P attrs lists c).2 = config c
∧ client (ListsGetAll_each P attrs lists c).2 = client c.
Proof.
revert lists c. induction attrs as [|[listId|] rest IH]; intros lists c.
- done.
- simpl. pose proof (ListGet_frame P listId c) as (_ & Hc & _ & Hj).
  destruct (ListGet P listId c) as [[list|err|] c1]; simpl in *.
  + destruct (IH (lists ++ [mkImdbList (ListName list) (ListId list)
                              (ListItems list)
                              (buildTraktListName (unicode_To_LowerCase P)
                                 (ListName list))
                              (IsWatchlist list)]) c1) as [-> ->]. done.
  + change (config (ListsGetAll_each P rest lists
                      (after_scan_error P c1 err)).2 = config c
            ∧ client (ListsGetAll_each P rest lists
                        (after_scan_error P c1 err)).2 = client c).
    destruct (IH lists (after_scan_error P c1 err)) as [-> ->]. done.
  + done.
- change (config (ListsGetAll_each P rest lists (after_scan_info P c)).2
          = config c
          ∧ client (ListsGetAll_each P rest lists (after_scan_info P c)).2
            = client c).
  destruct (IH lists (after_scan_info P c)) as [-> ->]. done.
Qed.

Lemma ListsGetAll_frame c :
config (ListsGetAll P c).2 = config c
∧ client (ListsGetAll P c).2 = client c.
Proof.
rewrite ListsGetAll_eq.
pose proof (doRequest_frame P c (listsFields (UserId (config c))))
  as (_ & Hc & _ & Hj).
destruct (doRequest P _ c) as [[response| |] c1]; simpl in *; [|done..].
destruct (goquery_NewDocumentFromReader P _) as [doc|]; [|done].
destruct (ListsGetAll_each_frame
            (map (λ selection, goquery_Attr P selection (go "id"))
               (goquery_Find P doc (go ".user-list"))) [] c1) as [-> ->].
done.
Qed.
End Frames.

(** X4. No operation changes the session tokens or the cookie jar of the
    client; [ListGet], [WatchlistGet], [ListsGetAll] and [RatingsGet] leave
    the whole configuration as it is; [UserIdScrape] and
    [WatchlistIdScrape] change the configuration only when they succeed;
    and every operation but [ListsGetAll] writes nothing to the logger. *)
Theorem operations_keep_configuration (P : Platform) (c : ImdbClient P) :
(∀ listId,
    config (ListGet P listId c).2 = config c
    ∧ client (ListGet P listId c).2 = client c
    ∧ logger (ListGet P listId c).2 = logger c)
∧ (config (WatchlistGet P c).2 = config c
   ∧ client (WatchlistGet P c).2 = client c
   ∧ logger (WatchlistGet P c).2 = logger c)
∧ (config (RatingsGet P c).2 = config c
   ∧ client (RatingsGet P c).2 = client c
   ∧ logger (RatingsGet P c).2 = logger c)
∧ (config (ListsGetAll P c).2 = config c
   ∧ client (ListsGetAll P c).2 = client c)
∧ (CookieAtMain (config (UserIdScrape P c).2) = CookieAtMain (config c)
   ∧ CookieUbidMain (config (UserIdScrape P c).2) = CookieUbidMain (config c)
   ∧ WatchlistId (config (UserIdScrape P c).2) = WatchlistId (config c)
   ∧ client (UserIdScrape P c).2 = client c
   ∧ logger (UserIdScrape P c).2 = logger c
   ∧ ((UserIdScrape P c).1 ≠ Ret tt → config (UserIdScrape P c).2 = config c))
∧ (CookieAtMain (config (WatchlistIdScrape P c).2) = CookieAtMain (config c)
   ∧ CookieUbidMain (config (WatchlistIdScrape P c).2)
     = CookieUbidMain (config c)
   ∧ UserId (config (WatchlistIdScrape P c).2) = UserId (config c)
   ∧ client (WatchlistIdScrape P c).2 = client c
   ∧ logger (WatchlistIdScrape P c).2 = logger c
   ∧ ((WatchlistIdScrape P c).1 ≠ Ret tt →
      config (WatchlistIdScrape P c).2 = config c)).
Proof.
split_and!.
- intros listId. by destruct (ListGet_frame P listId c) as (_ & ? & ? & ?).
- by destruct (WatchlistGet_frame P c) as (_ & ? & ? & ?).
- by destruct (WatchlistGet_frame P c) as (_ & ? & ? & ?).
- by destruct (WatchlistGet_frame P c) as (_ & ? & ? & ?).
- by destruct (RatingsGet_frame P c) as (_ & ? & ? & ?).
- by destruct (RatingsGet_frame P c) as (_ & ? & ? & ?).
- by destruct (RatingsGet_frame P c) as (_ & ? & ? & ?).
- by destruct (ListsGetAll_frame P c).
- by destruct (ListsGetAll_frame P c).
- by destruct (UserIdScrape_config P c) as (? & _).
- by destruct (UserIdScrape_config P c) as (_ & ? & _).
- by destruct (UserIdScrape_frame P c) as (_ & ? & _).
- by destruct (UserIdScrape_frame P c) as (_ & _ & ?).
- by destruct (UserIdScrape_config P c) as (_ & _ & ? & _).
- by destruct (UserIdScrape_config P c) as (_ & _ & _ & ?).
- by destruct (WatchlistIdScrape_config P c) as (? & _).
- by destruct (WatchlistIdScrape_config P c) as (_ & ? & _).
- by destruct (WatchlistIdScrape_frame P c) as (_ & ? & _).
- by destruct (WatchlistIdScrape_frame P c) as (_ & _ & ?).
- by destruct (WatchlistIdScrape_config P c) as (_ & _ & ? & _).
- by destruct (WatchlistIdScrape_config P c) as (_ & _ & _ & ?).
Qed.

(** X5. Each of [ListGet], [WatchlistGet], [RatingsGet], [UserIdScrape] and
    [WatchlistIdScrape] hands exactly one request to [doRequest], whatever
    comes back: nothing is retried, and the ids in the paths are those the
    client holds when the operation starts. *)
Theorem one_request_per_operation (P : Platform) (c : ImdbClient P) :
(∀ listId,
    calls (ListGet P listId c).2 = calls c ++ [listExportFields listId])
∧ calls (WatchlistGet P c).2
  = calls c ++ [listExportFields (WatchlistId (config c))]
∧ calls (RatingsGet P c).2
  = calls c ++ [ratingsExportFields (UserId (config c))]
∧ calls (UserIdScrape P c).2 = calls c ++ [profileFields]
∧ calls (WatchlistIdScrape P c).2 = calls c ++ [watchlistFields].
Proof.
split_and!.
- intros listId. by destruct (ListGet_frame P listId c) as (? & _).
- by destruct (WatchlistGet_frame P c) as (? & _).
- by destruct (RatingsGet_frame P c) as (? & _).
- by destruct (UserIdScrape_frame P c) as (? & _).
- by destruct (WatchlistIdScrape_frame P c) as (? & _).
Qed.

(** * Beyond the claims: the catalog scan *)

Section ScanFacts.
Context (P : Platform).

Lemma ListsGetAll_each_info rest lists c :
ListsGetAll_each P (None :: rest) lists c
= ListsGetAll_each P rest lists (after_scan_info P c).
Proof. reflexivity. Qed.

(** What [ListGet] returns already has the slug the scan assigns. *)
Lemma ListGet_slug listId c list c' :
ListGet P listId c = (Ret list, c') →
mkImdbList (ListName list) (ListId list) (ListItems list)
  (buildTraktListName (unicode_To_LowerCase P) (ListName list))
  (IsWatchlist list)
= list
∧ IsWatchlist list = false
∧ 46%N ∉ ListName list.
Proof.
intros H. apply ListGet_Ret in H. destruct H as (response & _ & _ & H).
apply readImdbListResponse_Ret in H.
destruct H as (csvData & params & _ & _ & _ & Hname & _ & Hslug & Hwl).
split_and!; [|done|].
- destruct list; simpl in *. by subst.
- rewrite Hname.
  by destruct (Split_head_prefix (default [] (params !! go "filename")) 46)
    as (? & _ & ? & _).
Qed.

Lemma ListsGetAll_each_panic listId rest lists c c' :
ListGet P listId c = (Panic, c') →
ListsGetAll_each P (Some listId :: rest) lists c = (Panic, c').
Proof. intros H. simpl. by rewrite H. Qed.

(** The three ways one step of the scan goes. *)
Lemma ListsGetAll_each_step listId rest lists c :
(∃ list c1,
    ListGet P listId c = (Ret list, c1)
    ∧ ListsGetAll_each P (Some listId :: rest) lists c
      = ListsGetAll_each P rest (lists ++ [list]) c1)
∨ (∃ err c1,
      ListGet P listId c = (Fail err, c1)
      ∧ ListsGetAll_each P (Some listId :: rest) lists c
        = ListsGetAll_each P rest lists (after_scan_error P c1 err))
∨ (∃ c1,
      ListGet P listId c = (Panic, c1)
      ∧ ListsGetAll_each P (Some listId :: rest) lists c = (Panic, c1)).
Proof.
destruct (ListGet P listId c) as [[list|err|] c1] eqn:E.
- left. exists list, c1. split; [done|].
  rewrite (ListsGetAll_each_keep P listId rest lists c list c1 E).
  by destruct (ListGet_slug listId c list c1 E) as (-> & _).
- right. left. exists err, c1. split; [done|].
  by apply ListsGetAll_each_skip.
- right. right. exists c1. split; [done|]. by apply ListsGetAll_each_panic.
Qed.

Lemma ListsGetAll_each_no_Fail attrs lists c err :
(ListsGetAll_each P attrs lists c).1 ≠ Fail err.
Proof.
revert lists c. induction attrs as [|[listId|] rest IH]; intros lists c.
- done.
- destruct (ListsGetAll_each_step listId rest lists c)
    as [(list & c1 & _ & ->)|[(err' & c1 & _ & ->)|(c1 & _ & ->)]];
    [apply IH..|done].
- rewrite ListsGetAll_each_info. apply IH.
Qed.

Lemma ListsGetAll_each_calls attrs lists c :
(ListsGetAll_each P attrs lists c).1 ≠ Panic →
calls (ListsGetAll_each P attrs lists c).2
= calls c ++ map listExportFields (omap id attrs).
Proof.
revert lists c. induction attrs as [|[listId|] rest IH]; intros lists c.
- intros _. simpl. by rewrite app_nil_r.
- pose proof (ListGet_frame P listId c) as (Hc & _).
  change (omap id (Some listId :: rest)) with (listId :: omap id rest).
  destruct (ListsGetAll_each_step listId rest lists c)
    as [(list & c1 & E & ->)|[(err' & c1 & E & ->)|(c1 & _ & ->)]];
    [| |done]; rewrite E in Hc; simpl in Hc; intros Hn.
  + rewrite (IH _ c1 Hn), Hc. by rewrite <- app_assoc.
  + rewrite (IH _ _ Hn). simpl. rewrite Hc. by rewrite <- app_assoc.
- rewrite ListsGetAll_each_info. intros Hn.
  by rewrite (IH lists (after_scan_info P c) Hn).
Qed.

Lemma ListsGetAll_each_account attrs lists c out c' :
ListsGetAll_each P attrs lists c = (Ret out, c') →
length out + length (logger c')
= length lists + length (logger c) + length attrs.
Proof.
revert lists c. induction attrs as [|[listId|] rest IH]; intros lists c.
- intros [= <- <-]. simpl. lia.
- pose proof (ListGet_frame P listId c) as (_ & _ & Hl & _).
  destruct (ListsGetAll_each_step listId rest lists c)
    as [(list & c1 & E & ->)|[(err' & c1 & E & ->)|(c1 & _ & ->)]];
    [| |done]; rewrite E in Hl; simpl in Hl; intros H; apply IH in H.
  + rewrite length_app, Hl in H. simpl in *. lia.
  + simpl in *. rewrite length_app, Hl in H. simpl in *. lia.
- rewrite ListsGetAll_each_info. intros H. apply IH in H.
  simpl in *. rewrite length_app in H. simpl in *. lia.
Qed.

Lemma ListsGetAll_each_lists attrs lists c out c' :
ListsGetAll_each P attrs lists c = (Ret out, c') →
∃ new,
  out = lists ++ new
  ∧ Forall (λ list,
      IsWatchlist list = false
      ∧ TraktListSlug list
        = buildTraktListName (unicode_To_LowerCase P) (ListName list)
      ∧ 46%N ∉ ListName list) new.
Proof.
revert lists c. induction attrs as [|[listId|] rest IH]; intros lists c.
- intros [= <- <-]. exists []. by rewrite app_nil_r.
- destruct (ListsGetAll_each_step listId rest lists c)
    as [(list & c1 & E & ->)|[(err' & c1 & E & ->)|(c1 & _ & ->)]];
    [| |done]; intros H; apply IH in H; [|done].
  destruct H as (new & -> & Hnew).
  apply ListGet_slug in E. destruct E as (Heq & Hwl & Hdot).
  exists (list :: new). rewrite <- app_assoc.
  split; [done|]. constructor; [|done]. split_and!; [done| |done].
  by rewrite <- Heq at 1.
- rewrite ListsGetAll_each_info. intros H. by apply IH in H.
Qed.
End ScanFacts.

(** X6. Once the lists page is fetched and parsed, and unless a decoding
    panics, [ListsGetAll] requests the export of every element that has an
    [id], once each and in document order, whether or not the fetches
    before it failed; it requests nothing else. *)
Theorem scan_requests_each_id_once (P : Platform) (c : ImdbClient P)
    (response : http.Response (Body P)) (c1 : ImdbClient P)
    (doc : Document P) :
doRequest P (listsFields (UserId (config c))) c = (Ret response, c1) →
goquery_NewDocumentFromReader P (http.Body_ response) = Ok doc →
(ListsGetAll P c).1 ≠ Panic →
calls (ListsGetAll P c).2
= calls c
  ++ listsFields (UserId (config c))
     :: map listExportFields
          (omap (λ selection, goquery_Attr P selection (go "id"))
             (goquery_Find P doc (go ".user-list"))).
Proof.
intros Hdo Hdoc. rewrite ListsGetAll_eq, Hdo, Hdoc. intros Hn.
rewrite (ListsGetAll_each_calls P _ _ _ Hn), omap_id_map.
destruct (doRequest_frame P c (listsFields (UserId (config c)))) as (Hc & _).
rewrite Hdo in Hc. simpl in Hc. rewrite Hc. by rewrite <- app_assoc.
Qed.

Lemma scan_requests_each_id_once_witness :
doRequest (Scripted.platform Scripted.site) (listsFields (go "ur1"))
  (Scripted.client_of (go "ur1"))
= (Ret Scripted.lists_page,
   after_request (Scripted.platform Scripted.site)
     (Scripted.client_of (go "ur1")) (listsFields (go "ur1")) 1)
∧ goquery_NewDocumentFromReader (Scripted.platform Scripted.site)
    (http.Body_ Scripted.lists_page)
  = Ok [Some (go "ls1"); Some (go "ls2"); Some (go "ls3")]
∧ (ListsGetAll (Scripted.platform Scripted.site)
     (Scripted.client_of (go "ur1"))).1
  = Ret [Scripted.my_watchlist]
∧ calls (ListsGetAll (Scripted.platform Scripted.site)
           (Scripted.client_of (go "ur1"))).2
  = [] ++ listsFields (go "ur1")
          :: map listExportFields [go "ls1"; go "ls2"; go "ls3"].
Proof.
split; [reflexivity|]. split; [reflexivity|]. split; [reflexivity|].
apply (scan_requests_each_id_once (Scripted.platform Scripted.site)
         (Scripted.client_of (go "ur1")) Scripted.lists_page
         (after_request (Scripted.platform Scripted.site)
            (Scripted.client_of (go "ur1")) (listsFields (go "ur1")) 1)
         [Some (go "ls1"); Some (go "ls2"); Some (go "ls3")]
         eq_refl eq_refl).
assert ((ListsGetAll (Scripted.platform Scripted.site)
           (Scripted.client_of (go "ur1"))).1
        = Ret [Scripted.my_watchlist]) as -> by reflexivity.
discriminate.
Defined.

(** X7. [ListsGetAll] fails only on its own page: with the error of the
    request of the lists page, or with "failure creating goquery document
    from imdb response" when the page does not parse. No failure of the
    export of a list makes it fail. *)
Theorem scan_fails_only_on_lists_page (P : Platform) (c : ImdbClient P)
    (err : error) (c' : ImdbClient P) :
ListsGetAll P c = (Fail err, c') →
doRequest P (listsFields (UserId (config c))) c = (Fail err, c')
∨ ∃ response cause,
    doRequest P (listsFields (UserId (config c))) c = (Ret response, c')
    ∧ goquery_NewDocumentFromReader P (http.Body_ response) = Err cause
    ∧ err
      = Errorw (go "failure creating goquery document from imdb response")
          cause.
Proof.
rewrite ListsGetAll_eq.
destruct (doRequest P _ c) as [[response|err'|] c1]; [|intros [= -> ->]; by left|done].
destruct (goquery_NewDocumentFromReader P _) as [doc|cause] eqn:Hdoc.
- intros H.
  pose proof (ListsGetAll_each_no_Fail P
                (map (λ selection, goquery_Attr P selection (go "id"))
                   (goquery_Find P doc (go ".user-list"))) [] c1 err) as Hn.
  by rewrite H in Hn.
- intros [= <- <-]. right. by exists response, cause.
Qed.

Lemma scan_fails_only_on_lists_page_witness :
ListsGetAll (Scripted.platform Outage.down)
  (Scripted.a_client Outage.down (go "ur1") (go "ls2"))
= (Fail (Api (mkApiError (go "imdb") (go "GET") (Url (listsFields (go "ur1")))
                500 (go "unexpected status code 500"))),
   after_request (Scripted.platform Outage.down)
     (Scripted.a_client Outage.down (go "ur1") (go "ls2"))
     (listsFields (go "ur1")) 1)
∧ (doRequest (Scripted.platform Outage.down) (listsFields (go "ur1"))
     (Scripted.a_client Outage.down (go "ur1") (go "ls2"))
   = (Fail (Api (mkApiError (go "imdb") (go "GET")
                   (Url (listsFields (go "ur1"))) 500
                   (go "unexpected status code 500"))),
      after_request (Scripted.platform Outage.down)
        (Scripted.a_client Outage.down (go "ur1") (go "ls2"))
        (listsFields (go "ur1")) 1)
   ∨ ∃ response cause,
       doRequest (Scripted.platform Outage.down) (listsFields (go "ur1"))
         (Scripted.a_client Outage.down (go "ur1") (go "ls2"))
       = (Ret response,
          after_request (Scripted.platform Outage.down)
            (Scripted.a_client Outage.down (go "ur1") (go "ls2"))
            (listsFields (go "ur1")) 1)
       ∧ goquery_NewDocumentFromReader (Scripted.platform Outage.down)
           (http.Body_ response) = Err cause
       ∧ Api (mkApiError (go "imdb") (go "GET")
                (Url (listsFields (go "ur1"))) 500
                (go "unexpected status code 500"))
         = Errorw
             (go "failure creating goquery document from imdb response")
             cause).
Proof.
split; [reflexivity|].
exact (scan_fails_only_on_lists_page (Scripted.platform Outage.down)
         (Scripted.a_client Outage.down (go "ur1") (go "ls2"))
         (Api (mkApiError (go "imdb") (go "GET")
                 (Url (listsFields (go "ur1"))) 500
                 (go "unexpected status code 500")))
         (after_request (Scripted.platform Outage.down)
            (Scripted.a_client Outage.down (go "ur1") (go "ls2"))
            (listsFields (go "ur1")) 1)
         eq_refl).
Defined.

(** X8. In a scan that returns, every selected element is accounted for:
    it gave a list of the result, or one entry of the logger (an error for a
    failed fetch, an info for an element without [id]). *)
Theorem scan_accounts_for_every_element (P : Platform) (c : ImdbClient P)
    (response : http.Response (Body P)) (c1 : ImdbClient P)
    (doc : Document P) (lists : list (ImdbList P)) :
doRequest P (listsFields (UserId (config c))) c = (Ret response, c1) →
goquery_NewDocumentFromReader P (http.Body_ response) = Ok doc →
(ListsGetAll P c).1 = Ret lists →
length lists + length (logger (ListsGetAll P c).2)
= length (logger c) + length (goquery_Find P doc (go ".user-list")).
Proof.
intros Hdo Hdoc. rewrite ListsGetAll_eq, Hdo, Hdoc.
destruct (ListsGetAll_each P _ [] c1) as [o c'] eqn:H. simpl. intros ->.
apply ListsGetAll_each_account in H. rewrite length_map in H.
destruct (doRequest_frame P c (listsFields (UserId (config c))))
  as (_ & _ & Hl & _).
rewrite Hdo in Hl. simpl in Hl. rewrite Hl in H. simpl in H. lia.
Qed.

Lemma scan_accounts_for_every_element_witness :
(ListsGetAll (Scripted.platform Scripted.site)
   (Scripted.client_of (go "ur1"))).1
= Ret [Scripted.my_watchlist]
∧ length [Scripted.my_watchlist]
  + length (logger (ListsGetAll (Scripted.platform Scripted.site)
                      (Scripted.client_of (go "ur1"))).2)
  = length (logger (Scripted.client_of (go "ur1")))
    + length (goquery_Find (Scripted.platform Scripted.site)
                [Some (go "ls1"); Some (go "ls2"); Some (go "ls3")]
                (go ".user-list")).
Proof.
split; [reflexivity|].
exact (scan_accounts_for_every_element (Scripted.platform Scripted.site)
         (Scripted.client_of (go "ur1")) Scripted.lists_page
         (after_request (Scripted.platform Scripted.site)
            (Scripted.client_of (go "ur1")) (listsFields (go "ur1")) 1)
         [Some (go "ls1"); Some (go "ls2"); Some (go "ls3")]
         [Scripted.my_watchlist] eq_refl eq_refl eq_refl).
Defined.

(** X9. The scan appends the list exactly as [ListGet] returned it: the
    slug it assigns is the one the list already has. It then goes on from
    the client as [ListGet] left it. *)
Theorem scan_keeps_fetched_list (P : Platform) (c : ImdbClient P)
    (listId : list N) (fetched : ImdbList P) (c1 : ImdbClient P)
    (rest : list (option (list N))) (lists : list (ImdbList P)) :
ListGet P listId c = (Ret fetched, c1) →
ListsGetAll_each P (Some listId :: rest) lists c
= ListsGetAll_each P rest (lists ++ [fetched]) c1.
Proof.
intros E.
destruct (ListsGetAll_each_step P listId rest lists c)
  as [(list' & c2 & E' & ->)|[(err' & c2 & E' & _)|(c2 & E' & _)]];
  rewrite E in E'; [|done..].
by injection E' as <- <-.
Qed.

Lemma scan_keeps_fetched_list_witness :
ListGet (Scripted.platform Scripted.site) (go "ls2")
  (Scripted.client_of (go "ur1"))
= (Ret Scripted.my_watchlist,
   after_request (Scripted.platform Scripted.site)
     (Scripted.client_of (go "ur1")) (listExportFields (go "ls2")) 1)
∧ ListsGetAll_each (Scripted.platform Scripted.site)
    [Some (go "ls2"); Some (go "ls3")] [] (Scripted.client_of (go "ur1"))
  = ListsGetAll_each (Scripted.platform Scripted.site) [Some (go "ls3")]
      ([] ++ [Scripted.my_watchlist])
      (after_request (Scripted.platform Scripted.site)
         (Scripted.client_of (go "ur1")) (listExportFields (go "ls2")) 1).
Proof.
split; [reflexivity|].
exact (scan_keeps_fetched_list (Scripted.platform Scripted.site)
         (Scripted.client_of (go "ur1")) (go "ls2") Scripted.my_watchlist
         (after_request (Scripted.platform Scripted.site)
            (Scripted.client_of (go "ur1")) (listExportFields (go "ls2")) 1)
         [Some (go "ls3")] [] eq_refl).
Defined.

(** X10. Every list an operation returns is well formed: its slug is
    [buildTraktListName] of its name and holds only lowercase letters,
    digits and hyphens, and its name holds no dot. A list of [ListGet] has
    the id asked for and is not flagged as watchlist; the list of
    [WatchlistGet] has the watchlist id of the client and is flagged; the
    lists of [ListsGetAll] are not flagged. *)
Theorem returned_lists_are_well_formed (P : Platform) (c : ImdbClient P) :
(∀ listId list c', ListGet P listId c = (Ret list, c') →
   ListId list = listId ∧ IsWatchlist list = false
   ∧ TraktListSlug list
     = buildTraktListName (unicode_To_LowerCase P) (ListName list)
   ∧ Forall (λ r, slug_rune r = true) (TraktListSlug list)
   ∧ 46%N ∉ ListName list)
∧ (∀ list c', WatchlistGet P c = (Ret list, c') →
     ListId list = WatchlistId (config c) ∧ IsWatchlist list = true
     ∧ TraktListSlug list
       = buildTraktListName (unicode_To_LowerCase P) (ListName list)
     ∧ Forall (λ r, slug_rune r = true) (TraktListSlug list)
     ∧ 46%N ∉ ListName list)
∧ (∀ lists c', ListsGetAll P c = (Ret lists, c') →
     Forall (λ list,
       IsWatchlist list = false
       ∧ TraktListSlug list
         = buildTraktListName (unicode_To_LowerCase P) (ListName list)
       ∧ Forall (λ r, slug_rune r = true) (TraktListSlug list)
       ∧ 46%N ∉ ListName list) lists).
Proof.
assert (∀ c0 listId list c',
          ListGet P listId c0 = (Ret list, c') →
          ListId list = listId ∧ IsWatchlist list = false
          ∧ TraktListSlug list
            = buildTraktListName (unicode_To_LowerCase P) (ListName list)
          ∧ Forall (λ r, slug_rune r = true) (TraktListSlug list)
          ∧ 46%N ∉ ListName list) as Hget.
{ intros c0 listId list c' E.
  destruct (ListGet_unrated P listId c0 list c' E) as [Hid _].
  destruct (ListGet_slug P listId c0 list c' E) as (Heq & Hwl & Hdot).
  assert (TraktListSlug list
          = buildTraktListName (unicode_To_LowerCase P) (ListName list))
    as Hslug by (by rewrite <- Heq at 1).
  split_and!; try done. rewrite Hslug. apply regexp_strip_slug. }
split_and!.
- intros listId list c'. apply Hget.
- intros list c'. rewrite WatchlistGet_eq.
  destruct (ListGet P _ c) as [[list'| |] c1] eqn:E; [|done..].
  intros [= <- _]. simpl.
  destruct (Hget c _ list' c1 E) as (? & _ & ? & ? & ?). done.
- intros lists c'. rewrite ListsGetAll_eq.
  destruct (doRequest P _ c) as [[response| |] c1]; [|done..].
  destruct (goquery_NewDocumentFromReader P _) as [doc|]; [|done].
  intros H. apply ListsGetAll_each_lists in H.
  destruct H as (new & -> & Hnew). simpl.
  eapply Forall_impl; [exact Hnew|]. intros list (Hwl & Hslug & Hdot).
  split_and!; try done. rewrite Hslug. apply regexp_strip_slug.
Qed.

(** X11. A decoding that returns has one item for each record but the
    first: the list of a list export has as many items as the body has
    records, less one, and so has the sequence of a ratings export. A body
    of no record, or of the header alone, gives no item and cannot panic. *)
Theorem decoders_yield_one_item_per_record (P : Platform)
    (res : http.Response (Body P)) (csvData : list (list (list N))) :
csv_ReadAll P (http.Body_ res) = Ok csvData →
(∀ listId list, readImdbListResponse P res listId = Ret list →
   length (ListItems list) = length csvData - 1)
∧ (∀ items, readImdbRatingsResponse P res = Ret items →
     length items = length csvData - 1)
∧ (length csvData ≤ 1 →
   readImdbRatingsResponse P res = Ret []
   ∧ ∀ listId,
       readImdbListResponse P res listId ≠ Panic
       ∧ ∀ list, readImdbListResponse P res listId = Ret list →
                 ListItems list = []).
Proof.
intros Hcsv.
assert (length (tail csvData) = length csvData - 1) as Htl
  by (destruct csvData; simpl; lia).
split_and!.
- intros listId list H. apply readImdbListResponse_Ret in H.
  destruct H as (csvData' & params & Hcsv' & Hitems & _).
  rewrite Hcsv in Hcsv'. injection Hcsv' as <-.
  apply decode_records_Ret, Forall2_length in Hitems. lia.
- intros items. rewrite (readImdbRatingsResponse_eq P res csvData Hcsv).
  intros H. apply decode_records_Ret, Forall2_length in H. lia.
- intros Hshort.
  assert (tail csvData = []) as Hnil.
  { destruct csvData as [|header [|record rest]]; simpl in *; [done..|lia]. }
  rewrite (readImdbRatingsResponse_eq P res csvData Hcsv), Hnil.
  split; [done|]. intros listId. split.
  + intros Hp.
    assert (decode_records (listItems_record P) (tail csvData) = Panic) as Hd.
    { revert Hp. unfold readImdbListResponse.
      rewrite Hcsv, listItems_range_tail.
      destruct (decode_records _ _) as [items|err|]; [|done..].
      case_bool_decide; [done|].
      destruct (mime_ParseMediaType P _) as [[mediatype params]|]; [|done].
      by case_bool_decide. }
    by rewrite Hnil in Hd.
  + intros list H. apply readImdbListResponse_Ret in H.
    destruct H as (csvData' & params & Hcsv' & Hitems & _).
    rewrite Hcsv in Hcsv'. injection Hcsv' as <-.
    rewrite Hnil in Hitems. simpl in Hitems. by injection Hitems.
Qed.

Lemma decoders_yield_one_item_per_record_witness :
csv_ReadAll (Scripted.platform Scripted.site)
  (http.Body_ Scripted.watchlist_export)
= Ok Scripted.watchlist_records
∧ readImdbListResponse (Scripted.platform Scripted.site)
    Scripted.watchlist_export (go "ls2")
  = Ret Scripted.my_watchlist
∧ length (ListItems Scripted.my_watchlist)
  = length Scripted.watchlist_records - 1.
Proof.
split; [reflexivity|]. split; [reflexivity|].
exact (proj1 (decoders_yield_one_item_per_record
                (Scripted.platform Scripted.site) Scripted.watchlist_export
                Scripted.watchlist_records eq_refl)
         (go "ls2") Scripted.my_watchlist eq_refl).
Defined.

(** * Beyond the claims: more on the slug *)

Lemma FieldsFunc_loop_space_only f post start spans :
Forall (λ r, f r = true) post →
FieldsFunc_loop f post start spans
= match start with Some w => spans ++ [w] | None => spans end.
Proof.
intros H. revert start spans.
induction H as [|r post Hr _ IH]; intros start spans; [done|].
simpl. rewrite Hr. destruct start; by rewrite IH.
Qed.

Lemma FieldsFunc_loop_space_before f pre s spans :
Forall (λ r, f r = true) pre →
FieldsFunc_loop f (pre ++ s) None spans = FieldsFunc_loop f s None spans.
Proof.
induction 1 as [|r pre Hr _ IH]; [done|]. simpl. by rewrite Hr.
Qed.

Lemma FieldsFunc_loop_space_after f s post start spans :
Forall (λ r, f r = true) post →
FieldsFunc_loop f (s ++ post) start spans = FieldsFunc_loop f s start spans.
Proof.
intros H. revert start spans. induction s as [|r s IH]; intros start spans.
- simpl. by apply FieldsFunc_loop_space_only.
- simpl. destruct (f r), start; by rewrite IH.
Qed.

(** X12. White space around a list name does not change its slug: a name
    with white space put before and after it has the slug of the name
    itself. *)
Theorem buildTraktListName_ignores_outer_space (lower : N → N)
    (pre s post : list N) :
Forall (λ r, unicode_IsSpace r = true) pre →
Forall (λ r, unicode_IsSpace r = true) post →
buildTraktListName lower (pre ++ s ++ post) = buildTraktListName lower s.
Proof.
intros Hpre Hpost. unfold buildTraktListName, strings_Fields.
by rewrite FieldsFunc_loop_space_before, FieldsFunc_loop_space_after.
Qed.

Lemma buildTraktListName_ignores_outer_space_witness :
Forall (λ r, unicode_IsSpace r = true) (go "  ")
∧ Forall (λ r, unicode_IsSpace r = true) [9%N; 160%N]
∧ buildTraktListName (λ r, r) (go "  " ++ go "Top 10" ++ [9%N; 160%N])
  = buildTraktListName (λ r, r) (go "Top 10").
Proof.
assert (Forall (λ r, unicode_IsSpace r = true) (go "  ")) as H1
  by (repeat constructor).
assert (Forall (λ r, unicode_IsSpace r = true) [9%N; 160%N]) as H2
  by (repeat constructor).
split; [exact H1|]. split; [exact H2|].
exact (buildTraktListName_ignores_outer_space (λ r, r) (go "  ")
         (go "Top 10") [9%N; 160%N] H1 H2).
Defined.

Lemma length_regexp_strip s : length (regexp_strip s) ≤ length s.
Proof.
induction s as [|r s IH]; simpl; [done|].
destruct (slug_rune r); simpl; lia.
Qed.

Lemma length_collapse_whitespace b s :
length (collapse_whitespace b s) ≤ length s.
Proof.
revert b. induction s as [|r s IH]; intros b; simpl; [done|].
pose proof (IH true). pose proof (IH false).
destruct (unicode_IsSpace r), b; simpl; lia.
Qed.

Lemma length_trim_left s : length (trim_left s) ≤ length s.
Proof.
induction s as [|r s IH]; simpl; [done|].
destruct (unicode_IsSpace r); simpl; lia.
Qed.

Lemma length_trim_right s : length (trim_right s) ≤ length s.
Proof.
induction s as [|r s IH]; simpl; [done|].
destruct (trim_right s), (unicode_IsSpace r); simpl in *; lia.
Qed.

(** X13. A slug is never longer than the name it is made from. *)
Theorem buildTraktListName_length (lower : N → N) (s : list N) :
length (buildTraktListName lower s) ≤ length s.
Proof.
unfold buildTraktListName. rewrite Join_Fields.
etrans; [apply length_regexp_strip|].
unfold strings_ToLower. rewrite length_map.
etrans; [apply length_collapse_whitespace|].
unfold strings_TrimSpace.
etrans; [apply length_trim_right|]. apply length_trim_left.
Qed.

(** X14. Letter case does not matter to the slug: the slug of the
    lowercased name is the slug of the name. The case table is assumed to
    map no rune above ASCII onto or off white space, and to give runes that
    lowercasing leaves alone, as that of package [unicode] does. *)
Theorem buildTraktListName_ignores_case (lower : N → N) (s : list N) :
(∀ r, (127 < r)%N → unicode_IsSpace (lower r) = unicode_IsSpace r) →
(∀ r, (127 < r)%N → unicode_ToLower lower (lower r) = lower r) →
buildTraktListName lower (strings_ToLower lower s)
= buildTraktListName lower s.
Proof.
intros Hspace Hidem. unfold buildTraktListName. rewrite !Join_Fields.
rewrite <- (ToLower_TrimSpace lower Hspace).
rewrite <- (ToLower_collapse_whitespace lower Hspace).
f_equal. generalize (collapse_whitespace false (strings_TrimSpace s)).
intros t. unfold strings_ToLower. rewrite map_map. apply map_ext.
intros r. simpl.
destruct (r <=? 127)%N eqn:E.
- unfold unicode_ToLower. rewrite E.
  destruct ((65 <=? r)%N && (r <=? 90)%N) eqn:E'; [|by rewrite E, E'].
  assert ((r + 32 <=? 127)%N = true) as -> by rune_arith.
  assert ((65 <=? r + 32)%N && (r + 32 <=? 90)%N = false) as ->
    by rune_arith.
  done.
- assert (unicode_ToLower lower r = lower r) as ->
    by (unfold unicode_ToLower; by rewrite E).
  apply Hidem. rune_arith.
Qed.

Lemma buildTraktListName_ignores_case_witness :
(∀ r : N, (127 < r)%N → unicode_IsSpace r = unicode_IsSpace r)
∧ (∀ r : N, (127 < r)%N → unicode_ToLower (λ r, r) r = r)
∧ buildTraktListName (λ r, r) (strings_ToLower (λ r, r) (go "My LIST"))
  = buildTraktListName (λ r, r) (go "My LIST").
Proof.
assert (∀ r : N, (127 < r)%N → unicode_ToLower (λ r, r) r = r) as H.
{ intros r Hr. unfold unicode_ToLower.
  destruct (N.leb_spec r 127) as [Hle|_]; [|reflexivity].
  exfalso. exact (proj1 (N.lt_nge _ _) Hr Hle). }
split; [reflexivity|]. split; [exact H|].
exact (buildTraktListName_ignores_case (λ r, r) (go "My LIST")
         (λ r _, eq_refl) H).
Defined.

(** * Beyond the claims: construction *)

Section Construction.
Context (P : Platform).

Lemma WatchlistIdScrape_no_panic c : (WatchlistIdScrape P c).1 ≠ Panic.
Proof.
rewrite WatchlistIdScrape_eq.
pose proof (doRequest_no_panic P watchlistFields c) as H.
destruct (doRequest P _ c) as [[response| |] c']; [|done..].
by case_match.
Qed.

(** How [hydrate] ends, and what it leaves of the client. *)
Lemma hydrate_outcome c :
((hydrate P c).1 = Ret tt
 ∨ (∃ cause,
       (hydrate P c).1 = Fail (Errorw (go "failure scraping imdb user id") cause)
       ∧ account_id_to_discover (config c))
 ∨ (∃ cause,
       (hydrate P c).1
       = Fail (Errorw (go "failure scraping imdb watchlist id") cause)))
∧ CookieAtMain (config (hydrate P c).2) = CookieAtMain (config c)
∧ CookieUbidMain (config (hydrate P c).2) = CookieUbidMain (config c)
∧ logger (hydrate P c).2 = logger c
∧ client (hydrate P c).2 = client c
∧ ((hydrate P c).1 = Ret tt →
   calls (hydrate P c).2 = calls c ++ [watchlistFields]
   ∨ calls (hydrate P c).2 = calls c ++ [profileFields; watchlistFields]).
Proof.
destruct (decide (account_id_to_discover (config c))) as [Hd|Hk].
- rewrite (hydrate_discover P c Hd).
  pose proof (UserIdScrape_frame P c) as (Hc & _ & Hj).
  pose proof (UserIdScrape_config P c) as (Ha & Hb & Hl & _).
  pose proof (UserIdScrape_no_panic P c) as Hn.
  destruct (UserIdScrape P c) as [[[]|err|] c1]; simpl in *; [| |done].
  + pose proof (WatchlistIdScrape_frame P c1) as (Hc1 & _ & Hj1).
    pose proof (WatchlistIdScrape_config P c1) as (Ha1 & Hb1 & Hl1 & _).
    pose proof (WatchlistIdScrape_no_panic c1) as Hn1.
    destruct (WatchlistIdScrape P c1) as [[[]|err|] c2]; simpl in *;
      [| |done].
    all: rewrite Ha1, Hb1, Hl1, Hj1, Ha, Hb, Hl, Hj.
    all: split_and!; try done; eauto.
    intros _. right. rewrite Hc1, Hc. by rewrite <- app_assoc.
  + rewrite Ha, Hb, Hl, Hj. split_and!; try done. right. left. eauto.
- rewrite (hydrate_known P c Hk).
  pose proof (WatchlistIdScrape_frame P c) as (Hc & _ & Hj).
  pose proof (WatchlistIdScrape_config P c) as (Ha & Hb & Hl & _).
  pose proof (WatchlistIdScrape_no_panic c) as Hn.
  destruct (WatchlistIdScrape P c) as [[[]|err|] c2]; simpl in *; [| |done].
  all: rewrite Ha, Hb, Hl, Hj.
  all: split_and!; try done; eauto.
Qed.
End Construction.

(** X15. [NewImdbClient] never panics. When it fails, the error is that of
    the cookie jar, returned as it is, or "failure hydrating imdb client"
    wrapping "failure scraping imdb user id" (only when the account id was
    to be discovered) or "failure scraping imdb watchlist id". When it
    returns a client, the client holds the jar built from the
    configuration and the two session tokens as given, nothing was logged,
    and one or two requests were made: the watchlist page, after the
    profile page if the account id was discovered. *)
Theorem NewImdbClient_outcomes (P : Platform) (config0 : ImdbConfig)
    (logger0 : list LogEntry) (net0 : World P) :
NewImdbClient P config0 logger0 net0 ≠ Panic
∧ (∀ err, NewImdbClient P config0 logger0 net0 = Fail err →
     setupCookieJar P config0 = Err err
     ∨ (∃ cause,
           err = Errorw (go "failure hydrating imdb client")
                   (Errorw (go "failure scraping imdb user id") cause)
           ∧ account_id_to_discover config0)
     ∨ (∃ cause,
           err = Errorw (go "failure hydrating imdb client")
                   (Errorw (go "failure scraping imdb watchlist id") cause)))
∧ (∀ cl, NewImdbClient P config0 logger0 net0 = Ret cl →
     setupCookieJar P config0 = Ok (client cl)
     ∧ CookieAtMain (config cl) = CookieAtMain config0
     ∧ CookieUbidMain (config cl) = CookieUbidMain config0
     ∧ logger cl = logger0
     ∧ (calls cl = [watchlistFields]
        ∨ calls cl = [profileFields; watchlistFields])).
Proof.
unfold NewImdbClient.
destruct (setupCookieJar P config0) as [jar|err0] eqn:Hjar.
- pose proof (hydrate_outcome P (mkImdbClient jar config0 logger0 net0 []))
    as (Hout & Ha & Hb & Hl & Hj & Hc).
  destruct (hydrate P (mkImdbClient jar config0 logger0 net0 []))
    as [[[]|err|] c']; simpl in *.
  + split_and!; [done..|]. intros cl [= <-].
    split_and!; [by rewrite Hj|done..|by apply Hc].
  + split_and!; [done| |done]. intros err' [= <-]. right.
    destruct Hout as [?|[(cause & [= ->] & ?)|(cause & [= ->])]];
      [done|left|right]; eauto.
  + by destruct Hout as [?|[(? & ? & _)|(? & ?)]].
- split_and!; [done| |done]. intros err [= <-]. by left.
Qed.

(** * Beyond the claims, on the scripted sites *)

Lemma scripted_responds
    (serve : list N → result (http.Response Scripted.page))
    (userId watchlistId : list N) (r : http.Response Scripted.page)
    (reqFields : RequestFields) :
serve (Url reqFields) = Ok r →
responds (Scripted.platform serve)
  (Scripted.a_client serve userId watchlistId) reqFields r 1.
Proof.
intros H. exists (http.mkRequest (Method reqFields) (Url reqFields)).
split; [reflexivity|]. simpl. by rewrite H.
Defined.

Lemma unexpected_status_fails_operation_witness :
responds (Scripted.platform Outage.down)
  (Scripted.a_client Outage.down (go "ur1") (go "ls2"))
  (listExportFields (go "ls1"))
  (Scripted.answer (Url (listExportFields (go "ls1"))) 500 []
     Scripted.Unreadable) 1
∧ ∃ err,
    UnexpectedStatusError (Scripted.platform Outage.down) 500 err
    ∧ ListGet (Scripted.platform Outage.down) (go "ls1")
        (Scripted.a_client Outage.down (go "ur1") (go "ls2"))
      = (Fail err,
         after_request (Scripted.platform Outage.down)
           (Scripted.a_client Outage.down (go "ur1") (go "ls2"))
           (listExportFields (go "ls1")) 1).
Proof.
assert (responds (Scripted.platform Outage.down)
          (Scripted.a_client Outage.down (go "ur1") (go "ls2"))
          (listExportFields (go "ls1"))
          (Scripted.answer (Url (listExportFields (go "ls1"))) 500 []
             Scripted.Unreadable) 1) as Hr.
{ apply scripted_responds. reflexivity. }
split; [exact Hr|].
destruct (unexpected_status_fails_operation (Scripted.platform Outage.down)
            (Scripted.a_client Outage.down (go "ur1") (go "ls2"))
            (listExportFields (go "ls1"))
            (Scripted.answer (Url (listExportFields (go "ls1"))) 500 []
               Scripted.Unreadable) 1 Hr
            ltac:(discriminate) ltac:(discriminate) ltac:(discriminate))
  as (err & Herr & Hget & _).
exists err. split; [exact Herr|]. exact (Hget (go "ls1") eq_refl).
Defined.

Lemma send_failure_fails_operation_witness :
http_NewRequest (Scripted.platform Outage.offline) http.MethodGet
  (Url (ratingsExportFields (go "ur1")))
= Ok (http.mkRequest http.MethodGet (Url (ratingsExportFields (go "ur1"))))
∧ http_Client_Do (Scripted.platform Outage.offline) []
    (http.mkRequest http.MethodGet (Url (ratingsExportFields (go "ur1")))) 0
  = (Err Outage.refused, 1)
∧ RatingsGet (Scripted.platform Outage.offline)
    (Scripted.a_client Outage.offline (go "ur1") (go "ls2"))
  = (Fail (SendError (ratingsExportFields (go "ur1")) Outage.refused),
     after_request (Scripted.platform Outage.offline)
       (Scripted.a_client Outage.offline (go "ur1") (go "ls2"))
       (ratingsExportFields (go "ur1")) 1).
Proof.
split; [reflexivity|]. split; [reflexivity|].
destruct (send_failure_fails_operation (Scripted.platform Outage.offline)
            (Scripted.a_client Outage.offline (go "ur1") (go "ls2"))
            (ratingsExportFields (go "ur1"))
            (http.mkRequest http.MethodGet
               (Url (ratingsExportFields (go "ur1"))))
            Outage.refused 1 eq_refl eq_refl)
  as (_ & _ & _ & Hratings & _).
exact (Hratings eq_refl).
Defined.

Lemma not_found_is_decoded_elsewhere_witness :
responds (Scripted.platform Scripted.site) (Scripted.client_of (go "ur9"))
  (ratingsExportFields (go "ur9"))
  (Scripted.answer (Url (ratingsExportFields (go "ur9"))) 404 []
     Scripted.Unreadable) 1
∧ RatingsGet (Scripted.platform Scripted.site) (Scripted.client_of (go "ur9"))
  = (readImdbRatingsResponse (Scripted.platform Scripted.site)
       (Scripted.answer (Url (ratingsExportFields (go "ur9"))) 404 []
          Scripted.Unreadable),
     after_request (Scripted.platform Scripted.site)
       (Scripted.client_of (go "ur9")) (ratingsExportFields (go "ur9")) 1).
Proof.
assert (responds (Scripted.platform Scripted.site)
          (Scripted.client_of (go "ur9")) (ratingsExportFields (go "ur9"))
          (Scripted.answer (Url (ratingsExportFields (go "ur9"))) 404 []
             Scripted.Unreadable) 1) as Hr.
{ apply site_responds. reflexivity. }
split; [exact Hr|].
destruct (not_found_is_decoded_elsewhere (Scripted.platform Scripted.site)
            (Scripted.client_of (go "ur9")) (ratingsExportFields (go "ur9"))
            (Scripted.answer (Url (ratingsExportFields (go "ur9"))) 404 []
               Scripted.Unreadable) 1 Hr eq_refl)
  as (Hratings & _).
exact (proj1 (Hratings eq_refl)).
Defined.

(** X16. When the request of an operation cannot be built, nothing is
    sent: the operation fails with "failure creating http request <method>
    <url>" wrapping the cause, and the world behind the client, its
    configuration and its logger are as they were. This holds for the six
    operations. *)
Theorem unbuilt_request_is_not_sent (P : Platform) (c : ImdbClient P)
    (reqFields : RequestFields) (cause : error) :
http_NewRequest P (Method reqFields) (Url reqFields) = Err cause →
∃ c',
  net c' = net c ∧ config c' = config c ∧ logger c' = logger c
  ∧ calls c' = calls c ++ [reqFields]
  ∧ (∀ listId, reqFields = listExportFields listId →
       ListGet P listId c = (Fail (CreateError reqFields cause), c'))
  ∧ (reqFields = listExportFields (WatchlistId (config c)) →
     WatchlistGet P c = (Fail (CreateError reqFields cause), c'))
  ∧ (reqFields = listsFields (UserId (config c)) →
     ListsGetAll P c = (Fail (CreateError reqFields cause), c'))
  ∧ (reqFields = ratingsExportFields (UserId (config c)) →
     RatingsGet P c = (Fail (CreateError reqFields cause), c'))
  ∧ (reqFields = profileFields →
     UserIdScrape P c = (Fail (CreateError reqFields cause), c'))
  ∧ (reqFields = watchlistFields →
     WatchlistIdScrape P c = (Fail (CreateError reqFields cause), c')).
Proof.
intros Hnew.
exists (mkImdbClient (client c) (config c) (logger c) (net c)
          (calls c ++ [reqFields])).
split_and!; [done..| | | | | |].
all: apply request_error_propagates; unfold doRequest; simpl;
  by rewrite Hnew.
Qed.

Lemma unbuilt_request_is_not_sent_witness :
http_NewRequest (Outage.unbuildable Scripted.site) http.MethodGet
  (Url (listExportFields (go "ls2")))
= Err Outage.malformed
∧ ∃ c',
    net c' = net Outage.stuck_client
    ∧ ListGet (Outage.unbuildable Scripted.site) (go "ls2")
        Outage.stuck_client
      = (Fail (CreateError (listExportFields (go "ls2")) Outage.malformed),
         c').
Proof.
split; [reflexivity|].
destruct (unbuilt_request_is_not_sent (Outage.unbuildable Scripted.site)
            Outage.stuck_client (listExportFields (go "ls2"))
            Outage.malformed eq_refl)
  as (c' & Hnet & _ & _ & _ & Hget & _).
exists c'. split; [exact Hnet|]. exact (Hget (go "ls2") eq_refl).
Defined.

Lemma UserIdScrape_Ret (P : Platform) (c c' : ImdbClient P) :
UserIdScrape P c = (Ret tt, c') →
∃ response c1,
  doRequest P profileFields c = (Ret response, c1)
  ∧ scrapeSelectionAttribute P (http.Body_ response) (clientNameImdb P)
      (go ".user-profile.userId") (go "data-userid")
    = Ok (UserId (config c')).
Proof.
rewrite UserIdScrape_eq.
destruct (doRequest P _ c) as [[response| |] c1]; [|done..].
destruct (scrapeSelectionAttribute P _ _ _ _) as [userId|] eqn:E; [|done].
intros [= <-]. eauto.
Qed.

(** X17. A client constructed with an account id to discover holds the id
    scraped from the profile page: the page was requested with the
    configuration as given, the value of [data-userid] found in it is the
    account id of the client returned, and scraping the watchlist id
    afterwards did not change it. *)
Theorem discovered_account_id_is_kept (P : Platform) (config0 : ImdbConfig)
    (logger0 : list LogEntry) (net0 : World P) (jar : Jar P)
    (cl : ImdbClient P) :
account_id_to_discover config0 →
setupCookieJar P config0 = Ok jar →
NewImdbClient P config0 logger0 net0 = Ret cl →
∃ response c1,
  doRequest P profileFields (mkImdbClient jar config0 logger0 net0 [])
  = (Ret response, c1)
  ∧ scrapeSelectionAttribute P (http.Body_ response) (clientNameImdb P)
      (go ".user-profile.userId") (go "data-userid")
    = Ok (UserId (config cl)).
Proof.
intros Hd Hjar. unfold NewImdbClient. rewrite Hjar.
rewrite (hydrate_discover P (mkImdbClient jar config0 logger0 net0 []) Hd).
destruct (UserIdScrape P (mkImdbClient jar config0 logger0 net0 []))
  as [[[]|err|] c2] eqn:Eu; [|done..].
pose proof (WatchlistIdScrape_frame P c2) as (_ & Hu & _).
destruct (WatchlistIdScrape P c2) as [[[]|err|] c3]; [|done..].
intros [= <-]. simpl in Hu. rewrite Hu.
by apply UserIdScrape_Ret.
Qed.

Lemma discovered_account_id_is_kept_witness :
account_id_to_discover Scripted.fresh_config
∧ setupCookieJar (Scripted.platform Scripted.site) Scripted.fresh_config
  = Ok Scripted.fresh_jar
∧ NewImdbClient (Scripted.platform Scripted.site) Scripted.fresh_config [] 0
  = Ret (mkImdbClient (P := Scripted.platform Scripted.site)
           Scripted.fresh_jar
           (mkImdbConfig (go "at") (go "ubid") (go "ur1") (go "ls2"))
           [] 2 [profileFields; watchlistFields])
∧ ∃ response c1,
    doRequest (Scripted.platform Scripted.site) profileFields
      (mkImdbClient (P := Scripted.platform Scripted.site)
         Scripted.fresh_jar Scripted.fresh_config [] 0 [])
    = (Ret response, c1)
    ∧ scrapeSelectionAttribute (Scripted.platform Scripted.site)
        (http.Body_ response) (go "imdb")
        (go ".user-profile.userId") (go "data-userid")
      = Ok (go "ur1").
Proof.
assert (account_id_to_discover Scripted.fresh_config) as Hd
  by (right; reflexivity).
split; [exact Hd|]. split; [reflexivity|]. split; [reflexivity|].
exact (discovered_account_id_is_kept (Scripted.platform Scripted.site)
         Scripted.fresh_config [] 0 Scripted.fresh_jar
         (mkImdbClient (P := Scripted.platform Scripted.site)
            Scripted.fresh_jar
            (mkImdbConfig (go "at") (go "ubid") (go "ur1") (go "ls2"))
            [] 2 [profileFields; watchlistFields])
         Hd eq_refl eq_refl).
Defined.

(** * The catalog scan and a list that is not there *)

Section ScanOrder.
Context (P : Platform).

(** The scan of the elements of a page is the scan of the first ones, then
    the scan of the others from the client and the lists the first left. *)
Lemma ListsGetAll_each_app before after lists c :
ListsGetAll_each P (before ++ after) lists c
= match ListsGetAll_each P before lists c with
  | (Ret kept, c1) => ListsGetAll_each P after kept c1
  | other => other
  end.
Proof.
revert lists c. induction before as [|[listId|] rest IH]; intros lists c.
- done.
- change ((Some listId :: rest) ++ after) with (Some listId :: (rest ++ after)).
  destruct (ListGet P listId c) as [[list|err|] c1] eqn:E.
  + rewrite (ListsGetAll_each_keep P listId (rest ++ after) lists c list c1 E),
      (ListsGetAll_each_keep P listId rest lists c list c1 E).
    apply IH.
  + rewrite (ListsGetAll_each_skip P listId (rest ++ after) lists c err c1 E),
      (ListsGetAll_each_skip P listId rest lists c err c1 E).
    apply IH.
  + by rewrite !(ListsGetAll_each_panic P listId _ lists c c1 E).
- change ((None :: rest) ++ after) with (None :: (rest ++ after)).
  rewrite !ListsGetAll_each_info. apply IH.
Qed.

(** The scan only adds to the logger. *)
Lemma ListsGetAll_each_logger attrs lists c :
∃ later, logger (ListsGetAll_each P attrs lists c).2 = logger c ++ later.
Proof.
revert lists c. induction attrs as [|[listId|] rest IH]; intros lists c.
- exists []. simpl. by rewrite app_nil_r.
- pose proof (ListGet_frame P listId c) as (_ & _ & Hl & _).
  destruct (ListsGetAll_each_step P listId rest lists c)
    as [(list & c1 & E & ->)|[(err' & c1 & E & ->)|(c1 & E & ->)]];
    rewrite E in Hl; simpl in Hl.
  + destruct (IH (lists ++ [list]) c1) as [later ->].
    exists later. by rewrite Hl.
  + destruct (IH lists (after_scan_error P c1 err')) as [later ->].
    simpl. rewrite Hl. eexists. by rewrite <- app_assoc.
  + exists []. simpl. by rewrite Hl, app_nil_r.
- rewrite ListsGetAll_each_info.
  destruct (IH lists (after_scan_info P c)) as [later ->].
  simpl. eexists. by rewrite <- app_assoc.
Qed.
End ScanOrder.

(** C4. When the export of [listId] is answered 404 to the client [c],
    [ListGet listId] fails with the list-not-found error, whose details name
    [listId]. When [c] is the client as a catalog scan has it on coming to an
    element with that id, [ListsGetAll] logs the error, appends no list for
    the element, and is the scan of the elements that remain, with the lists
    kept so far: it does not fail, and when it returns, the lists are the
    lists kept so far followed by lists of the remaining ids, the logger
    holds the error after what it held, and the export of every remaining id
    has been requested. *)
Theorem not_found_list_is_skipped (P : Platform) (c : ImdbClient P)
    (listId : list N) (response : http.Response (Body P)) (w : World P) :
responds P c (listExportFields listId) response w →
http.StatusCode response = http.StatusNotFound →
∃ err,
  ListGet P listId c
  = (Fail err, after_request P c (listExportFields listId) w)
  ∧ ListNotFoundError P listId err
  ∧ (∀ rest lists,
       ListsGetAll_each P (Some listId :: rest) lists c
       = ListsGetAll_each P rest lists
           (after_scan_error P
              (after_request P c (listExportFields listId) w) err))
  ∧ logger (after_scan_error P
              (after_request P c (listExportFields listId) w) err)
    = logger c
      ++ [LogError (go "unexpected error while scraping imdb lists") err]
  ∧ (∀ c0 page w0 doc before rest kept,
       responds P c0 (listsFields (UserId (config c0))) page w0 →
       http.StatusCode page = http.StatusOK →
       goquery_NewDocumentFromReader P (http.Body_ page) = Ok doc →
       map (λ selection, goquery_Attr P selection (go "id"))
         (goquery_Find P doc (go ".user-list"))
       = before ++ Some listId :: rest →
       ListsGetAll_each P before []
         (after_request P c0 (listsFields (UserId (config c0))) w0)
       = (Ret kept, c) →
       ListsGetAll P c0
       = ListsGetAll_each P rest kept
           (after_scan_error P
              (after_request P c (listExportFields listId) w) err)
       ∧ (∀ e c', ListsGetAll P c0 ≠ (Fail e, c'))
       ∧ (∀ lists c',
            ListsGetAll P c0 = (Ret lists, c') →
            (∃ more,
                lists = kept ++ more
                ∧ map ListId more `sublist_of` omap id rest)
            ∧ map ListId lists `sublist_of` omap id before ++ omap id rest
            ∧ (∃ later,
                  logger c'
                  = logger c
                    ++ LogError
                         (go "unexpected error while scraping imdb lists") err
                       :: later)
            ∧ calls c'
              = calls c
                ++ listExportFields listId
                   :: map listExportFields (omap id rest))).
Proof.
intros Hr Hs.
destruct (ListGet_not_found P listId c response w Hr Hs) as (err & Hget & He).
exists err. split_and!; [done..| |done|].
{ intros rest lists. by apply ListsGetAll_each_skip. }
intros c0 page w0 doc before rest kept Hpage Hok Hdoc Hattrs Hbefore.
assert (ListsGetAll P c0
        = ListsGetAll_each P rest kept
            (after_scan_error P
               (after_request P c (listExportFields listId) w) err)) as Hscan.
{ rewrite ListsGetAll_eq.
  rewrite (doRequest_passes P c0 _ page w0) by auto.
  rewrite Hdoc, Hattrs, ListsGetAll_each_app, Hbefore.
  by apply ListsGetAll_each_skip. }
split_and!; [done| |].
- intros e c' H. rewrite Hscan in H.
  pose proof (ListsGetAll_each_no_Fail P rest kept
                (after_scan_error P
                   (after_request P c (listExportFields listId) w) err) e)
    as Hn.
  by rewrite H in Hn.
- intros lists c'. rewrite Hscan. intros H.
  pose proof (ListsGetAll_each_Ret P _ _ _ _ _ H) as (more & -> & Hsub & _).
  pose proof (ListsGetAll_each_Ret P _ _ _ _ _ Hbefore)
    as (kept' & Hkept & Hsub' & _).
  simpl in Hkept. subst kept'.
  pose proof (ListsGetAll_each_logger P rest kept
                (after_scan_error P
                   (after_request P c (listExportFields listId) w) err))
    as [later Hlog].
  pose proof (ListsGetAll_each_calls P rest kept
                (after_scan_error P
                   (after_request P c (listExportFields listId) w) err))
    as Hcalls.
  rewrite H in Hlog, Hcalls. simpl in Hlog, Hcalls.
  split_and!.
  + by exists more.
  + rewrite map_app. by apply sublist_app.
  + exists later. rewrite Hlog. by rewrite <- app_assoc.
  + rewrite Hcalls by done. by rewrite <- app_assoc.
Qed.

Lemma not_found_list_is_skipped_witness :
responds (Scripted.platform Ragged.site) Ragged.at_missing
  (listExportFields (go "ls3")) Scripted.missing_export 3
∧ http.StatusCode Scripted.missing_export = http.StatusNotFound
∧ ListsGetAll_each (Scripted.platform Ragged.site) [Some (go "ls2")] []
    (after_request (Scripted.platform Ragged.site) Ragged.a_client
       (listsFields (go "ur3")) 1)
  = (Ret [Ragged.watchlist], Ragged.at_missing)
∧ ListsGetAll (Scripted.platform Ragged.site) Ragged.a_client
  = (Ret [Ragged.watchlist; Ragged.favorites],
     mkImdbClient (P := Scripted.platform Ragged.site) []
       (mkImdbConfig (go "at") (go "ubid") (go "ur3") (go "ls2"))
       [LogError (go "unexpected error while scraping imdb lists")
          Ragged.missing]
       4
       [listsFields (go "ur3"); listExportFields (go "ls2");
        listExportFields (go "ls3"); listExportFields (go "ls6")])
∧ ∃ err,
    ListGet (Scripted.platform Ragged.site) (go "ls3") Ragged.at_missing
    = (Fail err,
       after_request (Scripted.platform Ragged.site) Ragged.at_missing
         (listExportFields (go "ls3")) 3)
    ∧ ListNotFoundError (Scripted.platform Ragged.site) (go "ls3") err
    ∧ ListsGetAll (Scripted.platform Ragged.site) Ragged.a_client
      = ListsGetAll_each (Scripted.platform Ragged.site) [Some (go "ls6")]
          [Ragged.watchlist]
          (after_scan_error (Scripted.platform Ragged.site)
             (after_request (Scripted.platform Ragged.site) Ragged.at_missing
                (listExportFields (go "ls3")) 3) err).
Proof.
assert (responds (Scripted.platform Ragged.site) Ragged.at_missing
          (listExportFields (go "ls3")) Scripted.missing_export 3) as Hr.
{ apply (ragged_responds Scripted.missing_export Ragged.at_missing).
  reflexivity. }
assert (responds (Scripted.platform Ragged.site) Ragged.a_client
          (listsFields (go "ur3")) Ragged.lists_page 1) as Hpage.
{ apply (ragged_responds Ragged.lists_page Ragged.a_client). reflexivity. }
split; [exact Hr|]. split; [reflexivity|]. split; [reflexivity|].
split; [reflexivity|].
destruct (not_found_list_is_skipped (Scripted.platform Ragged.site)
            Ragged.at_missing (go "ls3") Scripted.missing_export 3 Hr eq_refl)
  as (err & Hget & Herr & _ & _ & Hscan).
exists err. split; [exact Hget|]. split; [exact Herr|].
exact (proj1 (Hscan Ragged.a_client Ragged.lists_page 1
                [Some (go "ls2"); Some (go "ls3"); Some (go "ls6")]
                [Some (go "ls2")] [Some (go "ls6")] [Ragged.watchlist]
                Hpage eq_refl eq_refl eq_refl eq_refl)).
Defined.
